(** * Hand-eye calibration (tasks/calibrate.py): a shallow embedding

    The Python class [Calibration] drives a robot over a grid of tool
    positions, records checkerboard observations, and fits a rigid transform
    plus a depth scale.  Floating-point numbers are idealised as the real
    numbers of the Standard Library; numpy arrays of a fixed shape are
    records ([V3], [M33], [M44]), arrays with a data-dependent number of rows
    are lists of rows.  Library routines whose result is not determined by a
    closed formula ([np.linalg.svd], [scipy.optimize.minimize]) and the
    hardware collaborators are parameters of the model. *)

From Stdlib Require Import Ascii String Bool Reals ZArith Lia Lra Psatz RNsatz List
  FunctionalExtensionality.
From Stdlib Require DecimalString Floats.
Import ListNotations.
Open Scope R_scope.

Set Implicit Arguments.

(** ** Python exceptions and the result of a fallible call *)

Inductive exn : Type :=
| AssertionError
| IndexError
| ValueError
| OverflowError
| LinAlgError.

Inductive result (A : Type) : Type :=
| Ok (a : A)
| Raise (e : exn).

Arguments Ok {A} a.
Arguments Raise {A} e.

Definition rbind {A B : Type} (r : result A) (k : A -> result B) : result B :=
  match r with
  | Ok a => k a
  | Raise e => Raise e
  end.

(** ** Arrays of fixed shape *)

Record V3 : Type := mkV3 { vx : R; vy : R; vz : R }.

(** A 3x3 array, row-major as numpy stores it: [r0 m] is [m[0]]. *)
Record M33 : Type := mkM33 { r0 : V3; r1 : V3; r2 : V3 }.

(** A 3xN array: three rows of N entries each. *)
Record M3N : Type := mkM3N { row0 : list R; row1 : list R; row2 : list R }.

Record V4 : Type := mkV4 { wx : R; wy : R; wz : R; ww : R }.
Record M44 : Type := mkM44 { h0 : V4; h1 : V4; h2 : V4; h3 : V4 }.

Definition vzero : V3 := mkV3 0 0 0.
Definition vadd (a b : V3) : V3 := mkV3 (vx a + vx b) (vy a + vy b) (vz a + vz b).
Definition vsub (a b : V3) : V3 := mkV3 (vx a - vx b) (vy a - vy b) (vz a - vz b).
Definition vneg (a : V3) : V3 := mkV3 (- vx a) (- vy a) (- vz a).
Definition vdiv (a : V3) (n : R) : V3 := mkV3 (vx a / n) (vy a / n) (vz a / n).
Definition vdot (a b : V3) : R := vx a * vx b + vy a * vy b + vz a * vz b.
Definition vcross (a b : V3) : V3 :=
  mkV3 (vy a * vz b - vz a * vy b)
       (vz a * vx b - vx a * vz b)
       (vx a * vy b - vy a * vx b).

Definition col0 (m : M33) : V3 := mkV3 (vx (r0 m)) (vx (r1 m)) (vx (r2 m)).
Definition col1 (m : M33) : V3 := mkV3 (vy (r0 m)) (vy (r1 m)) (vy (r2 m)).
Definition col2 (m : M33) : V3 := mkV3 (vz (r0 m)) (vz (r1 m)) (vz (r2 m)).

Definition eye3 : M33 := mkM33 (mkV3 1 0 0) (mkV3 0 1 0) (mkV3 0 0 1).
Definition eye4 : M44 :=
  mkM44 (mkV4 1 0 0 0) (mkV4 0 1 0 0) (mkV4 0 0 1 0) (mkV4 0 0 0 1).

(** ** The numpy operations the module uses *)

Module np.

(** Sum of two equal-length sequences entry by entry. *)
Fixpoint zip_with {A B C : Type} (f : A -> B -> C) (l : list A) (m : list B)
  : list C :=
  match l, m with
  | a :: l', b :: m' => f a b :: zip_with f l' m'
  | _, _ => []
  end.

Definition rsum (l : list R) : R := fold_right Rplus 0 l.

(** [np.sum(A, axis=0)] of an Nx3 array. *)
Definition sum0 (A : list V3) : V3 := fold_right vadd vzero A.

(** [np.mean(A, axis=0)]: the column sums divided by the number of rows. *)
Definition mean (A : list V3) : V3 := vdiv (sum0 A) (INR (length A)).

(** [np.tile(c, (N, 1))] for a length-3 vector [c]: N copies as rows. *)
Definition tile (c : V3) (N : nat) : list V3 := repeat c N.

(** [A - B] on two Nx3 arrays. *)
Definition sub (A B : list V3) : list V3 := zip_with vsub A B.

(** [np.transpose] of an Nx3 array and of a 3xN array. *)
Definition transpose (A : list V3) : M3N :=
  mkM3N (map vx A) (map vy A) (map vz A).

Fixpoint zip3 (xs ys zs : list R) : list V3 :=
  match xs, ys, zs with
  | x :: xs', y :: ys', z :: zs' => mkV3 x y z :: zip3 xs' ys' zs'
  | _, _, _ => []
  end.

Definition transpose3N (m : M3N) : list V3 := zip3 (row0 m) (row1 m) (row2 m).

(** Inner product of a row with a column of the same length. *)
Definition inner (r c : list R) : R := rsum (zip_with Rmult r c).

(** [np.dot] of a 3xN array with an Nx3 array. *)
Definition dot_3N_N3 (m : M3N) (B : list V3) : M33 :=
  let c0 := map vx B in
  let c1 := map vy B in
  let c2 := map vz B in
  mkM33 (mkV3 (inner (row0 m) c0) (inner (row0 m) c1) (inner (row0 m) c2))
        (mkV3 (inner (row1 m) c0) (inner (row1 m) c1) (inner (row1 m) c2))
        (mkV3 (inner (row2 m) c0) (inner (row2 m) c1) (inner (row2 m) c2)).

(** [M.T] of a 3x3 array. *)
Definition T (m : M33) : M33 := mkM33 (col0 m) (col1 m) (col2 m).

(** [np.dot] of two 3x3 arrays. *)
Definition dot (a b : M33) : M33 :=
  mkM33 (mkV3 (vdot (r0 a) (col0 b)) (vdot (r0 a) (col1 b)) (vdot (r0 a) (col2 b)))
        (mkV3 (vdot (r1 a) (col0 b)) (vdot (r1 a) (col1 b)) (vdot (r1 a) (col2 b)))
        (mkV3 (vdot (r2 a) (col0 b)) (vdot (r2 a) (col1 b)) (vdot (r2 a) (col2 b))).

(** [np.dot] of a 3x3 array with a length-3 vector. *)
Definition dotv (a : M33) (v : V3) : V3 :=
  mkV3 (vdot (r0 a) v) (vdot (r1 a) v) (vdot (r2 a) v).

(** [np.dot] of a 3x3 array with a 3xN array. *)
Definition dot_33_3N (a : M33) (m : M3N) : M3N :=
  let cols := transpose3N m in
  mkM3N (map (vdot (r0 a)) cols) (map (vdot (r1 a)) cols) (map (vdot (r2 a)) cols).

(** [np.tile(t, (1, N))] for a 3x1 column [t]: the column repeated N times. *)
Definition tile_col (t : V3) (N : nat) : M3N :=
  mkM3N (repeat (vx t) N) (repeat (vy t) N) (repeat (vz t) N).

(** [m1 + m2] on two 3xN arrays. *)
Definition add3N (m1 m2 : M3N) : M3N :=
  mkM3N (zip_with Rplus (row0 m1) (row0 m2))
        (zip_with Rplus (row1 m1) (row1 m2))
        (zip_with Rplus (row2 m1) (row2 m2)).

(** [-M] of a 3x3 array. *)
Definition neg (m : M33) : M33 := mkM33 (vneg (r0 m)) (vneg (r1 m)) (vneg (r2 m)).

(** [np.multiply(E, E)] followed by [np.sum] on an Nx3 array. *)
Definition multiply (A B : list V3) : list V3 :=
  zip_with (fun a b => mkV3 (vx a * vx b) (vy a * vy b) (vz a * vz b)) A B.

Definition sum (A : list V3) : R :=
  rsum (map (fun a => vx a + vy a + vz a) A).

(** [np.linalg.det] of a 3x3 array. *)
Definition linalg_det (m : M33) : R := vdot (r0 m) (vcross (r1 m) (r2 m)).

End np.

(** ** More numpy: conversions, grids, homogeneous matrices, inverses *)

Module np_more.

(** Python's [int(x)] on a float: truncation towards zero.  This is the
    conversion numpy (up to 1.17) applies to a non-integral [num] argument
    of [np.linspace]. *)
Definition int (x : R) : Z :=
  if Rle_dec 0 x then Int_part x else (- Int_part (- x))%Z.

Definition arange (N : nat) : list R := map INR (seq 0 N).

(** [y[-1] = v] on a non-empty one-dimensional array. *)
Definition set_last (y : list R) (v : R) : list R := removelast y ++ [v].

(** [np.linspace(start, stop, num)] with the default [endpoint=True]. *)
Definition linspace (start stop num : R) : result (list R) :=
  let n := int num in
  if (n <? 0)%Z then Raise ValueError
  else
    let N := Z.to_nat n in
    let div := (N - 1)%nat in
    let delta := stop - start in
    let y := arange N in
    let y :=
      if (1 <? N)%nat
      then map (fun i => i * (delta / INR div)) y
      else map (fun i => i * delta) y in
    let y := map (fun v => v + start) y in
    Ok (if (1 <? N)%nat then set_last y stop else y).

(** [np.meshgrid(x, y, z)] with the default [indexing='xy']: three arrays
    of shape (len y, len x, len z). *)
Definition meshgrid (xs ys zs : list R)
  : list (list (list R)) * list (list (list R)) * list (list (list R)) :=
  (map (fun _ => map (fun x => map (fun _ => x) zs) xs) ys,
   map (fun y => map (fun _ => map (fun _ => y) zs) xs) ys,
   map (fun _ => map (fun _ => zs) xs) ys).

(** [a.shape = (n, 1)] on a three-dimensional array of n entries: the
    entries in row-major order as one column. *)
Definition reshape_col (a : list (list (list R))) : list R :=
  concat (map (@concat R) a).

(** [np.concatenate((cx, cy, cz), axis=1)] of three Nx1 columns. *)
Definition concatenate_cols (xs ys zs : list R) : result (list V3) :=
  if ((length xs =? length ys) && (length ys =? length zs))%nat
  then Ok (np.zip3 xs ys zs)
  else Raise ValueError.

(** [np.concatenate((np.concatenate((R, t), axis=1), [[0, 0, 0, 1]]), axis=0)]
    with [t] of shape (3, 1). *)
Definition concatenate_Rt (Rm : M33) (t : V3) : M44 :=
  mkM44 (mkV4 (vx (r0 Rm)) (vy (r0 Rm)) (vz (r0 Rm)) (vx t))
        (mkV4 (vx (r1 Rm)) (vy (r1 Rm)) (vz (r1 Rm)) (vy t))
        (mkV4 (vx (r2 Rm)) (vy (r2 Rm)) (vz (r2 Rm)) (vz t))
        (mkV4 0 0 0 1).

(** Elementwise binary operation on two columns with numpy broadcasting:
    shapes (N,1) and (M,1) combine when N = M or one of them is 1. *)
Definition broadcast (f : R -> R -> R) (l m : list R) : result (list R) :=
  if (length l =? length m)%nat then Ok (np.zip_with f l m)
  else match l, m with
       | [a], _ => Ok (map (f a) m)
       | _, [b] => Ok (map (fun x => f x b) l)
       | _, _ => Raise ValueError
       end.

(** Entry (i, j) of a 4x4 array. *)
Definition ent (m : M44) (i j : nat) : R :=
  let r := match i with
           | O => h0 m | 1%nat => h1 m | 2%nat => h2 m | _ => h3 m
           end in
  match j with
  | O => wx r | 1%nat => wy r | 2%nat => wz r | _ => ww r
  end.

Definition mk44 (f : nat -> nat -> R) : M44 :=
  mkM44 (mkV4 (f 0 0) (f 0 1) (f 0 2) (f 0 3))%nat
        (mkV4 (f 1 0) (f 1 1) (f 1 2) (f 1 3))%nat
        (mkV4 (f 2 0) (f 2 1) (f 2 2) (f 2 3))%nat
        (mkV4 (f 3 0) (f 3 1) (f 3 2) (f 3 3))%nat.

(** Index [a] of the array left after deleting index [k]. *)
Definition skip (k a : nat) : nat := if (a <? k)%nat then a else S a.

Definition minor (m : M44) (i j : nat) : R :=
  let e a b := ent m (skip i a) (skip j b) in
  np.linalg_det
    (mkM33 (mkV3 (e 0 0) (e 0 1) (e 0 2))
           (mkV3 (e 1 0) (e 1 1) (e 1 2))
           (mkV3 (e 2 0) (e 2 1) (e 2 2)))%nat.

Definition cofactor (m : M44) (i j : nat) : R :=
  (if Nat.even (i + j) then 1 else -1) * minor m i j.

Definition det44 (m : M44) : R :=
  ent m 0 0 * cofactor m 0 0 + ent m 0 1 * cofactor m 0 1
  + ent m 0 2 * cofactor m 0 2 + ent m 0 3 * cofactor m 0 3.

(** [np.linalg.inv] of a 4x4 array: the adjugate over the determinant; a
    singular matrix raises [LinAlgError]. *)
Definition linalg_inv (m : M44) : result M44 :=
  if Req_dec_T (det44 m) 0 then Raise LinAlgError
  else Ok (mk44 (fun i j => cofactor m j i / det44 m)).

Definition dot44 (a b : M44) : M44 :=
  mk44 (fun i j => ent a i 0 * ent b 0 j + ent a i 1 * ent b 1 j
                   + ent a i 2 * ent b 2 j + ent a i 3 * ent b 3 j).

End np_more.

(** ** The session object, the outside world and the effects of a method *)

(** [workspace_limits]: a 3x2 array, rows x y z, columns min max. *)
Record Limits : Type := mkLimits { lim_x : R * R; lim_y : R * R; lim_z : R * R }.

(** The attributes of a [Calibration] instance.  [camera_intrinsics] stands
    for [self.camera.intrinsics], the 3x3 matrix the camera driver exposes. *)
Record Calibration : Type := mkCalibration {
  calib_grid_step : R;
  checkerboard_offset_from_tool : V3;
  tool_orientation : V3;
  workspace_limits : Limits;
  camera_intrinsics : M33;
  measured_pts : list V3;
  observed_pts : list V3;
  observed_pix : list (Z * Z)
}.

(** What [np.savetxt] is given. *)
Inductive artifact : Type :=
| Scalar (x : R)
| Matrix44 (m : M44)
| Points (l : list V3)
| Pixels (l : list (Z * Z)).

(** Calls that leave the process: hardware commands, the optimiser, files
    written.  Console output, waits and windows are not recorded. *)
Inductive event : Type :=
| camera_connect
| robot_connect
| robot_go_home
| robot_open_gripper
| robot_move_joints
| robot_move_to (position orientation : V3)
| camera_get_image_bundle
| cv2_imwrite (fname : string)
| optimize_minimize (N : nat)
| np_savetxt (fname : string) (a : artifact).

(** ['%06d.png' % n]: the decimal digits of [n], padded with zeros on the
    left to six characters. *)
Fixpoint zeros (k : nat) : string :=
  match k with
  | O => EmptyString
  | S k' => String "0"%char (zeros k')
  end.

Definition format_06d (n : nat) : string :=
  let digits := DecimalString.NilEmpty.string_of_uint (Nat.to_uint n) in
  (zeros (6 - String.length digits) ++ digits)%string.

Definition png_name (n : nat) : string := (format_06d n ++ ".png")%string.

(** What one image bundle yields at a grid point: whether
    [cv2.findChessboardCorners] found the pattern, the rounded pixel of
    corner 4, and the aligned depth image read at that pixel. *)
Record observation : Type := mkObservation {
  checkerboard_found : bool;
  checkerboard_pix : Z * Z;
  checkerboard_z : R
}.

Record state : Type := mkState { self : Calibration; trace : list event }.

(** A method: it may read and update [self], leave events, and raise. *)
Definition M (A : Type) : Type := state -> result A * state.

Definition ret {A : Type} (a : A) : M A := fun s => (Ok a, s).

Definition bind {A B : Type} (c : M A) (k : A -> M B) : M B :=
  fun s => match c s with
           | (Ok a, s') => k a s'
           | (Raise e, s') => (Raise e, s')
           end.

Definition lift {A : Type} (r : result A) : M A := fun s => (r, s).

Definition get_self : M Calibration := fun s => (Ok (self s), s).

Definition set_self (c : Calibration) : M unit :=
  fun s => (Ok tt, mkState c (trace s)).

Definition emit (e : event) : M unit :=
  fun s => (Ok tt, mkState (self s) (trace s ++ [e])).

Declare Scope method_scope.
Delimit Scope method_scope with method.
Notation "x <- c ;; k" := (bind c (fun x => k))
  (at level 61, c at next level, right associativity) : method_scope.
Notation "c ;;; k" := (bind c (fun _ => k))
  (at level 61, right associativity) : method_scope.
Notation "' pat <- c ;; k" := (bind c (fun x => match x with pat => k end))
  (at level 61, pat pattern, c at next level, right associativity) : method_scope.

(** For-loop over a sequence; an exception leaves the loop. *)
Fixpoint for_each {A : Type} (l : list A) (body : A -> M unit) : M unit :=
  match l with
  | [] => ret tt
  | a :: l' => bind (body a) (fun _ => for_each l' body)
  end.

Definition set_measured_pts (v : list V3) (c : Calibration) : Calibration :=
  mkCalibration (calib_grid_step c) (checkerboard_offset_from_tool c)
    (tool_orientation c) (workspace_limits c) (camera_intrinsics c)
    v (observed_pts c) (observed_pix c).

Definition set_observed_pts (v : list V3) (c : Calibration) : Calibration :=
  mkCalibration (calib_grid_step c) (checkerboard_offset_from_tool c)
    (tool_orientation c) (workspace_limits c) (camera_intrinsics c)
    (measured_pts c) v (observed_pix c).

Definition set_observed_pix (v : list (Z * Z)) (c : Calibration) : Calibration :=
  mkCalibration (calib_grid_step c) (checkerboard_offset_from_tool c)
    (tool_orientation c) (workspace_limits c) (camera_intrinsics c)
    (measured_pts c) (observed_pts c) v.

(** [Vt[2, :] *= -1] *)
Definition negate_row2 (Vt : M33) : M33 := mkM33 (r0 Vt) (r1 Vt) (vneg (r2 Vt)).

(** [Calibration.__init__] with the camera's intrinsics in place of the
    camera object; the keyword defaults are those of the source. *)
Definition init (intrinsics : M33) (step : R) (offset orientation : V3)
  : Calibration :=
  mkCalibration step offset orientation
    (mkLimits (0.3, 0.748) (0.05, 0.4) (-0.2, -0.1))
    intrinsics [] [] [].

Definition default_init (intrinsics : M33) : Calibration :=
  init intrinsics 0.05 (mkV3 0 (-0.13) 0.02) (mkV3 (- PI / 2) 0 0).

(** ** class Calibration *)

Section Session.

Import np np_more.
Local Open Scope method_scope.

(** [np.linalg.svd] on a 3x3 array: returns [(U, S, Vt)]. *)
Variable svd : M33 -> M33 * V3 * M33.

(** [scipy.optimize.minimize(f, x0, method='Nelder-Mead').x]; an exception
    of the objective passes through the optimiser. *)
Variable minimize : (R -> result R) -> R -> result R.

(** The observation made from the i-th image bundle of the session. *)
Variable sense : nat -> observation.

(** Estimate rigid transform with SVD (from Nghia Ho). *)
Definition _get_rigid_transform (A B : list V3) : result (M33 * V3) :=
  if negb (length A =? length B)%nat then Raise AssertionError
  else
    let N := length A in
    let centroid_A := mean A in
    let centroid_B := mean B in
    let AA := sub A (tile centroid_A N) in
    let BB := sub B (tile centroid_B N) in
    let H := dot_3N_N3 (transpose AA) BB in
    let '(U, _, Vt) := svd H in
    let Rot := dot (T Vt) (T U) in
    let Rot :=
      if Rlt_dec (linalg_det Rot) 0
      then let Vt := negate_row2 Vt in dot (T Vt) (T U)
      else Rot in
    let t := vadd (dotv (neg Rot) centroid_A) centroid_B in
    Ok (Rot, t).

(** Calculate the rigid transform RMS error. *)
Definition _get_rigid_transform_error (z_scale : R) : M R :=
  self <- get_self ;;
  match observed_pts self with
  | [] => lift (Raise IndexError)
  | _ :: _ =>
    let K := camera_intrinsics self in
    let observed_z := map (fun p => vz p * z_scale) (observed_pts self) in
    observed_x <-
      lift (broadcast Rmult
              (map (fun p => IZR (fst p) - vz (r0 K)) (observed_pix self))
              (map (fun z => z / vx (r0 K)) observed_z)) ;;
    observed_y <-
      lift (broadcast Rmult
              (map (fun p => IZR (snd p) - vz (r1 K)) (observed_pix self))
              (map (fun z => z / vy (r1 K)) observed_z)) ;;
    new_observed_pts <- lift (concatenate_cols observed_x observed_y observed_z) ;;
    Rt <- lift (_get_rigid_transform (measured_pts self) new_observed_pts) ;;
    let '(Rot, t) := Rt in
    let world2camera := concatenate_Rt Rot t in
    let registered_pts :=
      add3N (dot_33_3N Rot (transpose (measured_pts self)))
            (tile_col t (length (measured_pts self))) in
    let error := sub (transpose3N registered_pts) new_observed_pts in
    let error := sum (multiply error error) in
    let rmse := sqrt (error / INR (length (measured_pts self))) in
    ret rmse
  end.

(** The [num] argument one axis of the grid hands to [np.linspace]; a zero
    step makes the quotient infinite or undefined, which [int] rejects. *)
Definition grid_num (lim : R * R) (step : R) : result R :=
  if Req_dec_T step 0
  then Raise (if Req_dec_T (snd lim - fst lim) 0 then ValueError else OverflowError)
  else Ok (1 + (snd lim - fst lim) / step).

Definition gridspace (lim : R * R) (step : R) : result (list R) :=
  rbind (grid_num lim step) (linspace (fst lim) (snd lim)).

(** Construct 3D calibration grid across workspace. *)
Definition _generate_grid : M (list V3) :=
  self <- get_self ;;
  let lims := workspace_limits self in
  gridspace_x <- lift (gridspace (lim_x lims) (calib_grid_step self)) ;;
  gridspace_y <- lift (gridspace (lim_y lims) (calib_grid_step self)) ;;
  gridspace_z <- lift (gridspace (lim_z lims) (calib_grid_step self)) ;;
  let '(calib_grid_x, calib_grid_y, calib_grid_z) :=
    meshgrid gridspace_x gridspace_y gridspace_z in
  let calib_grid_x := reshape_col calib_grid_x in
  let calib_grid_y := reshape_col calib_grid_y in
  let calib_grid_z := reshape_col calib_grid_z in
  lift (concatenate_cols calib_grid_x calib_grid_y calib_grid_z).

(** One pass of the [for tool_position in calib_grid_pts] loop; [i] counts
    the image bundles taken so far. *)
Definition collect_step (it : nat * V3) : M unit :=
  let '(i, tool_position) := it in
  self <- get_self ;;
  emit (robot_move_to tool_position (tool_orientation self)) ;;;
  emit camera_get_image_bundle ;;;
  let o := sense i in
  if checkerboard_found o then
    let K := camera_intrinsics self in
    let pix := checkerboard_pix o in
    let z := checkerboard_z o in
    let x := (IZR (fst pix) - vz (r0 K)) * (z / vx (r0 K)) in
    let y := (IZR (snd pix) - vz (r1 K)) * (z / vy (r1 K)) in
    if Req_dec_T z 0 then ret tt
    else
      s1 <- get_self ;;
      set_self (set_observed_pts (observed_pts s1 ++ [mkV3 x y z]) s1) ;;;
      let tool_position := vadd tool_position (checkerboard_offset_from_tool self) in
      s2 <- get_self ;;
      set_self (set_measured_pts (measured_pts s2 ++ [tool_position]) s2) ;;;
      s3 <- get_self ;;
      set_self (set_observed_pix (observed_pix s3 ++ [pix]) s3) ;;;
      s4 <- get_self ;;
      emit (cv2_imwrite (png_name (length (measured_pts s4))))
  else ret tt.

Definition collect (calib_grid_pts : list V3) : M unit :=
  for_each (combine (seq 0 (length calib_grid_pts)) calib_grid_pts) collect_step.

(** [Calibration.run] up to the last [np.savetxt]; what follows in the
    source reloads the saved arrays and plots them: it is [display] below,
    and the method from its first line to its last is [Complete.run]. *)
Definition run : M unit :=
  emit camera_connect ;;;
  emit robot_connect ;;;
  emit robot_go_home ;;;
  emit robot_open_gripper ;;;
  emit robot_move_joints ;;;
  calib_grid_pts <- _generate_grid ;;
  collect calib_grid_pts ;;;
  emit robot_go_home ;;;
  let world2camera := eye4 in
  let z_scale_init := 1 in
  this <- get_self ;;
  emit (optimize_minimize (length (measured_pts this))) ;;;
  camera_depth_offset <-
    (fun s => (minimize (fun z => fst (_get_rigid_transform_error z s)) z_scale_init, s)) ;;
  emit (np_savetxt "saved_data/camera_depth_scale.txt" (Scalar camera_depth_offset)) ;;;
  _get_rigid_transform_error camera_depth_offset ;;;
  camera_pose <- lift (linalg_inv world2camera) ;;
  emit (np_savetxt "saved_data/camera_pose.txt" (Matrix44 camera_pose)) ;;;
  this <- get_self ;;
  emit (np_savetxt "saved_data/measured_pts.txt" (Points (measured_pts this))) ;;;
  emit (np_savetxt "saved_data/observed_pts.txt" (Points (observed_pts this))) ;;;
  emit (np_savetxt "saved_data/observed_pix.txt" (Pixels (observed_pix this))).

End Session.

(** ** Vocabulary of the specification *)

Module Spec.

Import np np_more.

(** A matrix with orthonormal rows. *)
Definition orthogonal (m : M33) : Prop := dot m (T m) = eye3.

(** A proper rotation: orthogonal with determinant +1. *)
Definition proper_rotation (m : M33) : Prop :=
  orthogonal m /\ linalg_det m = 1.

Definition diag (s : V3) : M33 :=
  mkM33 (mkV3 (vx s) 0 0) (mkV3 0 (vy s) 0) (mkV3 0 0 (vz s)).

(** What [np.linalg.svd] promises for its result [(U, S, Vt)] on [H]:
    orthogonal factors, singular values non-negative in descending order,
    and [H = U diag(S) Vt]. *)
Definition is_svd (H : M33) (usv : M33 * V3 * M33) : Prop :=
  let '(U, Sv, Vt) := usv in
  orthogonal U /\ orthogonal Vt /\
  vz Sv >= 0 /\ vy Sv >= vz Sv /\ vx Sv >= vy Sv /\
  H = dot U (dot (diag Sv) Vt).

(** Scalar multiple, entrywise sum and adjugate of 3x3 matrices; the
    quadratic form and the trace. *)
Definition mscale (k : R) (m : M33) : M33 :=
  mkM33 (mkV3 (k * vx (r0 m)) (k * vy (r0 m)) (k * vz (r0 m)))
        (mkV3 (k * vx (r1 m)) (k * vy (r1 m)) (k * vz (r1 m)))
        (mkV3 (k * vx (r2 m)) (k * vy (r2 m)) (k * vz (r2 m))).

Definition madd (a b : M33) : M33 :=
  mkM33 (vadd (r0 a) (r0 b)) (vadd (r1 a) (r1 b)) (vadd (r2 a) (r2 b)).

Definition adj (m : M33) : M33 :=
  T (mkM33 (vcross (r1 m) (r2 m)) (vcross (r2 m) (r0 m)) (vcross (r0 m) (r1 m))).

Definition qf (m : M33) (v : V3) : R := vdot v (dotv m v).

Definition mzero : M33 := mkM33 vzero vzero vzero.

(** The outer product [a b^T]. *)
Definition outer (a b : V3) : M33 :=
  mkM33 (mkV3 (vx a * vx b) (vx a * vy b) (vx a * vz b))
        (mkV3 (vy a * vx b) (vy a * vy b) (vy a * vz b))
        (mkV3 (vz a * vx b) (vz a * vy b) (vz a * vz b)).

(** Rigid motion of a point. *)
Definition apply_rigid (Rot : M33) (t a : V3) : V3 := vadd (dotv Rot a) t.

(** A point set with its centroid subtracted. *)
Definition centred (A : list V3) : list V3 := map (fun a => vsub a (mean A)) A.

(** The cross-covariance of the centred point sets, as the estimator
    forms it before the decomposition. *)
Definition cross_covariance (A B : list V3) : M33 :=
  dot_3N_N3 (transpose (sub A (tile (mean A) (length A))))
            (sub B (tile (mean B) (length B))).

(** Some three of the points do not lie on one line. *)
Definition noncollinear (A : list V3) : Prop :=
  exists p q r, In p A /\ In q A /\ In r A /\
                vcross (vsub q p) (vsub r p) <> vzero.

(** Pinhole back-projection of a pixel and a raw depth under a depth scale. *)
Definition back_project (K : M33) (z_scale : R) (pix : Z * Z) (depth : R) : V3 :=
  let z := depth * z_scale in
  mkV3 ((IZR (fst pix) - vz (r0 K)) * z / vx (r0 K))
       ((IZR (snd pix) - vz (r1 K)) * z / vy (r1 K))
       z.

(** The back-projected observations of a session under a depth scale. *)
Definition new_observed (c : Calibration) (z_scale : R) : list V3 :=
  zip_with (fun pix p => back_project (camera_intrinsics c) z_scale pix (vz p))
           (observed_pix c) (observed_pts c).

(** Squared distance between the image of [m] under [(Rot, t)] and [b]. *)
Definition residual_sq (Rot : M33) (t m b : V3) : R :=
  let d := vsub (vadd (dotv Rot m) t) b in
  vx d * vx d + vy d * vy d + vz d * vz d.

Definition sum_residual_sq (Rot : M33) (t : V3) (ms bs : list V3) : R :=
  rsum (zip_with (residual_sq Rot t) ms bs).

(** The three sequences of the correspondence set have one length. *)
Definition aligned (c : Calibration) : Prop :=
  length (measured_pts c) = length (observed_pts c) /\
  length (observed_pts c) = length (observed_pix c).

(** An observation the collecting loop keeps. *)
Definition valid (o : observation) : bool :=
  checkerboard_found o && (if Req_dec_T (checkerboard_z o) 0 then false else true).

(** The sample the loop records for a kept observation at a tool position. *)
Definition observed_point (K : M33) (o : observation) : V3 :=
  mkV3 ((IZR (fst (checkerboard_pix o)) - vz (r0 K)) * (checkerboard_z o / vx (r0 K)))
       ((IZR (snd (checkerboard_pix o)) - vz (r1 K)) * (checkerboard_z o / vy (r1 K)))
       (checkerboard_z o).

(** The grid as the Cartesian product of the axis sequences: y outermost,
    then x, z innermost. *)
Definition product_yxz (xs ys zs : list R) : list V3 :=
  flat_map (fun y => flat_map (fun x => map (fun z => mkV3 x y z) zs) xs) ys.

(** Number of points on one axis. *)
Definition axis_count (lim : R * R) (step : R) : nat :=
  Z.to_nat (1 + Int_part ((snd lim - fst lim) / step)).

(** The i-th point of an axis of n >= 2 points. *)
Definition axis_point (lim : R * R) (n i : nat) : R :=
  fst lim + INR i * ((snd lim - fst lim) / INR (n - 1)).

(** The points of one axis: [min] alone when there is one, otherwise evenly
    spread from [min] to [max]. *)
Definition axis_points (lim : R * R) (n : nat) : list R :=
  if (1 <? n)%nat then map (axis_point lim n) (seq 0 n) else repeat (fst lim) n.

(** The session after one kept observation at tool position [p]. *)
Definition keep (c : Calibration) (p : V3) (o : observation) : Calibration :=
  let c1 := set_observed_pts
              (observed_pts c ++ [observed_point (camera_intrinsics c) o]) c in
  let c2 := set_measured_pts
              (measured_pts c1 ++ [vadd p (checkerboard_offset_from_tool c)]) c1 in
  set_observed_pix (observed_pix c2 ++ [checkerboard_pix o]) c2.

(** The session after the collecting loop has gone through [items]. *)
Definition collected (sense : nat -> observation) (items : list (nat * V3))
           (c : Calibration) : Calibration :=
  fold_left (fun c it => if valid (sense (fst it)) then keep c (snd it) (sense (fst it)) else c)
            items c.

(** All the calls of the collecting loop: the hardware calls of each pass
    and, for a pass that keeps its sample, the image file named after the
    number of samples then held; [n] is the number held before. *)
Fixpoint loop_events (sense : nat -> observation) (orientation : V3) (n : nat)
         (items : list (nat * V3)) : list event :=
  match items with
  | [] => []
  | it :: items' =>
      robot_move_to (snd it) orientation :: camera_get_image_bundle ::
      (if valid (sense (fst it))
       then cv2_imwrite (png_name (S n)) :: loop_events sense orientation (S n) items'
       else loop_events sense orientation n items')
  end.

(** Every recorded observation has a non-zero depth. *)
Definition depths_nonzero (c : Calibration) : Prop :=
  Forall (fun o => vz o <> 0) (observed_pts c).

(** The world-to-camera matrix the objective assembles for a depth scale. *)
Definition world2camera_at (svd : M33 -> M33 * V3 * M33) (c : Calibration)
           (z_scale : R) : result M44 :=
  rbind (_get_rigid_transform svd (measured_pts c) (new_observed c z_scale))
        (fun Rt => Ok (concatenate_Rt (fst Rt) (snd Rt))).

(** What [_generate_grid] and the objective return, as functions of the
    session alone. *)
Definition grid_of (c : Calibration) : result (list V3) :=
  fst (_generate_grid (mkState c [])).

Definition objective (svd : M33 -> M33 * V3 * M33) (c : Calibration)
           (z_scale : R) : result R :=
  fst (_get_rigid_transform_error svd z_scale (mkState c [])).

(** The hardware calls [run] makes before the collecting loop. *)
Definition startup_events : list event :=
  [camera_connect; robot_connect; robot_go_home; robot_open_gripper;
   robot_move_joints].

(** The files [run] writes after the depth scale. *)
Definition saved_arrays (pose : M44) (c : Calibration) : list event :=
  [np_savetxt "saved_data/camera_pose.txt" (Matrix44 pose);
   np_savetxt "saved_data/measured_pts.txt" (Points (measured_pts c));
   np_savetxt "saved_data/observed_pts.txt" (Points (observed_pts c));
   np_savetxt "saved_data/observed_pix.txt" (Pixels (observed_pix c))].

(** The grid positions numbered as the loop meets them. *)
Definition enumerate (grid : list V3) : list (nat * V3) :=
  combine (seq 0 (length grid)) grid.

End Spec.

(** ** A concrete session

    A camera with focal length 600 and principal point (320, 240); the
    checkerboard is found in the first image only, at the principal point
    and at depth 1.  On the zero cross-covariance of a single sample the
    decomposition returns identity factors; the optimiser stand-in evaluates
    the objective once and keeps its initial guess. *)

Module Example.

Import np np_more Spec.

Definition K0 : M33 := mkM33 (mkV3 600 0 320) (mkV3 0 600 240) (mkV3 0 0 1).

Definition session0 : Calibration := default_init K0.

Definition seen : observation := mkObservation true (320%Z, 240%Z) 1.
Definition unseen : observation := mkObservation false (0%Z, 0%Z) 0.

Definition sense0 (i : nat) : observation :=
  match i with
  | O => seen
  | S _ => unseen
  end.

Definition svd0 (H : M33) : M33 * V3 * M33 := (eye3, vzero, eye3).

Definition minimize0 (f : R -> result R) (x0 : R) : result R :=
  rbind (f x0) (fun _ => Ok x0).

(** The session after the loop: one sample, taken at the first grid point. *)
Definition session1 : Calibration :=
  keep session0 (mkV3 0.3 0.05 (-0.2)) seen.

(** A session holding three samples. *)
Definition session3 : Calibration :=
  keep (keep session1 (mkV3 0.3 0.05 (-0.15)) (mkObservation true (330%Z, 240%Z) 1))
       (mkV3 0.356 0.05 (-0.2)) (mkObservation true (320%Z, 250%Z) 1.05).

(** Two passes of the loop. *)
Definition items0 : list (nat * V3) :=
  enumerate [mkV3 0.3 0.05 (-0.2); mkV3 0.3 0.05 (-0.15)].

(** A rotation by a quarter turn about the z axis, and the points of an
    octahedron. *)
Definition quarter_turn : M33 := mkM33 (mkV3 0 (-1) 0) (mkV3 1 0 0) (mkV3 0 0 1).

Definition octahedron : list V3 :=
  [mkV3 1 0 0; mkV3 (-1) 0 0; mkV3 0 1 0; mkV3 0 (-1) 0; mkV3 0 0 1; mkV3 0 0 (-1)].

(** A decomposition routine that is right on the cross-covariances of the
    octahedron moved by the quarter turn: there H = 2 R0^T. *)
Definition svd_octahedron (H : M33) : M33 * V3 * M33 :=
  (eye3, mkV3 2 2 2, mscale (1 / 2) H).

End Example.

(** ** The display at the end of [run]

    Once the arrays are saved, [run] shows three point clouds: the measured
    points, the observed points carried into the robot frame through the
    inverse of a transform fitted to them, and the same after the depths
    were multiplied by the optimised scale.  The arrays are the ones just
    saved, read back with [np.loadtxt], which returns a saved array of two
    or more rows as a two-dimensional array of the same entries; the
    definitions below are the computations on such arrays.  Reading the
    files and the plotting calls themselves are left out. *)

Section Display.

Import np np_more.

Variable svd : M33 -> M33 * V3 * M33.

(** [m[0:3, 0:3]] and [m[0:3, 3:]] of a 4x4 array. *)
Definition block33 (m : M44) : M33 :=
  mkM33 (mkV3 (wx (h0 m)) (wy (h0 m)) (wz (h0 m)))
        (mkV3 (wx (h1 m)) (wy (h1 m)) (wz (h1 m)))
        (mkV3 (wx (h2 m)) (wy (h2 m)) (wz (h2 m))).

Definition column3 (m : M44) : V3 := mkV3 (ww (h0 m)) (ww (h1 m)) (ww (h2 m)).

(** The red cloud: fit [(R, t)] from the measured to the observed points,
    invert the homogeneous matrix, apply it to the observed points. *)
Definition t_observed_pts (measured_pts observed_pts : list V3)
  : result (list V3) :=
  rbind (_get_rigid_transform svd measured_pts observed_pts) (fun Rt =>
    let '(Rot, t) := Rt in
    let camera_pose := concatenate_Rt Rot t in
    rbind (linalg_inv camera_pose) (fun camera2robot =>
      Ok (transpose3N
            (add3N (dot_33_3N (block33 camera2robot) (transpose observed_pts))
                   (tile_col (column3 camera2robot) (length observed_pts)))))).

(** [new_observed_pts[:,2] = new_observed_pts[:,2] * camera_depth_offset[0]]
    on a copy of the observed points. *)
Definition new_observed_pts (camera_depth_offset : R) (observed_pts : list V3)
  : list V3 :=
  map (fun p => mkV3 (vx p) (vy p) (vz p * camera_depth_offset)) observed_pts.

(** The green cloud: the same fit and inverse on the rescaled points. *)
Definition t_new_observed_pts (measured_pts observed_pts : list V3)
           (camera_depth_offset : R) : result (list V3) :=
  t_observed_pts measured_pts (new_observed_pts camera_depth_offset observed_pts).

End Display.

(** ** The end of [run]: reading the arrays back, and the whole method

    [np.loadtxt] returns what [np.savetxt] wrote from an N x 3 array as a
    two-dimensional array when the file has two rows or more; a file of one
    row is returned as a one-dimensional array of its three entries, and an
    empty file as an empty one-dimensional array.  A column slice [a[:, j]]
    of a one-dimensional array raises IndexError.  Nothing in these lines
    writes a file or commands the hardware. *)

Section Reload.

Import np np_more.

Variable svd : M33 -> M33 * V3 * M33.

(** [_get_rigid_transform(A, B)] when [B] was read back from a file of one
    row, [b], as the one-dimensional array of its three entries: [len(B)]
    is 3, the centroid of [B] is the mean [c] of the three entries, numpy
    broadcasts [B - np.tile(c, (N, 1))] to N rows equal to [B - c], and
    [t] gets [c] added in each coordinate. *)
Definition _get_rigid_transform_row (A : list V3) (b : V3) : result (M33 * V3) :=
  if negb (length A =? 3)%nat then Raise AssertionError
  else
    let N := length A in
    let centroid_A := mean A in
    let centroid_B := (vx b + vy b + vz b) / 3 in
    let AA := sub A (tile centroid_A N) in
    let BB := tile (mkV3 (vx b - centroid_B) (vy b - centroid_B) (vz b - centroid_B)) N in
    let H := dot_3N_N3 (transpose AA) BB in
    let '(U, _, Vt) := svd H in
    let Rot := dot (T Vt) (T U) in
    let Rot :=
      if Rlt_dec (linalg_det Rot) 0
      then let Vt := negate_row2 Vt in dot (T Vt) (T U)
      else Rot in
    let t := vadd (dotv (neg Rot) centroid_A)
                  (mkV3 centroid_B centroid_B centroid_B) in
    Ok (Rot, t).

(** Lines 195 to 222 of [run], for the arrays of the session as they were
    saved: the three clouds are computed and shown, or an exception
    leaves the method. *)
Definition display (self : Calibration) (camera_depth_offset : R) : result unit :=
  match measured_pts self with
  | [] | [_] =>
      (* [measured_pts[:,0]] on a one-dimensional array *)
      Raise IndexError
  | _ :: _ :: _ =>
      match observed_pts self with
      | [] =>
          (* [len(B)] is 0 *)
          Raise AssertionError
      | [b] =>
          (* the red cloud is computed by broadcasting; then
             [new_observed_pts[:,2]] on a one-dimensional array *)
          rbind (_get_rigid_transform_row (measured_pts self) b) (fun Rt =>
          rbind (linalg_inv (concatenate_Rt (fst Rt) (snd Rt))) (fun _ =>
          Raise IndexError))
      | _ :: _ :: _ =>
          rbind (t_observed_pts svd (measured_pts self) (observed_pts self))
            (fun _ =>
          rbind (t_new_observed_pts svd (measured_pts self) (observed_pts self)
                   camera_depth_offset)
            (fun _ => Ok tt))
      end
  end.

End Reload.

Module Complete.

Section Session.

Local Open Scope method_scope.

Variable svd : M33 -> M33 * V3 * M33.
Variable minimize : (R -> result R) -> R -> result R.
Variable sense : nat -> observation.

(** [Calibration.run] from its first line to its last. *)
Definition run : M unit :=
  emit camera_connect ;;;
  emit robot_connect ;;;
  emit robot_go_home ;;;
  emit robot_open_gripper ;;;
  emit robot_move_joints ;;;
  calib_grid_pts <- _generate_grid ;;
  collect sense calib_grid_pts ;;;
  emit robot_go_home ;;;
  let world2camera := eye4 in
  let z_scale_init := 1 in
  this <- get_self ;;
  emit (optimize_minimize (length (measured_pts this))) ;;;
  camera_depth_offset <-
    (fun s => (minimize (fun z => fst (_get_rigid_transform_error svd z s))
                        z_scale_init, s)) ;;
  emit (np_savetxt "saved_data/camera_depth_scale.txt" (Scalar camera_depth_offset)) ;;;
  _get_rigid_transform_error svd camera_depth_offset ;;;
  camera_pose <- lift (np_more.linalg_inv world2camera) ;;
  emit (np_savetxt "saved_data/camera_pose.txt" (Matrix44 camera_pose)) ;;;
  this <- get_self ;;
  emit (np_savetxt "saved_data/measured_pts.txt" (Points (measured_pts this))) ;;;
  emit (np_savetxt "saved_data/observed_pts.txt" (Points (observed_pts this))) ;;;
  emit (np_savetxt "saved_data/observed_pix.txt" (Pixels (observed_pix this))) ;;;
  this <- get_self ;;
  lift (display svd this camera_depth_offset).

End Session.

End Complete.

(** ** Reading a trace; the workspace as a box *)

Module Trace.

(** The poses handed to [robot.move_to], in order. *)
Definition moves (tr : list event) : list (V3 * V3) :=
  flat_map (fun e => match e with
                     | robot_move_to p o => [(p, o)]
                     | _ => []
                     end) tr.

(** The number of image bundles taken. *)
Definition captures (tr : list event) : nat :=
  length (filter (fun e => match e with
                           | camera_get_image_bundle => true
                           | _ => false
                           end) tr).

(** The names of the files written with [np.savetxt], in order. *)
Definition saved_files (tr : list event) : list string :=
  flat_map (fun e => match e with
                     | np_savetxt fname _ => [fname]
                     | _ => []
                     end) tr.

(** The names of the image files written, in order. *)
Definition image_files (tr : list event) : list string :=
  flat_map (fun e => match e with
                     | cv2_imwrite fname => [fname]
                     | _ => []
                     end) tr.

Definition between (lim : R * R) (x : R) : Prop := fst lim <= x <= snd lim.

(** A position within the workspace limits on every axis. *)
Definition inside (L : Limits) (p : V3) : Prop :=
  between (lim_x L) (vx p) /\ between (lim_y L) (vy p) /\ between (lim_z L) (vz p).

(** A point scaled about the origin. *)
Definition vscale (k : R) (p : V3) : V3 := mkV3 (k * vx p) (k * vy p) (k * vz p).

(** The samples the loop keeps: the passes whose observation is valid. *)
Definition kept (sense : nat -> observation) (items : list (nat * V3))
  : list (nat * V3) :=
  filter (fun it => Spec.valid (sense (fst it))) items.

(** The five files of a completed session, in the order they are written. *)
Definition all_files : list string :=
  ["saved_data/camera_depth_scale.txt"; "saved_data/camera_pose.txt";
   "saved_data/measured_pts.txt"; "saved_data/observed_pts.txt";
   "saved_data/observed_pix.txt"]%string.

End Trace.

(** ** The grid under rounding

    The code computes in binary64.  Everywhere else the model computes over
    the reals, but the number of points of an axis is the truncation of a
    computed value, which rounding can move across an integer.  Here the
    [num] argument of [np.linspace] is formed as the code forms it, each of
    its three operations followed by a rounding [fl] to the nearest binary64
    number (finite results are assumed).  With [fl] the identity this is the
    grid of the session above. *)

Module Rounded.

Section Grid.

Import np np_more.
Local Open Scope method_scope.

(** Rounding of a real number to binary64. *)
Variable fl : R -> R.

(** [1 + (max - min) / step] as the code evaluates it; a zero step gives
    an infinite or undefined quotient, which [int] rejects. *)
Definition grid_num (lim : R * R) (step : R) : result R :=
  if Req_dec_T step 0
  then Raise (if Req_dec_T (fl (snd lim - fst lim)) 0
              then ValueError else OverflowError)
  else Ok (fl (1 + fl (fl (snd lim - fst lim) / step))).

Definition gridspace (lim : R * R) (step : R) : result (list R) :=
  rbind (grid_num lim step) (linspace (fst lim) (snd lim)).

(** Construct 3D calibration grid across workspace. *)
Definition _generate_grid : M (list V3) :=
  self <- get_self ;;
  let lims := workspace_limits self in
  gridspace_x <- lift (gridspace (lim_x lims) (calib_grid_step self)) ;;
  gridspace_y <- lift (gridspace (lim_y lims) (calib_grid_step self)) ;;
  gridspace_z <- lift (gridspace (lim_z lims) (calib_grid_step self)) ;;
  let '(calib_grid_x, calib_grid_y, calib_grid_z) :=
    meshgrid gridspace_x gridspace_y gridspace_z in
  let calib_grid_x := reshape_col calib_grid_x in
  let calib_grid_y := reshape_col calib_grid_y in
  let calib_grid_z := reshape_col calib_grid_z in
  lift (concatenate_cols calib_grid_x calib_grid_y calib_grid_z).

(** The value handed to [np.linspace] for a non-zero step, and the
    number of points it stands for. *)
Definition num (lim : R * R) (step : R) : R :=
  fl (1 + fl (fl (snd lim - fst lim) / step)).

Definition count (lim : R * R) (step : R) : nat :=
  Z.to_nat (int (num lim step)).

(** What is used of rounding to nearest: it keeps the order and is exact
    on 0 and on 1. *)
Definition rounding : Prop :=
  (forall x y, x <= y -> fl x <= fl y) /\ fl 0 = 0 /\ fl 1 = 1.

End Grid.

End Rounded.

(** ** The estimator in binary64

    The same code over the binary64 numbers of the kernel, to see what
    rounding does to an identity that is exact over the reals.  Sums are
    accumulated from left to right.  [np.linalg.svd] and [np.linalg.det]
    are library routines and stay parameters. *)

Module Binary64.

Import PrimFloat SpecFloat FloatOps.
Local Open Scope float_scope.

Record V3 : Set := mkV3 { vx : float; vy : float; vz : float }.
Record M33 : Set := mkM33 { r0 : V3; r1 : V3; r2 : V3 }.

Definition vzero : V3 := mkV3 0 0 0.
Definition vadd (a b : V3) : V3 := mkV3 (vx a + vx b) (vy a + vy b) (vz a + vz b).
Definition vsub (a b : V3) : V3 := mkV3 (vx a - vx b) (vy a - vy b) (vz a - vz b).
Definition vneg (a : V3) : V3 := mkV3 (- vx a) (- vy a) (- vz a).
Definition vdiv (a : V3) (n : float) : V3 := mkV3 (vx a / n) (vy a / n) (vz a / n).
Definition vdot (a b : V3) : float := vx a * vx b + vy a * vy b + vz a * vz b.

Definition col0 (m : M33) : V3 := mkV3 (vx (r0 m)) (vx (r1 m)) (vx (r2 m)).
Definition col1 (m : M33) : V3 := mkV3 (vy (r0 m)) (vy (r1 m)) (vy (r2 m)).
Definition col2 (m : M33) : V3 := mkV3 (vz (r0 m)) (vz (r1 m)) (vz (r2 m)).

Definition eye3 : M33 := mkM33 (mkV3 1 0 0) (mkV3 0 1 0) (mkV3 0 0 1).

(** The number of rows as a binary64 number. *)
Fixpoint of_nat (n : nat) : float :=
  match n with
  | O => 0
  | S k => of_nat k + 1
  end.

(** [np.mean(A, axis=0)] *)
Definition sum0 (A : list V3) : V3 :=
  match A with
  | [] => vzero
  | a :: rest => fold_left vadd rest a
  end.

Definition mean (A : list V3) : V3 := vdiv (sum0 A) (of_nat (length A)).

(** [A - np.tile(c, (N, 1))] *)
Definition sub (A B : list V3) : list V3 := np.zip_with vsub A B.
Definition tile (c : V3) (N : nat) : list V3 := repeat c N.

(** [np.dot(np.transpose(AA), BB)] *)
Definition inner (r c : list float) : float :=
  match np.zip_with mul r c with
  | [] => 0
  | p :: rest => fold_left add rest p
  end.

Definition dot_T (AA BB : list V3) : M33 :=
  let a0 := map vx AA in
  let a1 := map vy AA in
  let a2 := map vz AA in
  let b0 := map vx BB in
  let b1 := map vy BB in
  let b2 := map vz BB in
  mkM33 (mkV3 (inner a0 b0) (inner a0 b1) (inner a0 b2))
        (mkV3 (inner a1 b0) (inner a1 b1) (inner a1 b2))
        (mkV3 (inner a2 b0) (inner a2 b1) (inner a2 b2)).

Definition T (m : M33) : M33 := mkM33 (col0 m) (col1 m) (col2 m).

Definition dot (a b : M33) : M33 :=
  mkM33 (mkV3 (vdot (r0 a) (col0 b)) (vdot (r0 a) (col1 b)) (vdot (r0 a) (col2 b)))
        (mkV3 (vdot (r1 a) (col0 b)) (vdot (r1 a) (col1 b)) (vdot (r1 a) (col2 b)))
        (mkV3 (vdot (r2 a) (col0 b)) (vdot (r2 a) (col1 b)) (vdot (r2 a) (col2 b))).

Definition dotv (a : M33) (v : V3) : V3 :=
  mkV3 (vdot (r0 a) v) (vdot (r1 a) v) (vdot (r2 a) v).

Definition neg (m : M33) : M33 := mkM33 (vneg (r0 m)) (vneg (r1 m)) (vneg (r2 m)).

(** [Vt[2, :] *= -1] *)
Definition negate_row2 (Vt : M33) : M33 :=
  mkM33 (r0 Vt) (r1 Vt) (mkV3 (vx (r2 Vt) * -1) (vy (r2 Vt) * -1) (vz (r2 Vt) * -1)).

Section Estimator.

Variable svd : M33 -> M33 * V3 * M33.
Variable linalg_det : M33 -> float.

(** Estimate rigid transform with SVD (from Nghia Ho). *)
Definition _get_rigid_transform (A B : list V3) : result (M33 * V3) :=
  if negb (length A =? length B)%nat then Raise AssertionError
  else
    let N := length A in
    let centroid_A := mean A in
    let centroid_B := mean B in
    let AA := sub A (tile centroid_A N) in
    let BB := sub B (tile centroid_B N) in
    let H := dot_T AA BB in
    let '(U, _, Vt) := svd H in
    let Rot := dot (T Vt) (T U) in
    let Rot :=
      if linalg_det Rot <? 0
      then let Vt := negate_row2 Vt in dot (T Vt) (T U)
      else Rot in
    let t := vadd (dotv (neg Rot) centroid_A) centroid_B in
    Ok (Rot, t).

End Estimator.

(** [1 + (max - min) / step], the [num] handed to [np.linspace], and the
    truncation [int(num)] that numpy up to 1.17 applies to it. *)
Definition grid_num (lo hi step : float) : float := 1 + (hi - lo) / step.

Definition int (x : float) : result Z :=
  match Prim2SF x with
  | S754_zero _ => Ok 0%Z
  | S754_infinity _ => Raise OverflowError
  | S754_nan => Raise ValueError
  | S754_finite s m e =>
      let a := if (0 <=? e)%Z then Z.shiftl (Zpos m) e
               else Z.shiftr (Zpos m) (- e) in
      Ok (if s then (- a)%Z else a)
  end.

(** The one sample of the concrete session: the first grid point
    (0.3, 0.05, -0.2) plus the checkerboard offset (0, -0.13, 0.02), and
    the back-projection (0, 0, 1) of the principal point at depth 1; the
    literals are the binary64 numbers nearest to these decimals.  On the
    zero cross-covariance of a single sample the decomposition returns
    identity factors, and the determinant of the identity is 1. *)
Definition measured0 : V3 :=
  vadd (mkV3 0x1.3333333333333p-2 0x1.999999999999ap-5 (-0x1.999999999999ap-3))
       (mkV3 0 (-0x1.0a3d70a3d70a4p-3) 0x1.47ae147ae147bp-6).

Definition observed0 : V3 := mkV3 0 0 1.

Definition svd0 (H : M33) : M33 * V3 * M33 := (eye3, vzero, eye3).
Definition det0 (m : M33) : float := 1.

End Binary64.

(** * Verification *)

Import np np_more Spec.



Lemma V3_ext (a b : V3) : vx a = vx b -> vy a = vy b -> vz a = vz b -> a = b.
Proof. destruct a, b; cbn; intros; subst; reflexivity. Qed.

Lemma M33_ext (a b : M33) : r0 a = r0 b -> r1 a = r1 b -> r2 a = r2 b -> a = b.
Proof. destruct a, b; cbn; intros; subst; reflexivity. Qed.

(** Unfold the fixed-shape array operations down to real arithmetic. *)
Ltac mat_simpl :=
  cbv beta iota zeta delta
      [vx vy vz vadd vsub vneg vdot vcross vdiv dotv neg r0 r1 r2 col0 col1 col2
       T dot linalg_det negate_row2 eye3 vzero diag mscale madd adj qf mzero
       outer apply_rigid].

Ltac mat_simpl_all :=
  cbv beta iota zeta delta
      [vx vy vz vadd vsub vneg vdot vcross vdiv dotv neg r0 r1 r2 col0 col1 col2
       T dot linalg_det negate_row2 eye3 vzero diag mscale madd adj qf mzero
       outer apply_rigid] in *.

Ltac mat_destruct :=
  repeat match goal with
         | m : M33 |- _ =>
             let a := fresh "ra" in let b := fresh "rb" in let c := fresh "rc" in
             destruct m as [a b c]
         | v : V3 |- _ =>
             let a := fresh "x" in let b := fresh "y" in let c := fresh "z" in
             destruct v as [a b c]
         end.

Lemma det_dot (a b : M33) : linalg_det (dot a b) = linalg_det a * linalg_det b.
Proof. mat_destruct; mat_simpl; ring. Qed.

Lemma det_T (a : M33) : linalg_det (T a) = linalg_det a.
Proof. mat_destruct; mat_simpl; ring. Qed.

Lemma det_negate_row2 (a : M33) : linalg_det (negate_row2 a) = - linalg_det a.
Proof. mat_destruct; mat_simpl; ring. Qed.

Lemma det_eye3 : linalg_det eye3 = 1.
Proof. mat_simpl; ring. Qed.

Lemma orthogonal_det_sq (m : M33) : orthogonal m -> linalg_det m * linalg_det m = 1.
Proof.
  unfold orthogonal; intros Hm.
  rewrite <- (det_T m) at 2. rewrite <- det_dot, Hm. apply det_eye3.
Qed.



(** Entrywise proof of an identity between vectors or matrices. *)
Ltac mat_eq :=
  mat_destruct;
  try apply M33_ext; try apply V3_ext;
  mat_simpl;
  try ring.

Lemma dot_assoc (a b c : M33) : dot a (dot b c) = dot (dot a b) c.
Proof. mat_eq. Qed.

Lemma dot_eye_l (a : M33) : dot eye3 a = a.
Proof. mat_eq. Qed.

Lemma dot_eye_r (a : M33) : dot a eye3 = a.
Proof. mat_eq. Qed.

Lemma T_dot (a b : M33) : T (dot a b) = dot (T b) (T a).
Proof. mat_eq. Qed.

Lemma T_T (a : M33) : T (T a) = a.
Proof. mat_eq. Qed.

Lemma T_eye3 : T eye3 = eye3.
Proof. reflexivity. Qed.

Lemma adj_dot (m : M33) : dot (adj m) m = mscale (linalg_det m) eye3.
Proof. mat_eq. Qed.

Lemma mscale_dot_l (k : R) (a b : M33) : dot (mscale k a) b = mscale k (dot a b).
Proof. mat_eq. Qed.

Lemma mscale_inj (k : R) (a b : M33) : k <> 0 -> mscale k a = mscale k b -> a = b.
Proof.
  intros Hk H.
  assert (E : forall x y, k * x = k * y -> x = y)
    by (intros x y Hxy; apply (Rmult_eq_reg_l k); assumption).
  mat_destruct. unfold mscale in H. cbn in H. injection H as ?. 
  repeat f_equal; apply E; assumption.
Qed.

Lemma orthogonal_det_nonzero (m : M33) : orthogonal m -> linalg_det m <> 0.
Proof. intros H%orthogonal_det_sq. nra. Qed.

Lemma orthogonal_T_dot (m : M33) : orthogonal m -> dot (T m) m = eye3.
Proof.
  intros Hm. pose proof (orthogonal_det_nonzero Hm) as Hd.
  apply (mscale_inj Hd).
  rewrite <- mscale_dot_l, <- adj_dot at 1.
  assert (Ha : adj m = mscale (linalg_det m) (T m)).
  { rewrite <- (dot_eye_r (adj m)), <- Hm, dot_assoc, adj_dot, mscale_dot_l, dot_eye_l.
    reflexivity. }
  rewrite <- Ha. reflexivity.
Qed.

Lemma orthogonal_T (m : M33) : orthogonal m -> orthogonal (T m).
Proof. intros Hm. unfold orthogonal. rewrite T_T. apply orthogonal_T_dot, Hm. Qed.

Lemma orthogonal_dot (a b : M33) : orthogonal a -> orthogonal b -> orthogonal (dot a b).
Proof.
  unfold orthogonal; intros Ha Hb.
  rewrite T_dot, dot_assoc, <- (dot_assoc a b), Hb, dot_eye_r. exact Ha.
Qed.

Lemma orthogonal_negate_row2 (m : M33) : orthogonal m -> orthogonal (negate_row2 m).
Proof.
  intros Hm.
  replace (negate_row2 m) with (dot (diag (mkV3 1 1 (-1))) m) by mat_eq.
  apply orthogonal_dot; [|exact Hm]. unfold orthogonal. mat_eq.
Qed.

Lemma proper_rotation_eye3 : proper_rotation eye3.
Proof. split; [unfold orthogonal; mat_eq | apply det_eye3]. Qed.

(** ** The rigid-transform estimator *)

Section Estimator.

Variable svd : M33 -> M33 * V3 * M33.

Lemma get_rigid_transform_ok (A B : list V3) :
  length A = length B ->
  exists Rot, _get_rigid_transform svd A B
              = Ok (Rot, vadd (dotv (neg Rot) (mean A)) (mean B)).
Proof.
  intros HL. unfold _get_rigid_transform.
  rewrite HL, Nat.eqb_refl. cbn [negb].
  destruct (svd _) as [[U Sv] Vt].
  eexists. reflexivity.
Qed.

(** C10 (as amended): over the reals, for equal-length point sets with
    at least one point, the estimator returns a pair (R, t) whose
    translation is -R centroid(A) + centroid(B), so that it carries the
    centroid of A onto the centroid of B, whichever branch of the
    reflection test was taken.  (In binary64 the last addition is
    rounded, and the identity holds up to that rounding only.) *)
Theorem centroid_mapped (A B : list V3) :
  length A = length B -> (1 <= length A)%nat ->
  exists Rot t, _get_rigid_transform svd A B = Ok (Rot, t)
                /\ t = vadd (dotv (neg Rot) (mean A)) (mean B)
                /\ vadd (dotv Rot (mean A)) t = mean B.
Proof.
  intros HL _.
  destruct (get_rigid_transform_ok A B HL) as [Rot HR].
  exists Rot, (vadd (dotv (neg Rot) (mean A)) (mean B)).
  split; [exact HR|]. split; [reflexivity|].
  generalize (mean A) (mean B); intros a b.
  apply V3_ext; mat_destruct; mat_simpl; ring.
Qed.

(** C4: when the factors U and Vt returned by the decomposition are
    orthogonal, the rotation the estimator returns has determinant +1 (and
    is orthogonal); a candidate of negative determinant is repaired by
    negating the third row of Vt. *)
Theorem estimated_rotation_is_proper (A B : list V3) (U : M33) (Sv : V3) (Vt : M33) :
  length A = length B ->
  svd (cross_covariance A B) = (U, Sv, Vt) ->
  orthogonal U -> orthogonal Vt ->
  exists Rot t, _get_rigid_transform svd A B = Ok (Rot, t)
                /\ linalg_det Rot = 1 /\ orthogonal Rot.
Proof.
  intros HL Hsvd HU HV.
  unfold _get_rigid_transform.
  rewrite HL, Nat.eqb_refl. cbn [negb].
  unfold cross_covariance in Hsvd. rewrite HL in Hsvd at 1. rewrite Hsvd.
  pose proof (orthogonal_det_sq HU) as HdU.
  pose proof (orthogonal_det_sq HV) as HdV.
  destruct (Rlt_dec _ 0) as [Hneg | Hpos]; do 2 eexists; (split; [reflexivity|]).
  - split.
    + rewrite det_dot, !det_T, det_negate_row2.
      rewrite det_dot, !det_T in Hneg. nra.
    + apply orthogonal_dot; apply orthogonal_T; [apply orthogonal_negate_row2|]; assumption.
  - split.
    + rewrite det_dot, !det_T in *. nra.
    + apply orthogonal_dot; apply orthogonal_T; assumption.
Qed.
End Estimator.

(** ** The polar factor of a positive semi-definite product *)

Lemma M33_entries (a b : M33) :
  a = b ->
  (vx (r0 a) = vx (r0 b) /\ vy (r0 a) = vy (r0 b) /\ vz (r0 a) = vz (r0 b)) /\
  (vx (r1 a) = vx (r1 b) /\ vy (r1 a) = vy (r1 b) /\ vz (r1 a) = vz (r1 b)) /\
  (vx (r2 a) = vx (r2 b) /\ vy (r2 a) = vy (r2 b) /\ vz (r2 a) = vz (r2 b)).
Proof. intros ->. repeat split. Qed.

(** The trace of [P (I - Q)^T (I - Q)] for [P = diag s * Q] symmetric and
    [Q] with orthonormal rows, entry by entry. *)
Lemma trace_identity (s1 s2 s3 q11 q12 q13 q21 q22 q23 q31 q32 q33 : R) :
  q11*q11 + q12*q12 + q13*q13 = 1 ->
  q21*q21 + q22*q22 + q23*q23 = 1 ->
  q31*q31 + q32*q32 + q33*q33 = 1 ->
  q11*q21 + q12*q22 + q13*q23 = 0 ->
  q11*q31 + q12*q32 + q13*q33 = 0 ->
  q21*q31 + q22*q32 + q23*q33 = 0 ->
  s1 * q12 = s2 * q21 ->
  s1 * q13 = s3 * q31 ->
  s2 * q23 = s3 * q32 ->
  (1 - q11) * (s1*q11*(1 - q11) + s1*q12*(- q12) + s1*q13*(- q13))
  + (- q12) * (s2*q21*(1 - q11) + s2*q22*(- q12) + s2*q23*(- q13))
  + (- q13) * (s3*q31*(1 - q11) + s3*q32*(- q12) + s3*q33*(- q13))
  + ((- q21) * (s1*q11*(- q21) + s1*q12*(1 - q22) + s1*q13*(- q23))
     + (1 - q22) * (s2*q21*(- q21) + s2*q22*(1 - q22) + s2*q23*(- q23))
     + (- q23) * (s3*q31*(- q21) + s3*q32*(1 - q22) + s3*q33*(- q23)))
  + ((- q31) * (s1*q11*(- q31) + s1*q12*(- q32) + s1*q13*(1 - q33))
     + (- q32) * (s2*q21*(- q31) + s2*q22*(- q32) + s2*q23*(1 - q33))
     + (1 - q33) * (s3*q31*(- q31) + s3*q32*(- q32) + s3*q33*(1 - q33)))
  = 2 * (s1 * (q11 - 1) + s2 * (q22 - 1) + s3 * (q33 - 1)).
Proof. intros. nsatz. Qed.

Lemma polar_factor_diag (s : V3) (Q : M33) :
  orthogonal Q ->
  vx s >= vy s -> vy s > 0 -> vz s >= 0 ->
  T (dot (diag s) Q) = dot (diag s) Q ->
  (forall v, 0 <= qf (dot (diag s) Q) v) ->
  Q = diag (mkV3 1 1 (linalg_det Q)).
Proof.
  intros HQ Hs12 Hs2 Hs3 Hsym Hpsd.
  pose proof (orthogonal_T_dot HQ) as HQc.
  unfold orthogonal in HQ.
  apply M33_entries in HQ, HQc, Hsym.
  destruct s as [s1 s2 s3].
  destruct Q as [[q11 q12 q13] [q21 q22 q23] [q31 q32 q33]].
  pose proof (Hpsd (mkV3 (1 - q11) (- q12) (- q13))) as P1.
  pose proof (Hpsd (mkV3 (- q21) (1 - q22) (- q23))) as P2.
  pose proof (Hpsd (mkV3 (- q31) (- q32) (1 - q33))) as P3.
  clear Hpsd.
  mat_simpl_all.
  destruct HQ as [(R11 & R12 & R13) [(R21 & R22 & R23) (R31 & R32 & R33)]].
  destruct HQc as [(C11 & C12 & C13) [(C21 & C22 & C23) (C31 & C32 & C33)]].
  destruct Hsym as [(S11 & S12 & S13) [(S21 & S22 & S23) (S31 & S32 & S33)]].
  assert (E : s1 * (q11 - 1) + s2 * (q22 - 1) + s3 * (q33 - 1) >= 0).
  { assert (S12' : s1 * q12 = s2 * q21) by (clear - S21; nra).
    assert (S13' : s1 * q13 = s3 * q31) by (clear - S31; nra).
    assert (S23' : s2 * q23 = s3 * q32) by (clear - S32; nra).
    pose proof (@trace_identity s1 s2 s3 _ _ _ _ _ _ _ _ _ R11 R22 R33 R12 R13 R23 S12' S13' S23') as I.
    clear - P1 P2 P3 I. nra. }
  clear P1 P2 P3 S11 S12 S13 S21 S22 S23 S31 S32 S33.
  assert (B1 : q11 <= 1) by (clear - R11; nra).
  assert (B2 : q22 <= 1) by (clear - R22; nra).
  assert (B3 : q33 <= 1) by (clear - R33; nra).
  assert (Z1 : s1 * (q11 - 1) <= 0) by (clear - B1 Hs12 Hs2; nra).
  assert (Z2 : s2 * (q22 - 1) <= 0) by (clear - B2 Hs2; nra).
  assert (Z3 : s3 * (q33 - 1) <= 0) by (clear - B3 Hs3; nra).
  assert (Q11 : q11 = 1) by (clear - Z1 Z2 Z3 E Hs12 Hs2; nra).
  assert (Q22 : q22 = 1) by (clear - Z1 Z2 Z3 E Hs2; nra).
  subst q11 q22.
  assert (q12 = 0 /\ q13 = 0) as [-> ->] by (clear - R11; split; nra).
  assert (q21 = 0 /\ q23 = 0) as [-> ->] by (clear - R22; split; nra).
  assert (q31 = 0 /\ q32 = 0) as [-> ->] by (clear - C11 C22; split; nra).
  apply M33_ext; apply V3_ext; mat_simpl; ring.
Qed.

(** ** Point sets: centring, means and scatter matrices *)

Lemma sub_tile (A : list V3) (c : V3) :
  sub A (tile c (length A)) = map (fun a => vsub a c) A.
Proof.
  unfold sub, tile. induction A as [|a A IH]; cbn; [reflexivity|].
  rewrite IH. reflexivity.
Qed.

Lemma sub_tile_centred (A : list V3) : sub A (tile (mean A) (length A)) = centred A.
Proof. apply sub_tile. Qed.

Lemma sum0_rigid (Rot : M33) (t : V3) (A : list V3) :
  sum0 (map (apply_rigid Rot t) A)
  = vadd (dotv Rot (sum0 A))
         (mkV3 (INR (length A) * vx t) (INR (length A) * vy t) (INR (length A) * vz t)).
Proof.
  induction A as [|a A IH].
  - cbn. mat_eq.
  - change (sum0 (map (apply_rigid Rot t) (a :: A)))
      with (vadd (apply_rigid Rot t a) (sum0 (map (apply_rigid Rot t) A))).
    rewrite IH.
    change (sum0 (a :: A)) with (vadd a (sum0 A)).
    change (length (a :: A)) with (S (length A)). rewrite S_INR.
    generalize (sum0 A) (INR (length A)); intros s n.
    mat_eq.
Qed.

Lemma mean_rigid (Rot : M33) (t : V3) (A : list V3) :
  (1 <= length A)%nat ->
  mean (map (apply_rigid Rot t) A) = apply_rigid Rot t (mean A).
Proof.
  intros HN. unfold mean. rewrite sum0_rigid, length_map.
  assert (Hn : INR (length A) <> 0) by (apply not_0_INR; lia).
  generalize dependent (INR (length A)); intros n Hn.
  generalize (sum0 A); intros s.
  apply V3_ext; mat_destruct; mat_simpl; field; assumption.
Qed.

Lemma centred_rigid (Rot : M33) (t : V3) (A : list V3) :
  (1 <= length A)%nat ->
  centred (map (apply_rigid Rot t) A) = map (dotv Rot) (centred A).
Proof.
  intros HN. unfold centred. rewrite mean_rigid by assumption.
  rewrite !map_map. apply map_ext. intros a.
  generalize (mean A); intros m. mat_eq.
Qed.

(** The product [X^T Y] of two point sets, as the estimator computes it. *)
Lemma cov_cons (x y : V3) (X Y : list V3) :
  dot_3N_N3 (transpose (x :: X)) (y :: Y)
  = madd (outer x y) (dot_3N_N3 (transpose X) Y).
Proof. reflexivity. Qed.

Lemma cov_nil : dot_3N_N3 (transpose []) [] = mzero.
Proof. reflexivity. Qed.

Lemma madd_dot (a b c : M33) : dot (madd a b) c = madd (dot a c) (dot b c).
Proof. mat_eq. Qed.

Lemma outer_dotv (x y : V3) (m : M33) : outer x (dotv m y) = dot (outer x y) (T m).
Proof. mat_eq. Qed.

Lemma cov_map_dotv (Rot : M33) (X : list V3) :
  dot_3N_N3 (transpose X) (map (dotv Rot) X)
  = dot (dot_3N_N3 (transpose X) X) (T Rot).
Proof.
  induction X as [|x X IH].
  - cbn [map]. rewrite cov_nil. mat_eq.
  - cbn [map]. rewrite !cov_cons, IH, madd_dot, outer_dotv. reflexivity.
Qed.

Lemma cov_symmetric (X : list V3) :
  T (dot_3N_N3 (transpose X) X) = dot_3N_N3 (transpose X) X.
Proof.
  induction X as [|x X IH]; [reflexivity|].
  rewrite cov_cons. 
  replace (T (madd (outer x x) (dot_3N_N3 (transpose X) X)))
    with (madd (T (outer x x)) (T (dot_3N_N3 (transpose X) X)))
    by (generalize (dot_3N_N3 (transpose X) X); intros; mat_eq).
  rewrite IH. f_equal. mat_eq.
Qed.

Lemma qf_cov (X : list V3) (v : V3) :
  qf (dot_3N_N3 (transpose X) X) v = rsum (map (fun x => vdot x v * vdot x v) X).
Proof.
  induction X as [|x X IH].
  - rewrite cov_nil. cbn. mat_simpl. ring.
  - rewrite cov_cons. cbn [map rsum fold_right]. 
    change (fold_right Rplus 0 ?l) with (rsum l). rewrite <- IH.
    generalize (dot_3N_N3 (transpose X) X); intros c.
    mat_destruct. mat_simpl. ring.
Qed.

Lemma rsum_squares_nonneg (X : list V3) (v : V3) :
  0 <= rsum (map (fun x => vdot x v * vdot x v) X).
Proof.
  induction X as [|x X IH]; cbn; [lra|].
  change (fold_right Rplus 0 ?l) with (rsum l). nra.
Qed.

Lemma rsum_squares_zero (X : list V3) (v : V3) :
  rsum (map (fun x => vdot x v * vdot x v) X) = 0 ->
  forall x, In x X -> vdot x v = 0.
Proof.
  induction X as [|a X IH]; cbn; [contradiction|].
  change (fold_right Rplus 0 ?l) with (rsum l).
  intros H x [<- | Hin].
  - pose proof (rsum_squares_nonneg X v). nra.
  - apply IH; [|assumption]. pose proof (rsum_squares_nonneg X v). nra.
Qed.

Lemma qf_cov_nonneg (X : list V3) (v : V3) : 0 <= qf (dot_3N_N3 (transpose X) X) v.
Proof. rewrite qf_cov. apply rsum_squares_nonneg. Qed.

(** ** Recovery of a rigid motion *)

Lemma dotv_dot (a b : M33) (v : V3) : dotv (dot a b) v = dotv a (dotv b v).
Proof. mat_eq. Qed.

Lemma dotv_eye3 (v : V3) : dotv eye3 v = v.
Proof. mat_eq. Qed.

Lemma qf_conj (U C : M33) (v : V3) :
  qf (dot (T U) (dot C U)) v = qf C (dotv U v).
Proof. mat_destruct. mat_simpl. ring. Qed.

Lemma negate_row2_dot (m : M33) : negate_row2 m = dot (diag (mkV3 1 1 (-1))) m.
Proof. mat_eq. Qed.

Lemma T_diag (s : V3) : T (diag s) = diag s.
Proof. mat_eq. Qed.

Lemma diag_ones : diag (mkV3 1 1 1) = eye3.
Proof. reflexivity. Qed.

Lemma dotv_e1 (U : M33) : dotv U (mkV3 0 1 0) = col1 U.
Proof. mat_eq. Qed.

Lemma dotv_e2 (U : M33) : dotv U (mkV3 0 0 1) = col2 U.
Proof. mat_eq. Qed.

Lemma qf_diag_rank_one_e1 (s : V3) (Q : M33) :
  vy s = 0 -> qf (dot (diag s) Q) (mkV3 0 1 0) = 0.
Proof. destruct s as [s1 s2 s3]; cbn; intros ->. mat_destruct. mat_simpl. ring. Qed.

Lemma qf_diag_rank_one_e2 (s : V3) (Q : M33) :
  vz s = 0 -> qf (dot (diag s) Q) (mkV3 0 0 1) = 0.
Proof. destruct s as [s1 s2 s3]; cbn; intros ->. mat_destruct. mat_simpl. ring. Qed.

Lemma vcross_parallel (u : V3) (a b : R) :
  vcross (mkV3 (a * vx u) (a * vy u) (a * vz u)) (mkV3 (b * vx u) (b * vy u) (b * vz u))
  = vzero.
Proof. mat_eq. Qed.

(** Points orthogonal to two columns of an orthogonal matrix lie on the line
    spanned by the remaining column. *)
Lemma on_line_of_col0 (U : M33) (x : V3) :
  orthogonal U ->
  vdot x (col1 U) = 0 -> vdot x (col2 U) = 0 ->
  x = mkV3 (vdot x (col0 U) * vx (col0 U)) (vdot x (col0 U) * vy (col0 U))
           (vdot x (col0 U) * vz (col0 U)).
Proof.
  intros HU H1 H2.
  rewrite <- (dotv_eye3 x) at 1. rewrite <- HU, dotv_dot.
  replace (dotv (T U) x) with (mkV3 (vdot x (col0 U)) 0 0).
  - mat_eq.
  - rewrite <- H1 at 1. rewrite <- H2. mat_eq.
Qed.

Lemma centred_collinear (U : M33) (A : list V3) :
  orthogonal U ->
  (forall x, In x (centred A) -> vdot x (col1 U) = 0) ->
  (forall x, In x (centred A) -> vdot x (col2 U) = 0) ->
  ~ noncollinear A.
Proof.
  intros HU H1 H2 (p & q & r & Hp & Hq & Hr & Hne). apply Hne.
  assert (Hc : forall a, In a A -> In (vsub a (mean A)) (centred A))
    by (intros a Ha; unfold centred; apply (in_map (fun a0 => vsub a0 (mean A))); assumption).
  pose proof (on_line_of_col0 HU (H1 _ (Hc _ Hp)) (H2 _ (Hc _ Hp))) as Ep.
  pose proof (on_line_of_col0 HU (H1 _ (Hc _ Hq)) (H2 _ (Hc _ Hq))) as Eq.
  pose proof (on_line_of_col0 HU (H1 _ (Hc _ Hr)) (H2 _ (Hc _ Hr))) as Er.
  set (u := col0 U) in *.
  set (cp := vdot (vsub p (mean A)) u) in *.
  set (cq := vdot (vsub q (mean A)) u) in *.
  set (cr := vdot (vsub r (mean A)) u) in *.
  replace (vsub q p) with (mkV3 ((cq - cp) * vx u) ((cq - cp) * vy u) ((cq - cp) * vz u)).
  - replace (vsub r p) with (mkV3 ((cr - cp) * vx u) ((cr - cp) * vy u) ((cr - cp) * vz u)).
    + apply vcross_parallel.
    + replace (vsub r p) with (vsub (vsub r (mean A)) (vsub p (mean A)))
        by (generalize (mean A); intros; mat_eq).
      rewrite Er, Ep. clearbody cp cr u. mat_eq.
  - replace (vsub q p) with (vsub (vsub q (mean A)) (vsub p (mean A)))
      by (generalize (mean A); intros; mat_eq).
    rewrite Eq, Ep. clearbody cp cq u. mat_eq.
Qed.

Section PolarRecovery.

Variables (C R0 U Vt : M33) (Sv : V3).
Hypothesis HR0 : proper_rotation R0.
Hypothesis HU : orthogonal U.
Hypothesis HV : orthogonal Vt.
Hypothesis Hfact : dot C (T R0) = dot U (dot (diag Sv) Vt).

Let Q : M33 := dot Vt (dot R0 U).

Lemma polar_Q_orthogonal : orthogonal Q.
Proof. destruct HR0. repeat apply orthogonal_dot; assumption. Qed.

Lemma polar_conjugate : dot (T U) (dot C U) = dot (diag Sv) Q.
Proof.
  destruct HR0 as [HR _].
  assert (HC : C = dot (dot U (dot (diag Sv) Vt)) R0).
  { rewrite <- Hfact, <- dot_assoc, (orthogonal_T_dot HR), dot_eye_r. reflexivity. }
  rewrite HC at 1. unfold Q.
  rewrite !dot_assoc, (orthogonal_T_dot HU), dot_eye_l. reflexivity.
Qed.

Lemma polar_det_Q : linalg_det Q = linalg_det (dot (T Vt) (T U)).
Proof.
  destruct HR0 as [_ Hd]. unfold Q.
  rewrite !det_dot, !det_T, Hd. ring.
Qed.

Lemma polar_R0 : R0 = dot (T Vt) (dot Q (T U)).
Proof.
  unfold Q. rewrite !dot_assoc, (orthogonal_T_dot HV), dot_eye_l.
  rewrite <- dot_assoc, HU, dot_eye_r. reflexivity.
Qed.

Hypothesis Hsym : T C = C.
Hypothesis Hpsd : forall v, 0 <= qf C v.
Hypothesis Hs3 : vz Sv >= 0.
Hypothesis Hs23 : vy Sv >= vz Sv.
Hypothesis Hs12 : vx Sv >= vy Sv.

Lemma polar_Q_diag : vy Sv > 0 -> Q = diag (mkV3 1 1 (linalg_det Q)).
Proof.
  intros Hs2. apply polar_factor_diag with (s := Sv); try assumption.
  - apply polar_Q_orthogonal.
  - rewrite <- polar_conjugate, !T_dot, T_T, Hsym, dot_assoc. reflexivity.
  - intros v. rewrite <- polar_conjugate, qf_conj. apply Hpsd.
Qed.

(** The rotation the estimator selects from the factors is [R0]. *)
Lemma polar_recover :
  vy Sv > 0 ->
  (if Rlt_dec (linalg_det (dot (T Vt) (T U))) 0
   then dot (T (negate_row2 Vt)) (T U)
   else dot (T Vt) (T U)) = R0.
Proof.
  intros Hs2.
  pose proof (polar_Q_diag Hs2) as HQd.
  pose proof (orthogonal_det_sq polar_Q_orthogonal) as Hq2.
  rewrite polar_R0 at 1. rewrite <- polar_det_Q.
  set (q := linalg_det Q) in *.
  destruct (Rlt_dec q 0) as [Hneg | Hpos].
  - assert (Hq : q = -1) by (clear - Hq2 Hneg; nra).
    rewrite HQd, Hq, negate_row2_dot, T_dot, T_diag, !dot_assoc. reflexivity.
  - assert (Hq : q = 1) by (clear - Hq2 Hpos; nra).
    rewrite HQd, Hq, diag_ones, dot_eye_l. reflexivity.
Qed.

(** With only one positive singular value the quadratic form of [C]
    vanishes on the last two columns of [U]. *)
Lemma polar_rank_one :
  vy Sv = 0 -> qf C (col1 U) = 0 /\ qf C (col2 U) = 0.
Proof.
  intros Hs2. assert (Hs3' : vz Sv = 0) by lra.
  split.
  - rewrite <- dotv_e1, <- qf_conj, polar_conjugate.
    apply qf_diag_rank_one_e1; assumption.
  - rewrite <- dotv_e2, <- qf_conj, polar_conjugate.
    apply qf_diag_rank_one_e2; assumption.
Qed.

End PolarRecovery.

Section Recovery.

Variable svd : M33 -> M33 * V3 * M33.

Lemma cross_covariance_rigid (R0 : M33) (t0 : V3) (A : list V3) :
  (1 <= length A)%nat ->
  cross_covariance A (map (apply_rigid R0 t0) A)
  = dot (dot_3N_N3 (transpose (centred A)) (centred A)) (T R0).
Proof.
  intros HN. unfold cross_covariance.
  rewrite !sub_tile_centred, centred_rigid by assumption.
  apply cov_map_dotv.
Qed.

Lemma second_singular_value_positive (R0 : M33) (t0 : V3) (A : list V3)
      (U : M33) (Sv : V3) (Vt : M33) :
  (1 <= length A)%nat -> noncollinear A -> proper_rotation R0 ->
  is_svd (cross_covariance A (map (apply_rigid R0 t0) A)) (U, Sv, Vt) ->
  vy Sv > 0.
Proof.
  intros HN Hnc HR0 (HU & HV & Hs3 & Hs23 & Hs12 & HH).
  rewrite cross_covariance_rigid in HH by assumption.
  destruct (Rle_lt_dec (vy Sv) 0) as [Hle | Hlt]; [|lra].
  exfalso. assert (Hs2 : vy Sv = 0) by lra.
  destruct (polar_rank_one HR0 HU HH Hs3 Hs23 Hs2) as [Z1 Z2].
  rewrite qf_cov in Z1, Z2.
  apply (centred_collinear (A := A) HU); try assumption.
  - apply rsum_squares_zero; assumption.
  - apply rsum_squares_zero; assumption.
Qed.

Lemma estimate_recovers (R0 : M33) (t0 : V3) (A : list V3) :
  (1 <= length A)%nat -> noncollinear A -> proper_rotation R0 ->
  is_svd (cross_covariance A (map (apply_rigid R0 t0) A))
         (svd (cross_covariance A (map (apply_rigid R0 t0) A))) ->
  _get_rigid_transform svd A (map (apply_rigid R0 t0) A) = Ok (R0, t0).
Proof.
  intros HN Hnc HR0 Hsvd.
  set (B := map (apply_rigid R0 t0) A) in *.
  assert (HL : length A = length B) by (unfold B; rewrite length_map; reflexivity).
  unfold _get_rigid_transform.
  rewrite <- HL at 1. rewrite Nat.eqb_refl. cbn [negb].
  assert (HH : dot_3N_N3 (transpose (sub A (tile (mean A) (length A))))
                         (sub B (tile (mean B) (length A)))
               = cross_covariance A B)
    by (unfold cross_covariance; rewrite <- HL; reflexivity).
  rewrite HH.
  destruct (svd (cross_covariance A B)) as [[U Sv] Vt] eqn:E.
  pose proof (second_singular_value_positive t0 HN Hnc HR0 Hsvd) as Hs2.
  destruct Hsvd as (HU & HV & Hs3 & Hs23 & Hs12 & Hfact).
  unfold B in Hfact. rewrite cross_covariance_rigid in Hfact by assumption.
  pose proof (polar_recover HR0 HU HV Hfact (cov_symmetric (centred A))
                (qf_cov_nonneg (centred A)) Hs3 Hs12 Hs2) as Hrot.
  rewrite Hrot.
  f_equal. f_equal.
  unfold B. rewrite mean_rigid by assumption.
  generalize (mean A); intros m. mat_eq.
Qed.

(** C5: for a point set A of at least three points that are not all on
    one line, a proper rotation R0 and a translation t0, the estimator
    applied to A and B = R0 A + t0 returns exactly (R0, t0), provided the
    decomposition it calls returns a singular value decomposition of the
    cross-covariance; in particular the transform from A to A itself is
    the identity rotation with zero translation. *)
Theorem estimate_recovers_rigid_motion (A : list V3) :
  (3 <= length A)%nat -> noncollinear A ->
  (forall (R0 : M33) (t0 : V3),
      proper_rotation R0 ->
      is_svd (cross_covariance A (map (apply_rigid R0 t0) A))
             (svd (cross_covariance A (map (apply_rigid R0 t0) A))) ->
      _get_rigid_transform svd A (map (apply_rigid R0 t0) A) = Ok (R0, t0))
  /\ (is_svd (cross_covariance A A) (svd (cross_covariance A A)) ->
      _get_rigid_transform svd A A = Ok (eye3, vzero)).
Proof.
  intros HN Hnc. split.
  - intros R0 t0 HR0 Hsvd. apply estimate_recovers; try assumption. lia.
  - intros Hsvd.
    assert (E : map (apply_rigid eye3 vzero) A = A).
    { rewrite <- (map_id A) at 2. apply map_ext. intros a. mat_eq. }
    assert (G : _get_rigid_transform svd A (map (apply_rigid eye3 vzero) A)
                = Ok (eye3, vzero)).
    { apply estimate_recovers; try assumption.
      - lia.
      - apply proper_rotation_eye3.
      - rewrite E. exact Hsvd. }
    rewrite E in G. exact G.
Qed.

End Recovery.

(** ** The depth-scale objective *)

Lemma transpose3N_transpose (A : list V3) : transpose3N (transpose A) = A.
Proof.
  unfold transpose3N, transpose; cbn [row0 row1 row2].
  induction A as [|[x y z] A IH]; cbn; [reflexivity|]. rewrite IH. reflexivity.
Qed.

Lemma registered_points (Rot : M33) (t : V3) (A : list V3) :
  transpose3N (add3N (dot_33_3N Rot (transpose A)) (tile_col t (length A)))
  = map (apply_rigid Rot t) A.
Proof.
  unfold dot_33_3N. rewrite transpose3N_transpose.
  unfold transpose3N, add3N, tile_col; cbn [row0 row1 row2].
  induction A as [|a A IH]; cbn; [reflexivity|].
  rewrite IH. reflexivity.
Qed.

Lemma sum_multiply_sub (X Y : list V3) :
  sum (multiply (sub X Y) (sub X Y))
  = rsum (zip_with (fun x y => vx (vsub x y) * vx (vsub x y)
                               + vy (vsub x y) * vy (vsub x y)
                               + vz (vsub x y) * vz (vsub x y)) X Y).
Proof.
  unfold sum, multiply, sub.
  revert Y; induction X as [|x X IH]; intros [|y Y]; cbn; try reflexivity.
  change (fold_right Rplus 0 ?l) with (rsum l).
  rewrite IH. reflexivity.
Qed.

Lemma zip_with_map_l {A B C D : Type} (f : B -> C -> D) (g : A -> B)
      (l : list A) (m : list C) :
  zip_with f (map g l) m = zip_with (fun a c => f (g a) c) l m.
Proof.
  revert m; induction l as [|a l IH]; intros [|c m]; cbn; try reflexivity.
  rewrite IH. reflexivity.
Qed.

Lemma sum_sq_registered (Rot : M33) (t : V3) (ms bs : list V3) :
  sum (multiply (sub (map (apply_rigid Rot t) ms) bs)
                (sub (map (apply_rigid Rot t) ms) bs))
  = sum_residual_sq Rot t ms bs.
Proof.
  rewrite sum_multiply_sub. unfold sum_residual_sq. rewrite zip_with_map_l.
  reflexivity.
Qed.

Lemma length_zip_with {A B C : Type} (f : A -> B -> C) (l : list A) (m : list B) :
  length l = length m -> length (zip_with f l m) = length l.
Proof.
  revert m; induction l as [|a l IH]; intros [|b m]; cbn; try congruence.
  intros H. rewrite IH; congruence.
Qed.

Lemma broadcast_aligned (f : R -> R -> R) (l m : list R) :
  length l = length m -> broadcast f l m = Ok (zip_with f l m).
Proof. intros H. unfold broadcast. rewrite H, Nat.eqb_refl. reflexivity. Qed.

Lemma concatenate_cols_aligned (xs ys zs : list R) :
  length xs = length ys -> length ys = length zs ->
  concatenate_cols xs ys zs = Ok (zip3 xs ys zs).
Proof.
  intros H1 H2. unfold concatenate_cols. rewrite H1, H2, !Nat.eqb_refl. reflexivity.
Qed.

(** The columns the objective assembles are the back-projected samples. *)
Lemma back_projected_columns (K : M33) (z_scale : R) (pix : list (Z * Z)) (pts : list V3) :
  length pix = length pts ->
  zip3 (zip_with Rmult (map (fun p => IZR (fst p) - vz (r0 K)) pix)
                 (map (fun z => z / vx (r0 K)) (map (fun p => vz p * z_scale) pts)))
       (zip_with Rmult (map (fun p => IZR (snd p) - vz (r1 K)) pix)
                 (map (fun z => z / vy (r1 K)) (map (fun p => vz p * z_scale) pts)))
       (map (fun p => vz p * z_scale) pts)
  = zip_with (fun px p => back_project K z_scale px (vz p)) pix pts.
Proof.
  revert pts; induction pix as [|px pix IH]; intros [|p pts]; cbn; try discriminate;
    [reflexivity|].
  intros H. rewrite IH by congruence. f_equal.
  unfold back_project. f_equal; unfold Rdiv; ring.
Qed.

Lemma length_new_observed (c : Calibration) (z_scale : R) :
  length (observed_pix c) = length (observed_pts c) ->
  length (new_observed c z_scale) = length (observed_pts c).
Proof. intros H. unfold new_observed. rewrite length_zip_with; assumption. Qed.

Section Objective.

Variable svd : M33 -> M33 * V3 * M33.

(** The objective reads the session and leaves it as it found it. *)
Lemma objective_frame (z_scale : R) (s : state) :
  snd (_get_rigid_transform_error svd z_scale s) = s.
Proof.
  unfold _get_rigid_transform_error, bind, get_self, lift, ret.
  destruct (observed_pts (self s)); [reflexivity|].
  repeat match goal with
         | |- context [match ?r with Ok _ => _ | Raise _ => _ end] =>
             destruct r; cbn [fst snd]; try reflexivity
         | |- context [let '(_, _) := ?p in _] => destruct p
         end.
  reflexivity.
Qed.

Lemma objective_value (c : Calibration) (z_scale : R) (tr : list event) :
  (1 <= length (measured_pts c))%nat ->
  length (observed_pts c) = length (measured_pts c) ->
  length (observed_pix c) = length (measured_pts c) ->
  exists Rot t,
    _get_rigid_transform svd (measured_pts c) (new_observed c z_scale) = Ok (Rot, t)
    /\ fst (_get_rigid_transform_error svd z_scale (mkState c tr))
       = Ok (sqrt (sum_residual_sq Rot t (measured_pts c) (new_observed c z_scale)
                   / INR (length (measured_pts c)))).
Proof.
  intros HN Hpts Hpix.
  assert (Hpp : length (observed_pix c) = length (observed_pts c)) by congruence.
  destruct (get_rigid_transform_ok svd (measured_pts c) (new_observed c z_scale))
    as [Rot HRt].
  { rewrite length_new_observed; congruence. }
  exists Rot, (vadd (dotv (neg Rot) (mean (measured_pts c))) (mean (new_observed c z_scale))).
  split; [exact HRt|].
  unfold _get_rigid_transform_error, bind, get_self, lift, ret. cbn [self fst snd].
  destruct (observed_pts c) as [|p0 pts0] eqn:Epts.
  { cbn in Hpts. lia. }
  rewrite <- Epts in *.
  rewrite !broadcast_aligned by (rewrite !length_map; assumption).
  rewrite concatenate_cols_aligned
    by (rewrite ?length_zip_with, ?length_map; rewrite ?length_map; congruence).
  rewrite back_projected_columns by assumption.
  fold (new_observed c z_scale). rewrite HRt.
  rewrite registered_points, sum_sq_registered. reflexivity.
Qed.

(** C7: on an index-aligned correspondence set of N >= 3 samples and
    intrinsics with non-zero focal lengths, the objective back-projects
    every sample by the pinhole formula under the depth scale, fits the
    rigid transform (R, t) of the measured points onto the back-projected
    ones, and returns the square root of the summed squared residuals of
    R m + t against the back-projected points divided by N; the value is
    never negative. *)
Theorem objective_is_rmse (c : Calibration) (z_scale : R) (tr : list event) :
  (3 <= length (measured_pts c))%nat ->
  length (observed_pts c) = length (measured_pts c) ->
  length (observed_pix c) = length (measured_pts c) ->
  vx (r0 (camera_intrinsics c)) <> 0 ->
  vy (r1 (camera_intrinsics c)) <> 0 ->
  exists Rot t rmse,
    _get_rigid_transform svd (measured_pts c) (new_observed c z_scale) = Ok (Rot, t)
    /\ rmse = sqrt (sum_residual_sq Rot t (measured_pts c) (new_observed c z_scale)
                    / INR (length (measured_pts c)))
    /\ _get_rigid_transform_error svd z_scale (mkState c tr) = (Ok rmse, mkState c tr)
    /\ 0 <= rmse.
Proof.
  intros HN Hpts Hpix _ _.
  destruct (@objective_value c z_scale tr) as (Rot & t & HRt & Hval); try assumption.
  { lia. }
  exists Rot, t. eexists. split; [exact HRt|]. split; [reflexivity|]. split.
  - rewrite (surjective_pairing (_get_rigid_transform_error svd z_scale (mkState c tr))).
    rewrite Hval, objective_frame. reflexivity.
  - apply sqrt_pos.
Qed.

(** C9: evaluating the objective leaves the session as it was, in
    particular the three arrays of the correspondence set, so a second
    evaluation at any depth scale sees the same data and an evaluation at
    the same depth scale returns the same value. *)
Theorem objective_leaves_correspondences (z_scale : R) (s : state) :
  let s' := snd (_get_rigid_transform_error svd z_scale s) in
  measured_pts (self s') = measured_pts (self s)
  /\ observed_pts (self s') = observed_pts (self s)
  /\ observed_pix (self s') = observed_pix (self s)
  /\ s' = s
  /\ fst (_get_rigid_transform_error svd z_scale s')
     = fst (_get_rigid_transform_error svd z_scale s).
Proof.
  cbv zeta. rewrite objective_frame. repeat split; reflexivity.
Qed.

End Objective.

(** ** The collecting loop *)

Section Collecting.

Variable sense : nat -> observation.

Lemma valid_true (o : observation) :
  valid o = true <-> checkerboard_found o = true /\ checkerboard_z o <> 0.
Proof.
  unfold valid. destruct (checkerboard_found o), (Req_dec_T (checkerboard_z o) 0);
    cbn; intuition congruence.
Qed.

(** One pass: two hardware calls, then the sample is kept, and its image
    written, or dropped. *)
Lemma collect_step_spec (i : nat) (p : V3) (s : state) :
  collect_step sense (i, p) s
  = (Ok tt,
     mkState (if valid (sense i) then keep (self s) p (sense i) else self s)
             (trace s ++ robot_move_to p (tool_orientation (self s))
                      :: camera_get_image_bundle
                      :: (if valid (sense i)
                          then [cv2_imwrite
                                  (png_name (S (length (measured_pts (self s)))))]
                          else []))).
Proof.
  unfold collect_step, bind, get_self, emit, set_self, ret, valid.
  cbn [self trace fst snd].
  destruct (checkerboard_found (sense i)); cbn [andb];
    [|rewrite <- app_assoc; reflexivity].
  destruct (Req_dec_T (checkerboard_z (sense i)) 0);
    [rewrite <- app_assoc; reflexivity|].
  cbn [self trace measured_pts set_observed_pix set_measured_pts set_observed_pts].
  rewrite length_app, Nat.add_1_r, <- !app_assoc. reflexivity.
Qed.

Lemma keep_measured_length (c : Calibration) (p : V3) (o : observation) :
  length (measured_pts (keep c p o)) = S (length (measured_pts c)).
Proof. unfold keep. cbn. rewrite length_app, Nat.add_1_r. reflexivity. Qed.

Lemma keep_orientation (c : Calibration) (p : V3) (o : observation) :
  tool_orientation (keep c p o) = tool_orientation c.
Proof. reflexivity. Qed.

Lemma collected_cons (it : nat * V3) (items : list (nat * V3)) (c : Calibration) :
  collected sense (it :: items) c
  = collected sense items
      (if valid (sense (fst it)) then keep c (snd it) (sense (fst it)) else c).
Proof. reflexivity. Qed.

Lemma collected_orientation (items : list (nat * V3)) (c : Calibration) :
  tool_orientation (collected sense items c) = tool_orientation c.
Proof.
  revert c; induction items as [|it items IH]; intros c; [reflexivity|].
  rewrite collected_cons, IH. destruct (valid (sense (fst it))); reflexivity.
Qed.

Lemma for_each_collect_spec (items : list (nat * V3)) (s : state) :
  for_each items (collect_step sense) s
  = (Ok tt,
     mkState (collected sense items (self s))
             (trace s ++ loop_events sense (tool_orientation (self s))
                           (length (measured_pts (self s))) items)).
Proof.
  revert s; induction items as [|[i p] items IH]; intros s.
  - cbn. rewrite app_nil_r. destruct s; reflexivity.
  - cbn [for_each]. unfold bind at 1. rewrite collect_step_spec.
    rewrite IH, collected_cons.
    cbn [self trace fst snd loop_events].
    rewrite <- app_assoc. cbn [app].
    destruct (valid (sense i)).
    + rewrite keep_orientation, keep_measured_length. reflexivity.
    + reflexivity.
Qed.

Lemma aligned_keep (c : Calibration) (p : V3) (o : observation) :
  aligned c -> aligned (keep c p o).
Proof.
  unfold aligned, keep. cbn. rewrite !length_app. cbn. lia.
Qed.

Lemma aligned_collected (items : list (nat * V3)) (c : Calibration) :
  aligned c -> aligned (collected sense items c).
Proof.
  revert c; induction items as [|it items IH]; intros c Hc; [exact Hc|].
  rewrite collected_cons. apply IH.
  destruct (valid (sense (fst it))); [apply aligned_keep|]; assumption.
Qed.

Lemma depths_nonzero_collected (items : list (nat * V3)) (c : Calibration) :
  depths_nonzero c -> depths_nonzero (collected sense items c).
Proof.
  revert c; induction items as [|it items IH]; intros c Hc; [exact Hc|].
  rewrite collected_cons. apply IH.
  destruct (valid (sense (fst it))) eqn:Hv; [|assumption].
  apply valid_true in Hv. destruct Hv as [_ Hz].
  unfold depths_nonzero, keep. cbn.
  apply Forall_app. split; [exact Hc|]. constructor; [exact Hz|constructor].
Qed.

(** C8: starting from three sequences of one length, the sequences have
    one length after any number of passes of the collecting loop, and one
    more pass either leaves all three as they are or appends exactly one
    element to each of them. *)
Theorem collect_keeps_alignment (items : list (nat * V3)) (i : nat) (p : V3)
        (s : state) :
  aligned (self s) ->
  let s1 := snd (for_each items (collect_step sense) s) in
  let s2 := snd (collect_step sense (i, p) s1) in
  aligned (self s1)
  /\ aligned (self s2)
  /\ ((measured_pts (self s2) = measured_pts (self s1)
       /\ observed_pts (self s2) = observed_pts (self s1)
       /\ observed_pix (self s2) = observed_pix (self s1))
      \/ (exists m o px,
             measured_pts (self s2) = measured_pts (self s1) ++ [m]
             /\ observed_pts (self s2) = observed_pts (self s1) ++ [o]
             /\ observed_pix (self s2) = observed_pix (self s1) ++ [px])).
Proof.
  intros Hs. cbv zeta.
  rewrite for_each_collect_spec, collect_step_spec. cbn [snd self].
  pose proof (aligned_collected items Hs) as H1.
  split; [exact H1|].
  destruct (valid (sense i)).
  - split; [apply aligned_keep; exact H1|].
    right. do 3 eexists. repeat split; reflexivity.
  - split; [exact H1|]. left. repeat split; reflexivity.
Qed.

(** C6: when every recorded depth is non-zero before the loop, every
    recorded depth is non-zero after any number of passes; a pass whose
    depth reading is exactly zero, or whose detection fails, leaves the
    correspondence set as it was; and a pass that does record a sample
    records the depth it read, which is not zero. *)
Theorem collect_filters_samples (items : list (nat * V3)) (i : nat) (p : V3)
        (s : state) :
  depths_nonzero (self s) ->
  let s1 := snd (for_each items (collect_step sense) s) in
  let s2 := snd (collect_step sense (i, p) s1) in
  depths_nonzero (self s1)
  /\ depths_nonzero (self s2)
  /\ (checkerboard_z (sense i) = 0 -> self s2 = self s1)
  /\ (checkerboard_found (sense i) = false -> self s2 = self s1)
  /\ (self s2 <> self s1 ->
      checkerboard_z (sense i) <> 0
      /\ exists x y,
          observed_pts (self s2)
          = observed_pts (self s1) ++ [mkV3 x y (checkerboard_z (sense i))]).
Proof.
  intros Hs. cbv zeta.
  rewrite for_each_collect_spec, collect_step_spec. cbn [snd self].
  pose proof (depths_nonzero_collected items Hs) as H1.
  split; [exact H1|].
  destruct (valid (sense i)) eqn:Hv.
  - apply valid_true in Hv. destruct Hv as [Hf Hz].
    split.
    { unfold depths_nonzero, keep. cbn.
      apply Forall_app. split; [exact H1|]. constructor; [exact Hz|constructor]. }
    split; [intros; contradiction|].
    split; [intros; congruence|].
    intros _. split; [exact Hz|]. do 2 eexists. reflexivity.
  - split; [exact H1|].
    split; [reflexivity|]. split; [reflexivity|].
    intros Hne. contradiction Hne. reflexivity.
Qed.

End Collecting.

(** ** The calibration grid *)

Lemma int_nonneg (x : R) : 0 <= x -> int x = Int_part x.
Proof. intros H. unfold int. destruct (Rle_dec 0 x); [reflexivity|contradiction]. Qed.

Lemma Int_part_succ (x : R) : Int_part (1 + x) = (1 + Int_part x)%Z.
Proof.
  symmetry. apply Int_part_spec. rewrite plus_IZR.
  destruct (base_Int_part x) as [H1 H2]. split; lra.
Qed.

Lemma Int_part_nonneg (x : R) : 0 <= x -> (0 <= Int_part x)%Z.
Proof.
  intros H. destruct (base_Int_part x) as [H1 H2].
  assert (Hlt : -1 < IZR (Int_part x)) by lra.
  apply lt_IZR in Hlt. lia.
Qed.

Lemma span_over_step_pos (lim : R * R) (step : R) :
  fst lim < snd lim -> 0 < step -> 0 < (snd lim - fst lim) / step.
Proof. intros H1 H2. apply Rdiv_lt_0_compat; lra. Qed.

Lemma axis_count_pos (lim : R * R) (step : R) :
  fst lim < snd lim -> 0 < step -> (1 <= axis_count lim step)%nat.
Proof.
  intros H1 H2. unfold axis_count.
  pose proof (Int_part_nonneg (Rlt_le _ _ (span_over_step_pos lim H1 H2))). lia.
Qed.

Lemma axis_count_floor (lim : R * R) (step : R) :
  fst lim < snd lim -> 0 < step ->
  Z.of_nat (axis_count lim step) = (1 + Int_part ((snd lim - fst lim) / step))%Z.
Proof.
  intros H1 H2. unfold axis_count.
  pose proof (Int_part_nonneg (Rlt_le _ _ (span_over_step_pos lim H1 H2))). lia.
Qed.

Lemma set_last_map_seq (f : nat -> R) (M : nat) (v : R) :
  f M = v -> set_last (map f (seq 0 (S M))) v = map f (seq 0 (S M)).
Proof.
  intros <-. unfold set_last. rewrite seq_S, map_app. cbn [map Nat.add].
  rewrite removelast_last. reflexivity.
Qed.

Lemma linspace_points (lo hi num : R) :
  0 <= num ->
  linspace lo hi num = Ok (axis_points (lo, hi) (Z.to_nat (Int_part num))).
Proof.
  intros Hnum. unfold linspace. rewrite (int_nonneg Hnum).
  pose proof (Int_part_nonneg Hnum) as Hn.
  destruct (Z.ltb_spec (Int_part num) 0) as [|_]; [lia|].
  set (N := Z.to_nat (Int_part num)). unfold axis_points, arange.
  destruct (Nat.ltb_spec 1 N) as [HN | HN].
  - f_equal. rewrite !map_map.
    destruct N as [|M]; [lia|].
    rewrite set_last_map_seq.
    + apply map_ext. intros i. unfold axis_point. cbn [fst snd].
      replace (S M - 1)%nat with M by lia. ring.
    + replace (S M - 1)%nat with M by lia.
      assert (INR M <> 0) by (apply not_0_INR; lia). field. assumption.
  - f_equal. rewrite !map_map. cbn [fst].
    destruct N as [|[|N']]; [reflexivity| |lia].
    cbn. f_equal. ring.
Qed.

Lemma gridspace_points (lim : R * R) (step : R) :
  fst lim < snd lim -> 0 < step ->
  gridspace lim step = Ok (axis_points lim (axis_count lim step)).
Proof.
  intros H1 H2. unfold gridspace, grid_num.
  destruct (Req_dec_T step 0) as [E|_]; [lra|]. cbn [rbind].
  pose proof (span_over_step_pos lim H1 H2) as Hpos.
  rewrite linspace_points by lra.
  rewrite Int_part_succ. destruct lim as [lo hi]. reflexivity.
Qed.

Lemma length_axis_points (lim : R * R) (n : nat) : length (axis_points lim n) = n.
Proof.
  unfold axis_points. destruct (1 <? n)%nat.
  - rewrite length_map, length_seq. reflexivity.
  - apply repeat_length.
Qed.

Lemma axis_points_one (lim : R * R) : axis_points lim 1 = [fst lim].
Proof. reflexivity. Qed.


Lemma axis_point_first (lim : R * R) (n : nat) : axis_point lim n 0 = fst lim.
Proof. unfold axis_point. cbn [INR]. ring. Qed.



Lemma hd_axis_points (lim : R * R) (n : nat) (d : R) :
  (1 <= n)%nat -> hd d (axis_points lim n) = fst lim.
Proof.
  intros Hn. unfold axis_points. destruct n as [|M]; [lia|].
  destruct (1 <? S M)%nat; cbn; [apply axis_point_first | reflexivity].
Qed.

Lemma zip3_app (a1 a2 b1 b2 c1 c2 : list R) :
  length a1 = length b1 -> length b1 = length c1 ->
  zip3 (a1 ++ a2) (b1 ++ b2) (c1 ++ c2) = zip3 a1 b1 c1 ++ zip3 a2 b2 c2.
Proof.
  revert b1 c1; induction a1 as [|a a1 IH]; intros [|b b1] [|c c1]; cbn;
    try discriminate; [reflexivity|].
  intros H1 H2. rewrite IH by congruence. reflexivity.
Qed.

Lemma zip3_const (x y : R) (zs : list R) :
  zip3 (map (fun _ => x) zs) (map (fun _ => y) zs) zs = map (fun z => mkV3 x y z) zs.
Proof. induction zs as [|z zs IH]; cbn; [reflexivity|]. rewrite IH. reflexivity. Qed.

Lemma zip3_row (y : R) (xs zs : list R) :
  zip3 (concat (map (fun x => map (fun _ => x) zs) xs))
       (concat (map (fun _ : R => map (fun _ => y) zs) xs))
       (concat (map (fun _ : R => zs) xs))
  = flat_map (fun x => map (fun z => mkV3 x y z) zs) xs.
Proof.
  induction xs as [|x xs IH]; cbn; [reflexivity|].
  rewrite zip3_app, zip3_const, IH by (rewrite ?length_map; reflexivity). reflexivity.
Qed.

Lemma length_concat_const {A B : Type} (f : A -> list B) (n : nat) (xs : list A) :
  (forall x, length (f x) = n) -> length (concat (map f xs)) = (length xs * n)%nat.
Proof.
  intros H. induction xs as [|x xs IH]; cbn; [reflexivity|].
  rewrite length_app, IH, H. reflexivity.
Qed.

Lemma meshgrid_columns (xs ys zs : list R) :
  let '(gx, gy, gz) := meshgrid xs ys zs in
  concatenate_cols (reshape_col gx) (reshape_col gy) (reshape_col gz)
  = Ok (product_yxz xs ys zs).
Proof.
  unfold meshgrid.
  assert (L : forall (f : R -> list (list R)),
             (forall y, length (concat (f y)) = (length xs * length zs)%nat) ->
             length (reshape_col (map f ys)) = (length ys * (length xs * length zs))%nat).
  { intros f Hf. unfold reshape_col. rewrite map_map.
    apply length_concat_const. exact Hf. }
  unfold concatenate_cols.
  rewrite !L.
  2-4: intros y; apply length_concat_const; intros x; rewrite ?length_map; reflexivity.
  rewrite !Nat.eqb_refl. cbn [andb]. f_equal. clear L.
  unfold reshape_col, product_yxz. rewrite !map_map.
  induction ys as [|y ys IH]; cbn; [reflexivity|].
  rewrite zip3_app, zip3_row, IH.
  - reflexivity.
  - rewrite !(@length_concat_const _ _ _ (length zs));
      try reflexivity; intros x; rewrite ?length_map; reflexivity.
  - rewrite !(@length_concat_const _ _ _ (length zs));
      try reflexivity; intros x; rewrite ?length_map; reflexivity.
Qed.

Lemma generate_grid_points (s : state) :
  let c := self s in
  let L := workspace_limits c in
  let step := calib_grid_step c in
  0 < step ->
  fst (lim_x L) < snd (lim_x L) ->
  fst (lim_y L) < snd (lim_y L) ->
  fst (lim_z L) < snd (lim_z L) ->
  _generate_grid s
  = (Ok (product_yxz (axis_points (lim_x L) (axis_count (lim_x L) step))
                     (axis_points (lim_y L) (axis_count (lim_y L) step))
                     (axis_points (lim_z L) (axis_count (lim_z L) step))),
     s).
Proof.
  cbv zeta. intros Hs Hx Hy Hz.
  unfold _generate_grid, bind, get_self, lift.
  rewrite !gridspace_points by assumption.
  pose proof (meshgrid_columns
                (axis_points (lim_x (workspace_limits (self s)))
                   (axis_count (lim_x (workspace_limits (self s))) (calib_grid_step (self s))))
                (axis_points (lim_y (workspace_limits (self s)))
                   (axis_count (lim_y (workspace_limits (self s))) (calib_grid_step (self s))))
                (axis_points (lim_z (workspace_limits (self s)))
                   (axis_count (lim_z (workspace_limits (self s))) (calib_grid_step (self s)))))
    as HM.
  destruct (meshgrid _ _ _) as [[gx gy] gz]. rewrite HM. reflexivity.
Qed.

(** ** The session as a whole *)

Lemma generate_grid_pure (s : state) : _generate_grid s = (grid_of (self s), s).
Proof.
  unfold grid_of, _generate_grid, bind, get_self, lift. cbn [self fst snd].
  repeat match goal with
         | |- context [match ?r with Ok _ => _ | Raise _ => _ end] =>
             destruct r; cbn [fst snd]; try reflexivity
         end.
Qed.

Lemma det44_eye4 : det44 eye4 = 1.
Proof. unfold det44, cofactor, minor, ent, skip, eye4. cbn. mat_simpl. ring. Qed.

Lemma linalg_inv_eye4 : linalg_inv eye4 = Ok eye4.
Proof.
  unfold linalg_inv. destruct (Req_dec_T (det44 eye4) 0) as [E|_].
  - rewrite det44_eye4 in E. lra.
  - f_equal. rewrite det44_eye4.
    unfold mk44, cofactor, minor, ent, skip, eye4. cbn. mat_simpl.
    repeat f_equal; field.
Qed.

Section Run.

Variable svd : M33 -> M33 * V3 * M33.
Variable minimize : (R -> result R) -> R -> result R.
Variable sense : nat -> observation.

Lemma objective_pure (z_scale : R) (s : state) :
  _get_rigid_transform_error svd z_scale s = (objective svd (self s) z_scale, s).
Proof.
  unfold objective, _get_rigid_transform_error, bind, get_self, lift, ret.
  cbn [self fst snd].
  destruct (observed_pts (self s)); [reflexivity|].
  repeat match goal with
         | |- context [match ?r with Ok _ => _ | Raise _ => _ end] =>
             destruct r; cbn [fst snd]; try reflexivity
         | |- context [let '(_, _) := ?p in _] => destruct p
         end.
  reflexivity.
Qed.

(** The whole of [run], stage by stage. *)
Lemma run_stages (s : state) :
  run svd minimize sense s
  = match grid_of (self s) with
    | Raise e => (Raise e, mkState (self s) (trace s ++ startup_events))
    | Ok grid =>
        let c := collected sense (enumerate grid) (self s) in
        let tr := trace s ++ startup_events
                  ++ loop_events sense (tool_orientation (self s))
                       (length (measured_pts (self s))) (enumerate grid)
                  ++ [robot_go_home; optimize_minimize (length (measured_pts c))] in
        match minimize (objective svd c) 1 with
        | Raise e => (Raise e, mkState c tr)
        | Ok x =>
            let tr' := tr ++ [np_savetxt "saved_data/camera_depth_scale.txt" (Scalar x)] in
            match objective svd c x with
            | Raise e => (Raise e, mkState c tr')
            | Ok _ => (Ok tt, mkState c (tr' ++ saved_arrays eye4 c))
            end
        end
    end.
Proof.
  unfold run. unfold bind at 1 2 3 4 5, emit at 1 2 3 4 5. cbn [self trace].
  unfold bind at 1. rewrite generate_grid_pure. cbn [self trace].
  rewrite <- !app_assoc. cbn [app]. fold startup_events.
  destruct (grid_of (self s)) as [grid|e]; [|reflexivity].
  unfold bind at 1. unfold collect. fold (enumerate grid).
  rewrite for_each_collect_spec. cbn [self trace].
  cbv zeta.
  set (c := collected sense (enumerate grid) (self s)).
  unfold bind at 1, emit at 1. cbn [self trace].
  unfold bind at 1, get_self at 1. cbn [self trace].
  unfold bind at 1, emit at 1. cbn [self trace].
  unfold bind at 1.
  replace (fun z => fst (_get_rigid_transform_error svd z _)) with (objective svd c).
  2:{ apply functional_extensionality. intros z. rewrite objective_pure. reflexivity. }
  rewrite <- !app_assoc. cbn [app].
  destruct (minimize (objective svd c) 1) as [x|e]; [|reflexivity].
  unfold bind at 1, emit at 1. cbn [self trace].
  unfold bind at 1. rewrite objective_pure. cbn [self trace].
  destruct (objective svd c x) as [rmse|e]; [|rewrite <- !app_assoc; reflexivity].
  unfold bind at 1, lift at 1. rewrite linalg_inv_eye4.
  unfold bind, emit, get_self. cbn [self trace].
  unfold saved_arrays. rewrite <- !app_assoc. reflexivity.
Qed.

End Run.

Lemma loop_events_kind (sense : nat -> observation) (o : V3) (n : nat)
      (items : list (nat * V3)) (e : event) :
  In e (loop_events sense o n items) ->
  e = camera_get_image_bundle
  \/ (exists p, e = robot_move_to p o)
  \/ (exists fname, e = cv2_imwrite fname).
Proof.
  revert n. induction items as [|it items IH]; intros n; cbn [loop_events].
  - intros [].
  - intros [<- | [<- | H]].
    + right. left. eexists. reflexivity.
    + left. reflexivity.
    + destruct (valid (sense (fst it))).
      * destruct H as [<- | H]; [right; right; eexists; reflexivity|].
        exact (IH _ H).
      * exact (IH _ H).
Qed.

Lemma collected_invalid (sense : nat -> observation) (items : list (nat * V3))
      (c : Calibration) :
  (forall it, In it items -> valid (sense (fst it)) = false) ->
  collected sense items c = c.
Proof.
  revert c; induction items as [|it items IH]; intros c H; [reflexivity|].
  rewrite collected_cons, (H it) by (left; reflexivity).
  apply IH. intros it' Hin. apply H. right. exact Hin.
Qed.

Lemma length_measured_collected (sense : nat -> observation)
      (items : list (nat * V3)) (c : Calibration) :
  length (measured_pts (collected sense items c))
  = (length (measured_pts c)
     + length (filter (fun it => valid (sense (fst it))) items))%nat.
Proof.
  revert c; induction items as [|it items IH]; intros c.
  - cbn. lia.
  - rewrite collected_cons, IH. cbn [filter].
    destruct (valid (sense (fst it))); cbn; rewrite ?length_app; cbn; lia.
Qed.

Lemma axis_points_cons (lim : R * R) (n : nat) :
  (1 <= n)%nat -> exists tl, axis_points lim n = fst lim :: tl.
Proof.
  intros Hn. pose proof (hd_axis_points lim 0 Hn) as Hh.
  pose proof (length_axis_points lim n) as Hl.
  destruct (axis_points lim n) as [|a tl]; [cbn in Hl; lia|].
  cbn in Hh. subst a. eexists. reflexivity.
Qed.

Lemma product_yxz_cons (x y z : R) (xs ys zs : list R) :
  exists rest, product_yxz (x :: xs) (y :: ys) (z :: zs) = mkV3 x y z :: rest.
Proof. unfold product_yxz. cbn. eexists. reflexivity. Qed.

Module ExampleFacts.

Import Example.

Lemma session0_grid :
  exists rest, grid_of session0 = Ok (mkV3 0.3 0.05 (-0.2) :: rest).
Proof.
  unfold grid_of.
  pose proof (@generate_grid_points (mkState session0 [])) as G.
  cbv zeta in G. cbn [self session0 default_init init workspace_limits
                      calib_grid_step lim_x lim_y lim_z fst snd] in G.
  rewrite G by lra. cbn [fst].
  destruct (@axis_points_cons (0.3, 0.748) (axis_count (0.3, 0.748) 0.05)) as [tx Ex].
  { apply axis_count_pos; cbn; lra. }
  destruct (@axis_points_cons (0.05, 0.4) (axis_count (0.05, 0.4) 0.05)) as [ty Ey].
  { apply axis_count_pos; cbn; lra. }
  destruct (@axis_points_cons (-0.2, -0.1) (axis_count (-0.2, -0.1) 0.05)) as [tz Ez].
  { apply axis_count_pos; cbn; lra. }
  rewrite Ex, Ey, Ez. cbn [fst].
  destruct (product_yxz_cons 0.3 0.05 (-0.2) tx ty tz) as [rest Er].
  exists rest. rewrite Er. reflexivity.
Qed.

Lemma valid_seen : valid seen = true.
Proof.
  unfold valid, seen. cbn [checkerboard_found checkerboard_z andb].
  destruct (Req_dec_T 1 0) as [E|_]; [exfalso; lra|reflexivity].
Qed.

Lemma valid_unseen : valid unseen = false.
Proof. reflexivity. Qed.

Lemma session0_collected (rest : list V3) :
  collected sense0 (enumerate (mkV3 0.3 0.05 (-0.2) :: rest)) session0 = session1.
Proof.
  unfold enumerate. cbn [length seq combine].
  rewrite collected_cons. cbn [fst snd sense0]. rewrite valid_seen.
  fold session1. apply collected_invalid.
  intros [i p] Hin. apply in_combine_l in Hin. apply in_seq in Hin.
  cbn [fst]. destruct i as [|i]; [lia|]. apply valid_unseen.
Qed.

Lemma session1_objective (z : R) : exists v, objective svd0 session1 z = Ok v.
Proof.
  destruct (@objective_value svd0 session1 z []) as (Rot & t & _ & H);
    try reflexivity.
  eexists. exact H.
Qed.

Lemma session0_run :
  exists rest,
    run svd0 minimize0 sense0 (mkState session0 [])
    = (Ok tt,
       mkState session1
         (startup_events
          ++ loop_events sense0 (tool_orientation session0) 0
               (enumerate (mkV3 0.3 0.05 (-0.2) :: rest))
          ++ [robot_go_home; optimize_minimize 1;
              np_savetxt "saved_data/camera_depth_scale.txt" (Scalar 1)]
          ++ saved_arrays eye4 session1)).
Proof.
  destruct session0_grid as [rest Hg]. exists rest.
  rewrite run_stages. cbn [self trace]. rewrite Hg. cbv zeta.
  rewrite session0_collected.
  unfold minimize0.
  destruct (session1_objective 1) as [v Hv]. rewrite Hv. cbn [rbind].
  rewrite Hv. cbn [app].
  rewrite <- !app_assoc. reflexivity.
Qed.

End ExampleFacts.

Lemma V4_ext (a b : V4) :
  wx a = wx b -> wy a = wy b -> wz a = wz b -> ww a = ww b -> a = b.
Proof. destruct a, b; cbn; intros; subst; reflexivity. Qed.

Lemma M44_ext (a b : M44) :
  h0 a = h0 b -> h1 a = h1 b -> h2 a = h2 b -> h3 a = h3 b -> a = b.
Proof. destruct a, b; cbn; intros; subst; reflexivity. Qed.

Ltac mat44_simpl :=
  cbv beta iota zeta delta
      [det44 cofactor minor ent skip mk44 concatenate_Rt eye4 eye3 dot44
       h0 h1 h2 h3 wx wy wz ww Nat.even Nat.add Nat.ltb Nat.leb
       vx vy vz vneg vdot vcross r0 r1 r2 linalg_det].

(** A translation is undone by the opposite translation. *)
Lemma det44_translation (t : V3) : det44 (concatenate_Rt eye3 t) = 1.
Proof. destruct t as [a b c]. mat44_simpl. ring. Qed.

Lemma linalg_inv_translation (t : V3) :
  linalg_inv (concatenate_Rt eye3 t) = Ok (concatenate_Rt eye3 (vneg t)).
Proof.
  unfold linalg_inv. rewrite det44_translation.
  destruct (Req_dec_T 1 0) as [E|_]; [exfalso; lra|].
  f_equal. destruct t as [a b c].
  apply M44_ext; apply V4_ext; mat44_simpl; field.
Qed.

Module ExampleFacts2.

Import Example.

Lemma session1_world2camera :
  world2camera_at svd0 session1 1
  = Ok (concatenate_Rt eye3 (mkV3 (-0.3) 0.08 1.18)).
Proof.
  unfold world2camera_at, _get_rigid_transform.
  assert (L : (length (measured_pts session1) =? length (new_observed session1 1))%nat = true)
    by reflexivity.
  rewrite L. cbn [negb svd0 rbind fst snd].
  assert (D : linalg_det (dot (T eye3) (T eye3)) = 1) by (mat_simpl; ring).
  destruct (Rlt_dec (linalg_det (dot (T eye3) (T eye3))) 0) as [Hneg|_];
    [exfalso; lra|].
  f_equal. f_equal.
  - apply M33_ext; apply V3_ext; mat_simpl; ring.
  - apply V3_ext;
      cbv [session1 keep session0 default_init init new_observed back_project
           observed_point seen K0 mean sum0 zip_with fold_right length
           measured_pts observed_pts observed_pix camera_intrinsics
           checkerboard_offset_from_tool checkerboard_pix checkerboard_z
           set_observed_pix set_measured_pts set_observed_pts app INR
           fst snd];
      mat_simpl; lra.
Qed.

Lemma session1_pose_not_identity :
  rbind (world2camera_at svd0 session1 1) linalg_inv <> Ok eye4.
Proof.
  rewrite session1_world2camera. cbn [rbind]. rewrite linalg_inv_translation.
  intros E. apply (f_equal (fun r => match r with Ok m => ww (h0 m) | Raise _ => 0 end)) in E.
  cbv [concatenate_Rt eye4 h0 ww vneg vx] in E. lra.
Qed.

End ExampleFacts2.

(** The adjugate formula does invert: [inv(M) M = I]. *)
Lemma linalg_inv_left (M N : M44) : linalg_inv M = Ok N -> dot44 N M = eye4.
Proof.
  unfold linalg_inv. destruct (Req_dec_T (det44 M) 0) as [|Hd]; [discriminate|].
  intros E. injection E as <-.
  destruct M as [[a b c d] [e f g h] [i j k l] [m n o p]].
  apply M44_ext; apply V4_ext; revert Hd; mat44_simpl; intros Hd; field; intros Hz; apply Hd; rewrite <- Hz; ring.
Qed.

Lemma objective_empty (svd : M33 -> M33 * V3 * M33) (c : Calibration) (z : R) :
  observed_pts c = [] -> objective svd c z = Raise IndexError.
Proof.
  intros E. unfold objective, _get_rigid_transform_error, bind, get_self, lift.
  cbn [self fst]. rewrite E. reflexivity.
Qed.

Section RunFacts.

Variable svd : M33 -> M33 * V3 * M33.
Variable minimize : (R -> result R) -> R -> result R.
Variable sense : nat -> observation.

(** Whenever [run] completes, the one camera pose it has written is the
    identity matrix. *)
Lemma run_saves_identity_pose (c : Calibration) (m : M44) :
  fst (run svd minimize sense (mkState c [])) = Ok tt ->
  In (np_savetxt "saved_data/camera_pose.txt" (Matrix44 m))
     (trace (snd (run svd minimize sense (mkState c []))))
  <-> m = eye4.
Proof.
  rewrite run_stages. cbn [self trace app].
  destruct (grid_of c) as [grid|e]; [|discriminate].
  cbv zeta.
  destruct (minimize _ 1) as [x|e]; [|discriminate].
  destruct (objective svd _ x) as [v|e]; [|discriminate].
  intros _. cbn [snd trace fst].
  rewrite !in_app_iff. split.
  - intros H.
    repeat match type of H with _ \/ _ => destruct H as [H|H] end.
    + unfold startup_events in H. cbn in H.
      repeat (destruct H as [H|H]; [discriminate|]). contradiction.
    + apply loop_events_kind in H.
      destruct H as [H | [[p H] | [f H]]]; discriminate.
    + cbn in H. repeat (destruct H as [H|H]; [discriminate|]). contradiction.
    + cbn in H. destruct H as [H|H]; [discriminate|]. contradiction.
    + cbn in H. destruct H as [H|H]; [congruence|].
      repeat (destruct H as [H|H]; [discriminate|]). contradiction.
  - intros ->. right. left. reflexivity.
Qed.

End RunFacts.

Lemma linalg_inv_eye4_only (W : M44) : linalg_inv W = Ok eye4 -> W = eye4.
Proof.
  intros H%linalg_inv_left. rewrite <- H.
  destruct W as [[a b c d] [e f g h] [i j k l] [m n o p]].
  apply M44_ext; apply V4_ext; mat44_simpl; ring.
Qed.

(** ** The grid under rounding *)

Section RoundedGrid.

Variable fl : R -> R.
Hypothesis Hfl : Rounded.rounding fl.

Lemma rounded_num_ge_1 (lim : R * R) (step : R) :
  fst lim < snd lim -> 0 < step -> 1 <= Rounded.num fl lim step.
Proof.
  intros Hlim Hs. destruct Hfl as (Hmono & H0 & H1).
  unfold Rounded.num.
  assert (Hd : 0 <= fl (snd lim - fst lim)) by (rewrite <- H0; apply Hmono; lra).
  assert (Hq : 0 <= fl (snd lim - fst lim) / step).
  { apply Rmult_le_pos; [exact Hd | apply Rlt_le, Rinv_0_lt_compat, Hs]. }
  assert (Hq' : 0 <= fl (fl (snd lim - fst lim) / step))
    by (rewrite <- H0; apply Hmono; exact Hq).
  rewrite <- H1 at 1. apply Hmono. lra.
Qed.

Lemma rounded_count_floor (lim : R * R) (step : R) :
  fst lim < snd lim -> 0 < step ->
  Z.of_nat (Rounded.count fl lim step) = Int_part (Rounded.num fl lim step)
  /\ (1 <= Rounded.count fl lim step)%nat.
Proof.
  intros Hlim Hs. pose proof (rounded_num_ge_1 lim Hlim Hs) as Hn.
  unfold Rounded.count. rewrite int_nonneg by lra.
  assert (H1 : (1 <= Int_part (Rounded.num fl lim step))%Z).
  { destruct (base_Int_part (Rounded.num fl lim step)) as [_ Hlow].
    assert (0 < IZR (Int_part (Rounded.num fl lim step))) by lra.
    apply lt_IZR in H. lia. }
  split; lia.
Qed.

Lemma rounded_gridspace_points (lim : R * R) (step : R) :
  fst lim < snd lim -> 0 < step ->
  Rounded.gridspace fl lim step
  = Ok (axis_points lim (Rounded.count fl lim step)).
Proof.
  intros Hlim Hs. pose proof (rounded_num_ge_1 lim Hlim Hs) as Hn.
  unfold Rounded.gridspace, Rounded.grid_num.
  destruct (Req_dec_T step 0) as [E|_]; [lra|]. cbn [rbind].
  fold (Rounded.num fl lim step).
  rewrite linspace_points by lra.
  unfold Rounded.count. rewrite int_nonneg by lra.
  destruct lim as [lo hi]. reflexivity.
Qed.

Lemma rounded_generate_grid_points (s : state) :
  let L := workspace_limits (self s) in
  let step := calib_grid_step (self s) in
  0 < step ->
  fst (lim_x L) < snd (lim_x L) ->
  fst (lim_y L) < snd (lim_y L) ->
  fst (lim_z L) < snd (lim_z L) ->
  Rounded._generate_grid fl s
  = (Ok (product_yxz (axis_points (lim_x L) (Rounded.count fl (lim_x L) step))
                     (axis_points (lim_y L) (Rounded.count fl (lim_y L) step))
                     (axis_points (lim_z L) (Rounded.count fl (lim_z L) step))),
     s).
Proof.
  cbv zeta. intros Hs Hx Hy Hz.
  unfold Rounded._generate_grid, bind, get_self, lift.
  rewrite !rounded_gridspace_points by assumption.
  pose proof (meshgrid_columns
                (axis_points (lim_x (workspace_limits (self s)))
                   (Rounded.count fl (lim_x (workspace_limits (self s)))
                      (calib_grid_step (self s))))
                (axis_points (lim_y (workspace_limits (self s)))
                   (Rounded.count fl (lim_y (workspace_limits (self s)))
                      (calib_grid_step (self s))))
                (axis_points (lim_z (workspace_limits (self s)))
                   (Rounded.count fl (lim_z (workspace_limits (self s)))
                      (calib_grid_step (self s)))))
    as HM.
  destruct (meshgrid _ _ _) as [[gx gy] gz]. rewrite HM. reflexivity.
Qed.

End RoundedGrid.

(** Without rounding the grid is the one of the session. *)
Lemma rounded_exact (s : state) :
  Rounded._generate_grid (fun x => x) s = _generate_grid s.
Proof. reflexivity. Qed.

Lemma rounding_exact : Rounded.rounding (fun x => x).
Proof. repeat split. intros x y H. exact H. Qed.


Section RunClaims.

Variable svd : M33 -> M33 * V3 * M33.
Variable minimize : (R -> result R) -> R -> result R.
Variable sense : nat -> observation.

(** C2 (as amended): the session makes no check on the number of samples.
    Whenever the grid is generated, [run] goes through it and then calls
    the optimiser on the N samples it holds, whatever N is, N being the
    number held at the start plus the number of passes that found the
    checkerboard at a non-zero depth; no call before that one depends on
    N.  With no sample at all the objective raises IndexError whenever it
    is evaluated. *)
Theorem run_invokes_optimizer (s : state) (grid : list V3) :
  fst (_generate_grid s) = Ok grid ->
  let c := collected sense (enumerate grid) (self s) in
  let N := length (measured_pts c) in
  N = (length (measured_pts (self s))
       + length (filter (fun it => valid (sense (fst it))) (enumerate grid)))%nat
  /\ (exists after,
        trace (snd (run svd minimize sense s))
        = trace s ++ startup_events
          ++ loop_events sense (tool_orientation (self s))
               (length (measured_pts (self s))) (enumerate grid)
          ++ [robot_go_home; optimize_minimize N] ++ after)
  /\ (observed_pts c = [] -> forall z, objective svd c z = Raise IndexError).
Proof.
  rewrite generate_grid_pure. cbn [fst]. intros Hg. cbv zeta.
  split; [apply length_measured_collected|].
  rewrite run_stages, Hg. cbv zeta.
  split.
  - destruct (minimize _ 1) as [x|e].
    + destruct (objective svd _ x) as [v|e]; cbn [snd trace];
        rewrite <- ?app_assoc; cbn [app]; eexists; reflexivity.
    + cbn [snd trace]. exists []. rewrite <- ?app_assoc. reflexivity.
  - intros E z. apply objective_empty. exact E.
Qed.

End RunClaims.

(** ** The claims on the concrete session *)

Module Concrete.

Import Example ExampleFacts ExampleFacts2.

Ltac points_compute :=
  cbv beta iota zeta delta
      [cross_covariance octahedron quarter_turn apply_rigid centred mean sum0
       sub tile repeat transpose dot_3N_N3 inner rsum zip_with map fold_right
       length INR row0 row1 row2 mscale diag eye3 vzero
       vx vy vz vadd vsub vneg vdiv vdot vcross dotv dot T col0 col1 col2
       r0 r1 r2 linalg_det].

Lemma octahedron_covariance :
  cross_covariance octahedron octahedron = mscale 2 eye3.
Proof. apply M33_ext; apply V3_ext; points_compute; field. Qed.

Lemma octahedron_covariance_turned :
  cross_covariance octahedron (map (apply_rigid quarter_turn (mkV3 1 2 3)) octahedron)
  = mscale 2 (T quarter_turn).
Proof. apply M33_ext; apply V3_ext; points_compute; field. Qed.

Lemma half_of_double (m : M33) : mscale (1 / 2) (mscale 2 m) = m.
Proof. apply M33_ext; apply V3_ext; mat_destruct; mat_simpl; field. Qed.

Lemma proper_quarter_turn : proper_rotation quarter_turn.
Proof.
  split.
  - unfold orthogonal. apply M33_ext; apply V3_ext; unfold quarter_turn; mat_simpl; ring.
  - unfold quarter_turn; mat_simpl; ring.
Qed.

Lemma svd_octahedron_ok (m : M33) :
  orthogonal m -> is_svd (mscale 2 m) (svd_octahedron (mscale 2 m)).
Proof.
  intros Hm. unfold is_svd, svd_octahedron. rewrite half_of_double.
  split; [apply proper_rotation_eye3|]. split; [exact Hm|].
  cbn [vx vy vz]. repeat (split; [lra|]).
  apply M33_ext; apply V3_ext; mat_destruct; mat_simpl; ring.
Qed.

Lemma octahedron_noncollinear : noncollinear octahedron.
Proof.
  exists (mkV3 1 0 0), (mkV3 0 1 0), (mkV3 0 0 1).
  unfold octahedron. cbn [In].
  split; [tauto|]. split; [tauto|]. split; [tauto|].
  intros E. apply (f_equal vx) in E. revert E. mat_simpl. lra.
Qed.


Lemma mean_shifted_octahedron :
  mean (map (fun a => vadd a (mkV3 1 2 3)) octahedron) = mkV3 1 2 3.
Proof.
  unfold octahedron.
  cbv [map mean sum0 fold_right length INR vadd vdiv vzero vx vy vz].
  apply V3_ext; cbn [vx vy vz]; field.
Qed.

(** Witness of C10 (as amended): the octahedron moved to the centroid
    (1, 2, 3), against its image under a quarter turn and a shift. *)
Lemma centroid_mapped_witness :
  let A := map (fun a => vadd a (mkV3 1 2 3)) octahedron in
  let B := map (apply_rigid quarter_turn (mkV3 0 0 1)) A in
  length A = length B
  /\ (1 <= length A)%nat
  /\ mean A = mkV3 1 2 3
  /\ exists Rot t,
      _get_rigid_transform svd_octahedron A B = Ok (Rot, t)
      /\ t = vadd (dotv (neg Rot) (mean A)) (mean B)
      /\ vadd (dotv Rot (mean A)) t = mean B.
Proof.
  cbv zeta.
  assert (HL : length (map (fun a => vadd a (mkV3 1 2 3)) octahedron)
               = length (map (apply_rigid quarter_turn (mkV3 0 0 1))
                           (map (fun a => vadd a (mkV3 1 2 3)) octahedron)))
    by (rewrite !length_map; reflexivity).
  assert (HN : (1 <= length (map (fun a => vadd a (mkV3 1 2 3)) octahedron))%nat)
    by (rewrite length_map; unfold octahedron; cbn [length]; lia).
  split; [exact HL|]. split; [exact HN|].
  split; [exact mean_shifted_octahedron|].
  apply (@centroid_mapped svd_octahedron _ _ HL HN).
Defined.

(** Witness of C4 on the octahedron, whose cross-covariance with itself
    is twice the identity. *)
Lemma estimated_rotation_is_proper_witness :
  orthogonal eye3
  /\ orthogonal (mscale (1 / 2) (cross_covariance octahedron octahedron))
  /\ exists Rot t,
      _get_rigid_transform svd_octahedron octahedron octahedron = Ok (Rot, t)
      /\ linalg_det Rot = 1 /\ orthogonal Rot.
Proof.
  assert (HV : orthogonal (mscale (1 / 2) (cross_covariance octahedron octahedron))).
  { rewrite octahedron_covariance, half_of_double. apply proper_rotation_eye3. }
  split; [apply proper_rotation_eye3|]. split; [exact HV|].
  apply (@estimated_rotation_is_proper svd_octahedron octahedron octahedron
           eye3 (mkV3 2 2 2) (mscale (1 / 2) (cross_covariance octahedron octahedron))).
  - reflexivity.
  - reflexivity.
  - apply proper_rotation_eye3.
  - exact HV.
Defined.

(** Witness of C5: the octahedron moved by a quarter turn and a shift. *)
Lemma estimate_recovers_rigid_motion_witness :
  (3 <= length octahedron)%nat
  /\ noncollinear octahedron
  /\ proper_rotation quarter_turn
  /\ _get_rigid_transform svd_octahedron octahedron
       (map (apply_rigid quarter_turn (mkV3 1 2 3)) octahedron)
     = Ok (quarter_turn, mkV3 1 2 3)
  /\ _get_rigid_transform svd_octahedron octahedron octahedron = Ok (eye3, vzero).
Proof.
  assert (HN : (3 <= length octahedron)%nat) by (unfold octahedron; cbn [length]; lia).
  destruct (@estimate_recovers_rigid_motion svd_octahedron octahedron HN
              octahedron_noncollinear) as [Hmove Hid].
  split; [exact HN|]. split; [exact octahedron_noncollinear|].
  split; [exact proper_quarter_turn|]. split.
  - apply Hmove; [exact proper_quarter_turn|].
    rewrite octahedron_covariance_turned. apply svd_octahedron_ok.
    apply orthogonal_T. apply proper_quarter_turn.
  - apply Hid. rewrite octahedron_covariance. apply svd_octahedron_ok.
    apply proper_rotation_eye3.
Defined.

(** Witness of C7 on a session of three samples. *)
Lemma objective_is_rmse_witness :
  (3 <= length (measured_pts session3))%nat
  /\ vx (r0 (camera_intrinsics session3)) <> 0
  /\ vy (r1 (camera_intrinsics session3)) <> 0
  /\ exists Rot t rmse,
      _get_rigid_transform svd0 (measured_pts session3) (new_observed session3 1)
      = Ok (Rot, t)
      /\ rmse = sqrt (sum_residual_sq Rot t (measured_pts session3)
                                      (new_observed session3 1)
                      / INR (length (measured_pts session3)))
      /\ _get_rigid_transform_error svd0 1 (mkState session3 [])
         = (Ok rmse, mkState session3 [])
      /\ 0 <= rmse.
Proof.
  assert (HN : (3 <= length (measured_pts session3))%nat)
    by (change (3 <= 3)%nat; lia).
  assert (Hfx : vx (r0 (camera_intrinsics session3)) <> 0)
    by (change (600 <> 0); lra).
  assert (Hfy : vy (r1 (camera_intrinsics session3)) <> 0)
    by (change (600 <> 0); lra).
  split; [exact HN|]. split; [exact Hfx|]. split; [exact Hfy|].
  apply (@objective_is_rmse svd0 session3 1 [] HN); try assumption; reflexivity.
Defined.

(** Witness of C8: two passes from the empty session, then a third. *)
Lemma collect_keeps_alignment_witness :
  aligned session0
  /\ aligned (self (snd (for_each items0 (collect_step sense0) (mkState session0 [])))).
Proof.
  assert (H0 : aligned session0) by (split; reflexivity).
  split; [exact H0|].
  apply (@collect_keeps_alignment sense0 items0 2 (mkV3 0.356 0.05 (-0.2))
           (mkState session0 []) H0).
Defined.

(** Witness of C6: two passes from the empty session, then a third. *)
Lemma collect_filters_samples_witness :
  depths_nonzero session0
  /\ depths_nonzero
       (self (snd (for_each items0 (collect_step sense0) (mkState session0 [])))).
Proof.
  assert (H0 : depths_nonzero session0) by (apply Forall_nil).
  split; [exact H0|].
  apply (@collect_filters_samples sense0 items0 2 (mkV3 0.356 0.05 (-0.2))
           (mkState session0 []) H0).
Defined.

Lemma session0_limits :
  0 < calib_grid_step session0
  /\ fst (lim_x (workspace_limits session0)) < snd (lim_x (workspace_limits session0))
  /\ fst (lim_y (workspace_limits session0)) < snd (lim_y (workspace_limits session0))
  /\ fst (lim_z (workspace_limits session0)) < snd (lim_z (workspace_limits session0)).
Proof.
  unfold session0, default_init, init.
  cbn [calib_grid_step workspace_limits lim_x lim_y lim_z fst snd].
  repeat split; lra.
Qed.


Lemma session0_grid_of :
  fst (_generate_grid (mkState session0 []))
  = Ok (product_yxz
          (axis_points (0.3, 0.748) (axis_count (0.3, 0.748) 0.05))
          (axis_points (0.05, 0.4) (axis_count (0.05, 0.4) 0.05))
          (axis_points (-0.2, -0.1) (axis_count (-0.2, -0.1) 0.05))).
Proof.
  destruct session0_limits as (Hs & Hx & Hy & Hz).
  pose proof (@generate_grid_points (mkState session0 [])) as HG. cbv zeta in HG.
  rewrite HG by assumption. reflexivity.
Qed.

(** Witness of C2 (as amended) on the default workspace. *)
Lemma run_invokes_optimizer_witness :
  fst (_generate_grid (mkState session0 []))
  = Ok (product_yxz
          (axis_points (0.3, 0.748) (axis_count (0.3, 0.748) 0.05))
          (axis_points (0.05, 0.4) (axis_count (0.05, 0.4) 0.05))
          (axis_points (-0.2, -0.1) (axis_count (-0.2, -0.1) 0.05)))
  /\ exists N before after,
      trace (snd (run svd0 minimize0 sense0 (mkState session0 [])))
      = before ++ [robot_go_home; optimize_minimize N] ++ after.
Proof.
  split; [exact session0_grid_of|].
  destruct (@run_invokes_optimizer svd0 minimize0 sense0 (mkState session0 []) _
              session0_grid_of) as (_ & [after Htr] & _).
  cbv zeta in Htr. rewrite Htr. cbn [trace app]. rewrite app_assoc.
  do 3 eexists. reflexivity.
Defined.



(** Counterexample to C2 as stated: with the checkerboard seen in the
    first image only, one sample is collected, and the optimiser is
    called on that single sample: no error has stopped the session before
    the call. *)
Lemma optimizer_runs_on_one_sample :
  let final := run svd0 minimize0 sense0 (mkState session0 []) in
  length (measured_pts (self (snd final))) = 1%nat
  /\ (1 < 3)%nat
  /\ In (optimize_minimize 1) (trace (snd final)).
Proof.
  cbv zeta. destruct session0_run as [rest ->]. cbn [fst snd self trace].
  split; [reflexivity|]. split; [lia|].
  rewrite !in_app_iff. right. right. left. cbn. tauto.
Qed.

(** C1 on the concrete session: the session completes, the optimal depth
    scale saved is 1, the camera pose saved is the identity matrix and no
    other, while the inverse of the world-to-camera transform estimated at
    that depth scale is not the identity. *)
Theorem camera_pose_ignores_estimate :
  let final := run svd0 minimize0 sense0 (mkState session0 []) in
  fst final = Ok tt
  /\ self (snd final) = session1
  /\ In (np_savetxt "saved_data/camera_depth_scale.txt" (Scalar 1)) (trace (snd final))
  /\ (forall m, In (np_savetxt "saved_data/camera_pose.txt" (Matrix44 m))
                   (trace (snd final)) <-> m = eye4)
  /\ world2camera_at svd0 session1 1
     = Ok (concatenate_Rt eye3 (mkV3 (-0.3) 0.08 1.18))
  /\ rbind (world2camera_at svd0 session1 1) linalg_inv
     = Ok (concatenate_Rt eye3 (mkV3 0.3 (-0.08) (-1.18)))
  /\ rbind (world2camera_at svd0 session1 1) linalg_inv <> Ok eye4.
Proof.
  cbv zeta.
  assert (Hrun : fst (run svd0 minimize0 sense0 (mkState session0 [])) = Ok tt)
    by (destruct session0_run as [rest ->]; reflexivity).
  split; [exact Hrun|].
  split; [destruct session0_run as [rest ->]; reflexivity|].
  split.
  { destruct session0_run as [rest ->]. cbn [snd trace].
    rewrite !in_app_iff. right. right. left. cbn. tauto. }
  split; [intros m; apply run_saves_identity_pose; exact Hrun|].
  split; [exact session1_world2camera|].
  split; [|exact session1_pose_not_identity].
  rewrite session1_world2camera. cbn [rbind]. rewrite linalg_inv_translation.
  f_equal. f_equal.
  apply V3_ext; cbn [vneg vx vy vz]; lra.
Qed.

End Concrete.


(** * Further properties of the estimator and of the objective *)

Lemma map_shift_rigid (u : V3) (A : list V3) :
  map (fun a => vadd a u) A = map (apply_rigid eye3 u) A.
Proof. apply map_ext. intros a. mat_eq. Qed.

Lemma mean_shift (u : V3) (A : list V3) :
  (1 <= length A)%nat -> mean (map (fun a => vadd a u) A) = vadd (mean A) u.
Proof.
  intros HN. rewrite map_shift_rigid, mean_rigid by assumption.
  generalize (mean A); intros m. mat_eq.
Qed.

Lemma centred_shift (u : V3) (A : list V3) :
  (1 <= length A)%nat -> centred (map (fun a => vadd a u) A) = centred A.
Proof.
  intros HN. rewrite map_shift_rigid, centred_rigid by assumption.
  rewrite <- (map_id (centred A)) at 2. apply map_ext. intros a. mat_eq.
Qed.

Section EstimatorMore.

Variable svd : M33 -> M33 * V3 * M33.

(** The estimator, with the centred point sets named. *)
Lemma get_rigid_transform_centred (A B : list V3) :
length A = length B ->
_get_rigid_transform svd A B
= let '(U, _, Vt) := svd (dot_3N_N3 (transpose (centred A)) (centred B)) in
  let Rot := if Rlt_dec (linalg_det (dot (T Vt) (T U))) 0
             then dot (T (negate_row2 Vt)) (T U)
             else dot (T Vt) (T U) in
  Ok (Rot, vadd (dotv (neg Rot) (mean A)) (mean B)).
Proof.
intros HL. unfold _get_rigid_transform.
rewrite HL, Nat.eqb_refl. cbn [negb].
rewrite <- HL at 1. rewrite !sub_tile_centred.
destruct (svd _) as [[U Sv] Vt]. reflexivity.
Qed.

Lemma get_rigid_transform_mismatch (A B : list V3) :
length A <> length B -> _get_rigid_transform svd A B = Raise AssertionError.
Proof.
intros HL. unfold _get_rigid_transform.
destruct (Nat.eqb_spec (length A) (length B)); [contradiction|reflexivity].
Qed.

(** X2: moving either point set as a whole, A by u and B by v, leaves the
  estimated rotation as it is and turns the translation t into
  t - R u + v. *)
Theorem estimator_translation_invariant (A B : list V3) (u v : V3) (Rot : M33) (t : V3) :
length A = length B -> (1 <= length A)%nat ->
_get_rigid_transform svd A B = Ok (Rot, t) ->
_get_rigid_transform svd (map (fun a => vadd a u) A) (map (fun b => vadd b v) B)
= Ok (Rot, vadd (vsub t (dotv Rot u)) v).
Proof.
intros HL HN HR.
rewrite get_rigid_transform_centred in HR by assumption.
rewrite get_rigid_transform_centred by (rewrite !length_map; assumption).
rewrite !centred_shift by lia. rewrite !mean_shift by lia.
destruct (svd _) as [[U Sv] Vt]. cbv zeta in *.
set (Rc := if Rlt_dec _ 0 then _ else _) in *.
injection HR as <- <-. clearbody Rc.
f_equal. f_equal.
generalize (mean A) (mean B); intros a b. clear. mat_eq.
Qed.

End EstimatorMore.

Lemma residual_sq_nonneg (Rot : M33) (t m b : V3) : 0 <= residual_sq Rot t m b.
Proof. unfold residual_sq. cbv zeta. nra. Qed.

Lemma residual_sq_zero (Rot : M33) (t m b : V3) :
  residual_sq Rot t m b = 0 <-> apply_rigid Rot t m = b.
Proof.
  unfold residual_sq, apply_rigid. cbv zeta.
  set (p := vadd (dotv Rot m) t). clearbody p. split.
  - intros H. destruct p as [px py pz], b as [bx by_ bz].
    cbn [vsub vx vy vz] in H.
    pose proof (Rle_0_sqr (px - bx)) as Sx.
    pose proof (Rle_0_sqr (py - by_)) as Sy.
    pose proof (Rle_0_sqr (pz - bz)) as Sz.
    unfold Rsqr in Sx, Sy, Sz.
    assert (Zx : (px - bx) * (px - bx) = 0) by lra.
    assert (Zy : (py - by_) * (py - by_) = 0) by lra.
    assert (Zz : (pz - bz) * (pz - bz) = 0) by lra.
    apply Rsqr_0_uniq in Zx, Zy, Zz.
    f_equal; lra.
  - intros <-. destruct p as [px py pz]. cbn [vsub vx vy vz]. ring.
Qed.

Lemma sum_residual_sq_nonneg (Rot : M33) (t : V3) (ms bs : list V3) :
  0 <= sum_residual_sq Rot t ms bs.
Proof.
  unfold sum_residual_sq. revert bs.
  induction ms as [|m ms IH]; intros [|b bs]; cbn; try lra.
  change (fold_right Rplus 0 ?l) with (rsum l).
  pose proof (residual_sq_nonneg Rot t m b). pose proof (IH bs). lra.
Qed.

Lemma sum_residual_sq_zero (Rot : M33) (t : V3) (ms bs : list V3) :
  length ms = length bs ->
  (sum_residual_sq Rot t ms bs = 0
   <-> Forall2 (fun m b => apply_rigid Rot t m = b) ms bs).
Proof.
  unfold sum_residual_sq. revert bs.
  induction ms as [|m ms IH]; intros [|b bs] HL; cbn in HL |- *; try discriminate.
  - split; [constructor | reflexivity].
  - change (fold_right Rplus 0 ?l) with (rsum l).
    pose proof (residual_sq_nonneg Rot t m b) as H1.
    pose proof (sum_residual_sq_nonneg Rot t ms bs) as H2. unfold sum_residual_sq in H2.
    split.
    + intros H. constructor.
      * apply residual_sq_zero. lra.
      * apply IH; [congruence | lra].
    + intros H. apply Forall2_cons_iff in H. destruct H as [Hm Hrest].
      apply residual_sq_zero in Hm. apply IH in Hrest; [|congruence]. lra.
Qed.

Lemma rmse_zero_iff (total n : R) :
  0 <= total -> 0 < n -> (sqrt (total / n) = 0 <-> total = 0).
Proof.
  intros Ht Hn.
  assert (Hq : 0 <= total / n)
    by (apply Rmult_le_pos; [lra | apply Rlt_le, Rinv_0_lt_compat; lra]).
  split.
  - intros E. apply sqrt_eq_0 in E; [|exact Hq].
    apply (Rmult_eq_compat_r n) in E. unfold Rdiv in E.
    rewrite Rmult_assoc, Rinv_l, Rmult_1_r, Rmult_0_l in E by lra. exact E.
  - intros ->. unfold Rdiv. rewrite Rmult_0_l, sqrt_0. reflexivity.
Qed.

Section ObjectiveMore.

Variable svd : M33 -> M33 * V3 * M33.


(** X4: the objective is zero exactly when the fitted transform carries
  every measured point onto its back-projected observation. *)
Theorem objective_zero_iff_exact (c : Calibration) (z_scale : R) (tr : list event)
      (Rot : M33) (t : V3) :
(1 <= length (measured_pts c))%nat ->
length (observed_pts c) = length (measured_pts c) ->
length (observed_pix c) = length (measured_pts c) ->
_get_rigid_transform svd (measured_pts c) (new_observed c z_scale) = Ok (Rot, t) ->
(fst (_get_rigid_transform_error svd z_scale (mkState c tr)) = Ok 0
 <-> Forall2 (fun m b => apply_rigid Rot t m = b)
             (measured_pts c) (new_observed c z_scale)).
Proof.
intros HN Hpts Hpix HRt.
destruct (@objective_value svd c z_scale tr HN Hpts Hpix) as (Rot' & t' & HRt' & Hval).
rewrite HRt in HRt'. injection HRt' as <- <-.
rewrite Hval.
assert (HL : length (measured_pts c) = length (new_observed c z_scale))
  by (rewrite length_new_observed; congruence).
rewrite <- (sum_residual_sq_zero Rot t _ _ HL).
pose proof (sum_residual_sq_nonneg Rot t (measured_pts c) (new_observed c z_scale)) as Hs.
assert (Hn : 0 < INR (length (measured_pts c))) by (apply lt_0_INR; lia).
split.
- intros E. injection E as E. apply rmse_zero_iff in E; assumption.
- intros E. f_equal. apply rmse_zero_iff; assumption.
Qed.

End ObjectiveMore.

(** * Further properties of the collecting loop *)

Import Trace.

Lemma keep_fields (c : Calibration) (p : V3) (o : observation) :
  measured_pts (keep c p o)
  = measured_pts c ++ [vadd p (checkerboard_offset_from_tool c)]
  /\ observed_pts (keep c p o)
     = observed_pts c ++ [observed_point (camera_intrinsics c) o]
  /\ observed_pix (keep c p o) = observed_pix c ++ [checkerboard_pix o]
  /\ calib_grid_step (keep c p o) = calib_grid_step c
  /\ checkerboard_offset_from_tool (keep c p o) = checkerboard_offset_from_tool c
  /\ tool_orientation (keep c p o) = tool_orientation c
  /\ workspace_limits (keep c p o) = workspace_limits c
  /\ camera_intrinsics (keep c p o) = camera_intrinsics c.
Proof. repeat split. Qed.

Lemma collected_fields (sense : nat -> observation) (items : list (nat * V3))
      (c : Calibration) :
  let c' := collected sense items c in
  measured_pts c'
  = measured_pts c
    ++ map (fun it => vadd (snd it) (checkerboard_offset_from_tool c))
           (kept sense items)
  /\ observed_pts c'
     = observed_pts c
       ++ map (fun it => observed_point (camera_intrinsics c) (sense (fst it)))
              (kept sense items)
  /\ observed_pix c'
     = observed_pix c
       ++ map (fun it => checkerboard_pix (sense (fst it))) (kept sense items)
  /\ calib_grid_step c' = calib_grid_step c
  /\ checkerboard_offset_from_tool c' = checkerboard_offset_from_tool c
  /\ tool_orientation c' = tool_orientation c
  /\ workspace_limits c' = workspace_limits c
  /\ camera_intrinsics c' = camera_intrinsics c.
Proof.
  revert c. induction items as [|it items IH]; intros c; cbv zeta.
  - cbn. rewrite !app_nil_r. repeat split.
  - rewrite collected_cons. unfold kept. cbn [filter]. fold (kept sense items).
    destruct (valid (sense (fst it))) eqn:Ev.
    + destruct (IH (keep c (snd it) (sense (fst it))))
        as (Hm & Ho & Hp & Hs & Hf & Ht & Hw & Hk).
      destruct (keep_fields c (snd it) (sense (fst it)))
        as (Km & Ko & Kp & Ks & Kf & Kt & Kw & Kk).
      rewrite Hm, Ho, Hp, Hs, Hf, Ht, Hw, Hk.
      rewrite Km, Ko, Kp, Ks, Kf, Kt, Kw, Kk.
      cbn [map]. rewrite <- !app_assoc. cbn [app]. repeat split.
    + apply IH.
Qed.

Lemma moves_app (a b : list event) : moves (a ++ b) = moves a ++ moves b.
Proof. unfold moves. apply flat_map_app. Qed.

Lemma captures_app (a b : list event) : captures (a ++ b) = (captures a + captures b)%nat.
Proof. unfold captures. rewrite filter_app, length_app. reflexivity. Qed.

Lemma saved_files_app (a b : list event) :
  saved_files (a ++ b) = saved_files a ++ saved_files b.
Proof. unfold saved_files. apply flat_map_app. Qed.

Lemma image_files_app (a b : list event) :
  image_files (a ++ b) = image_files a ++ image_files b.
Proof. unfold image_files. apply flat_map_app. Qed.

Lemma moves_loop_events (sense : nat -> observation) (o : V3) (n : nat)
      (items : list (nat * V3)) :
  moves (loop_events sense o n items) = map (fun it => (snd it, o)) items.
Proof.
  revert n. induction items as [|it items IH]; intros n; [reflexivity|].
  cbn [loop_events map]. unfold moves in *. cbn [flat_map app]. f_equal.
  destruct (valid (sense (fst it))); cbn [flat_map app]; apply IH.
Qed.

Lemma captures_loop_events (sense : nat -> observation) (o : V3) (n : nat)
      (items : list (nat * V3)) :
  captures (loop_events sense o n items) = length items.
Proof.
  revert n. induction items as [|it items IH]; intros n; [reflexivity|].
  cbn [loop_events length]. unfold captures in *. cbn [filter length]. f_equal.
  destruct (valid (sense (fst it))); cbn [filter]; apply IH.
Qed.

Lemma saved_files_loop_events (sense : nat -> observation) (o : V3) (n : nat)
      (items : list (nat * V3)) :
  saved_files (loop_events sense o n items) = [].
Proof.
  revert n. induction items as [|it items IH]; intros n; [reflexivity|].
  cbn [loop_events]. unfold saved_files in *. cbn [flat_map app].
  destruct (valid (sense (fst it))); cbn [flat_map app]; apply IH.
Qed.

Lemma image_files_loop_events (sense : nat -> observation) (o : V3) (n : nat)
      (items : list (nat * V3)) :
  image_files (loop_events sense o n items)
  = map png_name (seq (S n) (length (kept sense items))).
Proof.
  revert n. induction items as [|it items IH]; intros n; [reflexivity|].
  cbn [loop_events]. unfold kept. cbn [filter]. fold (kept sense items).
  unfold image_files in *. cbn [flat_map app].
  destruct (valid (sense (fst it))); cbn [flat_map app length seq map].
  - f_equal. apply IH.
  - apply IH.
Qed.

Lemma length_enumerate (grid : list V3) : length (enumerate grid) = length grid.
Proof. unfold enumerate. rewrite length_combine, length_seq. lia. Qed.

Lemma map_snd_enumerate (grid : list V3) : map snd (enumerate grid) = grid.
Proof.
  unfold enumerate. generalize 0%nat.
  induction grid as [|p grid IH]; intros n; [reflexivity|].
  cbn [length seq combine map snd]. rewrite IH. reflexivity.
Qed.

Lemma back_project_scale (K : M33) (k : R) (pix : Z * Z) (depth : R) :
  back_project K k pix depth = vscale k (back_project K 1 pix depth).
Proof.
  unfold back_project, vscale. cbv zeta. cbn [vx vy vz].
  apply V3_ext; cbn [vx vy vz]; unfold Rdiv; ring.
Qed.

Lemma back_project_observed_point (K : M33) (o : observation) :
  back_project K 1 (checkerboard_pix o) (checkerboard_z o) = observed_point K o.
Proof.
  unfold back_project, observed_point. cbv zeta.
  apply V3_ext; cbn [vx vy vz]; unfold Rdiv; ring.
Qed.

Lemma zip_with_app {A B C : Type} (f : A -> B -> C) (l1 l2 : list A) (m1 m2 : list B) :
  length l1 = length m1 ->
  zip_with f (l1 ++ l2) (m1 ++ m2) = zip_with f l1 m1 ++ zip_with f l2 m2.
Proof.
  revert m1. induction l1 as [|a l1 IH]; intros [|b m1] HL; try discriminate.
  - reflexivity.
  - cbn. rewrite IH by (cbn in HL; lia). reflexivity.
Qed.

Lemma new_observed_collected (sense : nat -> observation) (items : list (nat * V3))
      (c : Calibration) (k : R) :
  length (observed_pix c) = length (observed_pts c) ->
  new_observed (collected sense items c) k
  = new_observed c k
    ++ map (fun it => vscale k (observed_point (camera_intrinsics c) (sense (fst it))))
           (kept sense items).
Proof.
  intros HL.
  destruct (collected_fields sense items c) as (_ & Ho & Hp & _ & _ & _ & _ & Hk).
  unfold new_observed. rewrite Ho, Hp, Hk.
  rewrite zip_with_app by exact HL. f_equal. clear Ho Hp Hk.
  induction (kept sense items) as [|it l IH]; [reflexivity|].
  cbn [map zip_with]. rewrite IH. f_equal.
  rewrite back_project_scale. f_equal.
  unfold observed_point at 1. cbn [vz]. apply back_project_observed_point.
Qed.

Lemma new_observed_fresh (sense : nat -> observation) (items : list (nat * V3))
      (c : Calibration) (k : R) :
  observed_pts c = [] -> observed_pix c = [] ->
  new_observed (collected sense items c) k
  = map (vscale k) (observed_pts (collected sense items c)).
Proof.
  intros Ho0 Hp0.
  rewrite new_observed_collected by (rewrite Ho0, Hp0; reflexivity).
  destruct (collected_fields sense items c) as (_ & Ho & _).
  rewrite Ho. unfold new_observed. rewrite Ho0, Hp0. cbn [zip_with app].
  rewrite map_map. reflexivity.
Qed.

Lemma vscale_one (p : V3) : vscale 1 p = p.
Proof. unfold vscale. apply V3_ext; cbn [vx vy vz]; ring. Qed.

Section CollectingMore.

Variable sense : nat -> observation.

(** X6: the collecting loop never raises; it appends to the three sequences
  one sample for each pass whose observation is valid, in grid order: the
  tool position moved by the checkerboard offset, the point computed from
  the pixel and the depth, and the pixel; it leaves every configuration
  attribute as it was. *)
Theorem collect_records_valid_passes (grid : list V3) (s : state) :
let c := self s in
let c' := self (snd (collect sense grid s)) in
let passes := kept sense (enumerate grid) in
fst (collect sense grid s) = Ok tt
/\ measured_pts c'
   = measured_pts c
     ++ map (fun it => vadd (snd it) (checkerboard_offset_from_tool c)) passes
/\ observed_pts c'
   = observed_pts c
     ++ map (fun it => observed_point (camera_intrinsics c) (sense (fst it))) passes
/\ observed_pix c'
   = observed_pix c ++ map (fun it => checkerboard_pix (sense (fst it))) passes
/\ calib_grid_step c' = calib_grid_step c
/\ checkerboard_offset_from_tool c' = checkerboard_offset_from_tool c
/\ tool_orientation c' = tool_orientation c
/\ workspace_limits c' = workspace_limits c
/\ camera_intrinsics c' = camera_intrinsics c.
Proof.
cbv zeta. unfold collect. fold (enumerate grid).
rewrite for_each_collect_spec. cbn [fst snd self].
split; [reflexivity|]. apply collected_fields.
Qed.

(** X7: the path of the robot through the loop does not depend on what the
  camera sees: the poses commanded are the grid points in order, each
  with the tool orientation, and one image bundle is taken per grid
  point.  The loop writes nothing with np.savetxt; it writes one image
  file for each sample it keeps, named by the number of samples then held
  in six digits. *)
Theorem collect_path_is_grid (grid : list V3) (s : state) :
let tr' := trace (snd (collect sense grid s)) in
let n := length (measured_pts (self s)) in
moves tr' = moves (trace s) ++ map (fun p => (p, tool_orientation (self s))) grid
/\ captures tr' = (captures (trace s) + length grid)%nat
/\ saved_files tr' = saved_files (trace s)
/\ image_files tr'
   = image_files (trace s)
     ++ map png_name (seq (S n) (length (kept sense (enumerate grid))))
/\ forall sense', moves (trace (snd (collect sense' grid s))) = moves tr'.
Proof.
cbv zeta. unfold collect. fold (enumerate grid).
rewrite for_each_collect_spec. cbn [snd trace].
rewrite moves_app, captures_app, saved_files_app, image_files_app.
rewrite moves_loop_events, captures_loop_events, saved_files_loop_events,
  image_files_loop_events.
rewrite length_enumerate, app_nil_r.
repeat split.
- f_equal. rewrite <- (map_snd_enumerate grid) at 2. rewrite map_map. reflexivity.
- intros sense'. rewrite for_each_collect_spec. cbn [snd trace].
  rewrite moves_app, moves_loop_events. reflexivity.
Qed.

(** X8: in a session that starts with no samples, the loop records each
  observed point as the back-projection of its pixel at depth scale 1, so
  the back-projection at scale k that the objective forms is the recorded
  point scaled by k about the camera centre, in all three coordinates. *)
Theorem collect_records_unit_scale (grid : list V3) (s : state) (k : R) :
observed_pts (self s) = [] ->
observed_pix (self s) = [] ->
let c' := self (snd (collect sense grid s)) in
new_observed c' 1 = observed_pts c'
/\ new_observed c' k = map (vscale k) (observed_pts c').
Proof.
intros Ho0 Hp0. cbv zeta. unfold collect. fold (enumerate grid).
rewrite for_each_collect_spec. cbn [snd self].
rewrite !new_observed_fresh by assumption. split; [|reflexivity].
rewrite <- (map_id (observed_pts _)) at 2.
apply map_ext. intros p. apply vscale_one.
Qed.

End CollectingMore.

(** * Further properties of the grid *)

Lemma Int_part_unit (x : R) : 0 <= x < 1 -> Int_part x = 0%Z.
Proof. intros H. symmetry. apply Int_part_spec. cbn. lra. Qed.

Lemma Int_part_ge_one (x : R) : 1 <= x -> (1 <= Int_part x)%Z.
Proof.
  intros H. destruct (base_Int_part x) as [_ Hlow].
  assert (0 < IZR (Int_part x)) by lra.
  apply lt_IZR in H0. lia.
Qed.

(** [np.linspace] on a negative [num]: an error from -1 downwards, no
    point at all above it. *)
Lemma linspace_negative (lo hi num : R) :
  num < 0 ->
  linspace lo hi num = (if Rle_dec num (-1) then Raise ValueError else Ok []).
Proof.
  intros Hneg. unfold linspace, int.
  destruct (Rle_dec 0 num) as [|_]; [lra|].
  destruct (Rle_dec num (-1)) as [Hle | Hgt].
  - assert (H : (1 <= Int_part (- num))%Z) by (apply Int_part_ge_one; lra).
    destruct (Z.ltb_spec (- Int_part (- num)) 0) as [_|]; [reflexivity|lia].
  - rewrite (@Int_part_unit (- num)) by lra. reflexivity.
Qed.

Lemma axis_point_between (lim : R * R) (n i : nat) :
  fst lim <= snd lim -> (2 <= n)%nat -> (i < n)%nat ->
  Trace.between lim (axis_point lim n i).
Proof.
  intros Hlim Hn Hi. unfold Trace.between, axis_point.
  assert (Hd : 0 < INR (n - 1)) by (apply lt_0_INR; lia).
  assert (Hi' : 0 <= INR i <= INR (n - 1)).
  { split; [apply pos_INR | apply le_INR; lia]. }
  set (d := INR (n - 1)) in *. set (k := INR i) in *. clearbody d k.
  assert (E : k * ((snd lim - fst lim) / d) = (k / d) * (snd lim - fst lim))
    by (field; lra).
  rewrite E.
  assert (Hq : 0 <= k / d <= 1).
  { split.
    - apply Rmult_le_pos; [lra | apply Rlt_le, Rinv_0_lt_compat; lra].
    - apply (Rmult_le_reg_r d); [lra|]. unfold Rdiv.
      rewrite Rmult_assoc, Rinv_l by lra. lra. }
  set (q := k / d) in *. clearbody q. nra.
Qed.

Lemma axis_points_between (lim : R * R) (n : nat) :
  fst lim <= snd lim -> Forall (Trace.between lim) (axis_points lim n).
Proof.
  intros Hlim. unfold axis_points.
  destruct (Nat.ltb_spec 1 n) as [Hn | Hn].
  - apply Forall_forall. intros x Hx. apply in_map_iff in Hx.
    destruct Hx as (i & <- & Hi). apply in_seq in Hi.
    apply axis_point_between; [assumption | lia | lia].
  - apply Forall_forall. intros x Hx. apply repeat_spec in Hx. subst x.
    unfold Trace.between. lra.
Qed.

(** Every point [np.linspace] returns between ordered ends lies between
    them, whatever [num] is. *)
Lemma gridspace_between (lim : R * R) (step : R) (l : list R) :
  fst lim <= snd lim -> gridspace lim step = Ok l -> Forall (Trace.between lim) l.
Proof.
  intros Hlim. unfold gridspace, grid_num.
  destruct (Req_dec_T step 0) as [|_]; [discriminate|]. cbn [rbind].
  destruct (Rle_dec 0 (1 + (snd lim - fst lim) / step)) as [Hnum | Hnum].
  - rewrite linspace_points by exact Hnum. intros E. injection E as <-.
    pose proof (@axis_points_between lim) as H. destruct lim as [lo hi].
    apply H. exact Hlim.
  - rewrite linspace_negative by lra.
    destruct (Rle_dec _ (-1)); [discriminate|]. intros E. injection E as <-.
    constructor.
Qed.

(** The grid as a whole: the product of the three axes, or the error of the
    first axis that fails. *)
Lemma generate_grid_product (c : Calibration) :
  grid_of c
  = rbind (gridspace (lim_x (workspace_limits c)) (calib_grid_step c)) (fun xs =>
    rbind (gridspace (lim_y (workspace_limits c)) (calib_grid_step c)) (fun ys =>
    rbind (gridspace (lim_z (workspace_limits c)) (calib_grid_step c)) (fun zs =>
    Ok (product_yxz xs ys zs)))).
Proof.
  unfold grid_of, _generate_grid, bind, get_self, lift. cbn [self fst snd].
  destruct (gridspace (lim_x _) _) as [xs|e]; [|reflexivity].
  destruct (gridspace (lim_y _) _) as [ys|e]; [|reflexivity].
  destruct (gridspace (lim_z _) _) as [zs|e]; [|reflexivity].
  cbn [rbind fst snd].
  pose proof (meshgrid_columns xs ys zs) as HM.
  destruct (meshgrid xs ys zs) as [[gx gy] gz]. rewrite HM. reflexivity.
Qed.

Lemma in_product_yxz (xs ys zs : list R) (p : V3) :
  In p (product_yxz xs ys zs) <-> In (vx p) xs /\ In (vy p) ys /\ In (vz p) zs.
Proof.
  unfold product_yxz. rewrite in_flat_map. split.
  - intros (y & Hy & H). apply in_flat_map in H. destruct H as (x & Hx & H).
    apply in_map_iff in H. destruct H as (z & <- & Hz). cbn. auto.
  - intros (Hx & Hy & Hz). exists (vy p). split; [exact Hy|].
    apply in_flat_map. exists (vx p). split; [exact Hx|].
    apply in_map_iff. exists (vz p). split; [destruct p; reflexivity | exact Hz].
Qed.

Lemma length_product_yxz (xs ys zs : list R) :
  length (product_yxz xs ys zs) = (length ys * (length xs * length zs))%nat.
Proof.
  unfold product_yxz.
  apply flat_map_constant_length. intros y _.
  apply flat_map_constant_length. intros x _. apply length_map.
Qed.

Lemma NoDup_flat_map {A B : Type} (f : A -> list B) (l : list A) :
  NoDup l ->
  (forall a, In a l -> NoDup (f a)) ->
  (forall a a' b, In a l -> In a' l -> In b (f a) -> In b (f a') -> a = a') ->
  NoDup (flat_map f l).
Proof.
  induction 1 as [|a l Ha Hl IH]; intros Hf Hdis; cbn [flat_map].
  - constructor.
  - apply NoDup_app.
    + apply Hf. left. reflexivity.
    + apply IH.
      * intros a' Ha'. apply Hf. right. exact Ha'.
      * intros a1 a2 b H1 H2. apply Hdis; right; assumption.
    + intros b Hb Hb'. apply in_flat_map in Hb'. destruct Hb' as (a' & Ha' & Hb').
      assert (a = a') by (apply (Hdis a a' b); [left; reflexivity | right; assumption | assumption | assumption]).
      subst a'. contradiction.
Qed.

Lemma NoDup_product_yxz (xs ys zs : list R) :
  NoDup xs -> NoDup ys -> NoDup zs -> NoDup (product_yxz xs ys zs).
Proof.
  intros Hx Hy Hz. unfold product_yxz.
  apply NoDup_flat_map; [exact Hy | |].
  - intros y _. apply NoDup_flat_map; [exact Hx | |].
    + intros x _. apply NoDup_map_NoDup_ForallPairs; [|exact Hz].
      intros z z' _ _ E. injection E as E. exact E.
    + intros x x' p _ _ H1 H2.
      apply in_map_iff in H1. destruct H1 as (z1 & <- & _).
      apply in_map_iff in H2. destruct H2 as (z2 & E & _).
      injection E as E _. symmetry. exact E.
  - intros y y' p _ _ H1 H2.
    apply in_flat_map in H1. destruct H1 as (x1 & _ & H1).
    apply in_map_iff in H1. destruct H1 as (z1 & <- & _).
    apply in_flat_map in H2. destruct H2 as (x2 & _ & H2).
    apply in_map_iff in H2. destruct H2 as (z2 & E & _).
    injection E as _ E _. symmetry. exact E.
Qed.

Lemma NoDup_axis_points (lim : R * R) (n : nat) :
  fst lim < snd lim -> (1 <= n)%nat -> NoDup (axis_points lim n).
Proof.
  intros Hlim Hn. unfold axis_points.
  destruct (Nat.ltb_spec 1 n) as [H2 | H2].
  - apply NoDup_map_NoDup_ForallPairs; [|apply seq_NoDup].
    intros i j _ _ E. unfold axis_point in E.
    assert (Hd : 0 < INR (n - 1)) by (apply lt_0_INR; lia).
    assert (Hq : 0 < (snd lim - fst lim) / INR (n - 1))
      by (apply Rmult_lt_0_compat; [lra | apply Rinv_0_lt_compat; lra]).
    apply INR_eq. apply (Rmult_eq_reg_r ((snd lim - fst lim) / INR (n - 1))); lra.
  - replace n with 1%nat by lia. cbn. constructor; [intros []|constructor].
Qed.

Lemma product_yxz_nil_x (ys zs : list R) : product_yxz [] ys zs = [].
Proof. unfold product_yxz. induction ys as [|y ys IH]; [reflexivity|exact IH]. Qed.



Lemma grid_of_inside (c : Calibration) (grid : list V3) :
  fst (lim_x (workspace_limits c)) <= snd (lim_x (workspace_limits c)) ->
  fst (lim_y (workspace_limits c)) <= snd (lim_y (workspace_limits c)) ->
  fst (lim_z (workspace_limits c)) <= snd (lim_z (workspace_limits c)) ->
  grid_of c = Ok grid ->
  Forall (Trace.inside (workspace_limits c)) grid.
Proof.
  intros Hx Hy Hz. rewrite generate_grid_product.
  destruct (gridspace (lim_x _) _) as [xs|e] eqn:Ex; [|discriminate].
  destruct (gridspace (lim_y _) _) as [ys|e] eqn:Ey; [|discriminate].
  destruct (gridspace (lim_z _) _) as [zs|e] eqn:Ez; [|discriminate].
  cbn [rbind]. intros E. injection E as <-.
  pose proof (gridspace_between _ _ Hx Ex) as Bx.
  pose proof (gridspace_between _ _ Hy Ey) as By.
  pose proof (gridspace_between _ _ Hz Ez) as Bz.
  rewrite Forall_forall in Bx, By, Bz.
  apply Forall_forall. intros p Hp. apply in_product_yxz in Hp.
  destruct Hp as (Px & Py & Pz). unfold Trace.inside. auto.
Qed.

(** X9: whatever the step, every point of a grid that was generated lies
    within the workspace limits on each axis, provided the limits are
    ordered; the call leaves the session and the trace as they were. *)
Theorem grid_points_inside_workspace (s : state) (grid : list V3) :
  let L := workspace_limits (self s) in
  fst (lim_x L) <= snd (lim_x L) ->
  fst (lim_y L) <= snd (lim_y L) ->
  fst (lim_z L) <= snd (lim_z L) ->
  fst (_generate_grid s) = Ok grid ->
  Forall (Trace.inside L) grid /\ snd (_generate_grid s) = s.
Proof.
  cbv zeta. intros Hx Hy Hz. rewrite generate_grid_pure. cbn [fst snd].
  intros E. split; [|reflexivity]. apply grid_of_inside; assumption.
Qed.

(** X10: for a positive step and min < max on every axis the grid holds
    ny * (nx * nz) points, n being int(num) for the value num of
    1 + (max - min) / step as computed with rounding, so at least one, and
    no position occurs twice. *)
Theorem grid_size_and_distinct (fl : R -> R) (s : state) :
  let L := workspace_limits (self s) in
  let step := calib_grid_step (self s) in
  Rounded.rounding fl ->
  0 < step ->
  fst (lim_x L) < snd (lim_x L) ->
  fst (lim_y L) < snd (lim_y L) ->
  fst (lim_z L) < snd (lim_z L) ->
  exists grid,
    fst (Rounded._generate_grid fl s) = Ok grid
    /\ length grid
       = (Rounded.count fl (lim_y L) step
          * (Rounded.count fl (lim_x L) step * Rounded.count fl (lim_z L) step))%nat
    /\ (1 <= length grid)%nat
    /\ NoDup grid.
Proof.
  cbv zeta. intros Hfl Hs Hx Hy Hz.
  pose proof (@rounded_generate_grid_points fl Hfl s) as HG. cbv zeta in HG.
  rewrite HG by assumption. cbn [fst].
  eexists. split; [reflexivity|].
  destruct (rounded_count_floor Hfl _ Hx Hs) as [_ Nx].
  destruct (rounded_count_floor Hfl _ Hy Hs) as [_ Ny].
  destruct (rounded_count_floor Hfl _ Hz Hs) as [_ Nz].
  rewrite length_product_yxz, !length_axis_points.
  split; [reflexivity|]. split; [nia|].
  apply NoDup_product_yxz; apply NoDup_axis_points; assumption.
Qed.


(** * Further properties of the session as a whole *)

Lemma moves_startup : moves startup_events = [].
Proof. reflexivity. Qed.

Lemma captures_startup : captures startup_events = 0%nat.
Proof. reflexivity. Qed.

Lemma saved_files_startup : saved_files startup_events = [].
Proof. reflexivity. Qed.

Lemma saved_files_saved_arrays (pose : M44) (c : Calibration) :
  saved_files (saved_arrays pose c)
  = ["saved_data/camera_pose.txt"; "saved_data/measured_pts.txt";
     "saved_data/observed_pts.txt"; "saved_data/observed_pix.txt"]%string.
Proof. reflexivity. Qed.

Section RunMore.

Variable svd : M33 -> M33 * V3 * M33.
Variable minimize : (R -> result R) -> R -> result R.
Variable sense : nat -> observation.

(** The trace of [run] read four ways, whatever its outcome. *)
Lemma run_trace_readings (s : state) :
let final := run svd minimize sense s in
let grid := match grid_of (self s) with Ok g => g | Raise _ => [] end in
let c := collected sense (enumerate grid) (self s) in
moves (trace (snd final))
= moves (trace s) ++ map (fun p => (p, tool_orientation (self s))) grid
/\ captures (trace (snd final)) = (captures (trace s) + length grid)%nat
/\ self (snd final) = c
/\ image_files (trace (snd final))
   = image_files (trace s)
     ++ map png_name (seq (S (length (measured_pts (self s))))
                          (length (kept sense (enumerate grid))))
/\ exists written,
    saved_files (trace (snd final)) = saved_files (trace s) ++ written
    /\ (written = [] \/ written = ["saved_data/camera_depth_scale.txt"%string]
        \/ written = all_files)
    /\ (written <> []
        <-> exists g x, grid_of (self s) = Ok g /\ minimize (objective svd c) 1 = Ok x)
    /\ (written = all_files
        <-> exists g x v, grid_of (self s) = Ok g
                          /\ minimize (objective svd c) 1 = Ok x
                          /\ objective svd c x = Ok v).
Proof.
cbv zeta. rewrite run_stages.
destruct (grid_of (self s)) as [grid|e].
- cbv zeta.
  set (c := collected sense (enumerate grid) (self s)).
  set (loop := loop_events sense (tool_orientation (self s))
                 (length (measured_pts (self s))) (enumerate grid)).
  assert (Hm : forall tail, moves tail = [] ->
            moves (trace s ++ startup_events ++ loop ++ tail)
            = moves (trace s) ++ map (fun p => (p, tool_orientation (self s))) grid).
  { intros tail Ht. unfold loop.
    rewrite !moves_app, moves_startup, moves_loop_events, Ht.
    cbn [app]. rewrite app_nil_r. f_equal.
    rewrite <- (map_snd_enumerate grid) at 2. rewrite map_map. reflexivity. }
  assert (Hc : forall tail, captures tail = 0%nat ->
            captures (trace s ++ startup_events ++ loop ++ tail)
            = (captures (trace s) + length grid)%nat).
  { intros tail Ht. unfold loop.
    rewrite !captures_app, captures_startup, captures_loop_events, Ht.
    rewrite length_enumerate. lia. }
  assert (Hi : forall tail, image_files tail = [] ->
            image_files (trace s ++ startup_events ++ loop ++ tail)
            = image_files (trace s)
              ++ map png_name (seq (S (length (measured_pts (self s))))
                                   (length (kept sense (enumerate grid))))).
  { intros tail Ht. unfold loop.
    rewrite !image_files_app, image_files_loop_events, Ht, app_nil_r.
    reflexivity. }
  assert (Hf : forall tail,
            saved_files (trace s ++ startup_events ++ loop ++ tail)
            = saved_files (trace s) ++ saved_files tail).
  { intros tail. unfold loop.
    rewrite !saved_files_app, saved_files_startup, saved_files_loop_events.
    reflexivity. }
  destruct (minimize (objective svd c) 1) as [x|e] eqn:Emin.
  + destruct (objective svd c x) as [v|e] eqn:Eobj; cbn [fst snd trace self].
    * rewrite <- !app_assoc.
      split; [apply Hm; reflexivity|]. split; [apply Hc; reflexivity|].
      split; [reflexivity|]. split; [apply Hi; reflexivity|].
      exists all_files. split; [rewrite Hf; reflexivity|].
      split; [auto|]. split; split.
      -- intros _. exists grid, x. split; reflexivity.
      -- intros _. discriminate.
      -- intros _. exists grid, x, v.
         split; [reflexivity|]. split; [reflexivity | exact Eobj].
      -- reflexivity.
    * rewrite <- !app_assoc.
      split; [apply Hm; reflexivity|]. split; [apply Hc; reflexivity|].
      split; [reflexivity|]. split; [apply Hi; reflexivity|].
      exists ["saved_data/camera_depth_scale.txt"%string].
      split; [rewrite Hf; reflexivity|].
      split; [auto|]. split; split.
      -- intros _. exists grid, x. split; reflexivity.
      -- intros _. discriminate.
      -- discriminate.
      -- intros (g & x' & v & _ & Hx & Hv). injection Hx as <-. congruence.
  + cbn [fst snd trace self].
    split; [apply Hm; reflexivity|]. split; [apply Hc; reflexivity|].
    split; [reflexivity|]. split; [apply Hi; reflexivity|].
    exists []. split; [rewrite Hf; reflexivity|].
    split; [auto|]. split; split.
    -- intros H. contradiction.
    -- intros (g & x & _ & Hx). discriminate.
    -- discriminate.
    -- intros (g & x & v & _ & Hx & _). discriminate.
- cbn [fst snd trace self map length enumerate combine seq collected fold_left
       kept filter].
  rewrite moves_app, captures_app, saved_files_app, image_files_app.
  rewrite moves_startup, captures_startup, saved_files_startup, !app_nil_r.
  split; [reflexivity|]. split; [lia|]. split; [reflexivity|].
  split; [reflexivity|].
  exists []. split; [rewrite app_nil_r; reflexivity|].
  split; [auto|]. split; split.
  -- intros H. contradiction.
  -- intros (g & x & Hg & _). discriminate.
  -- discriminate.
  -- intros (g & x & v & Hg & _). discriminate.
Qed.

(** X12: whatever the camera sees and whatever the optimiser returns, and
  whether or not [run] completes, the poses it commands are the grid
  points in order, each with the tool orientation, with one image bundle
  per grid point; when the grid cannot be generated the robot is sent to
  no pose at all. *)
Theorem run_robot_path (s : state) :
let final := run svd minimize sense s in
let grid := match fst (_generate_grid s) with Ok g => g | Raise _ => [] end in
moves (trace (snd final))
= moves (trace s) ++ map (fun p => (p, tool_orientation (self s))) grid
/\ captures (trace (snd final)) = (captures (trace s) + length grid)%nat.
Proof.
cbv zeta. rewrite generate_grid_pure. cbn [fst].
destruct (run_trace_readings s) as (Hm & Hc & _). auto.
Qed.

(** X13: with ordered workspace limits, [run] never commands a pose whose
  position lies outside the limits or whose orientation is not the tool
  orientation, whatever the step, the camera and the optimiser. *)
Theorem run_stays_inside_workspace (c : Calibration) (p o : V3) :
let L := workspace_limits c in
fst (lim_x L) <= snd (lim_x L) ->
fst (lim_y L) <= snd (lim_y L) ->
fst (lim_z L) <= snd (lim_z L) ->
In (p, o) (moves (trace (snd (run svd minimize sense (mkState c []))))) ->
inside L p /\ o = tool_orientation c.
Proof.
cbv zeta. intros Hx Hy Hz.
destruct (run_trace_readings (mkState c [])) as (Hm & _). rewrite Hm.
cbn [trace self app moves flat_map].
intros Hin. apply in_map_iff in Hin. destruct Hin as (q & E & Hq).
injection E as -> <-. split; [|reflexivity].
destruct (grid_of c) as [grid|e] eqn:Eg; [|contradiction].
pose proof (grid_of_inside c Hx Hy Hz Eg) as HF.
rewrite Forall_forall in HF. apply HF. exact Hq.
Qed.

(** X14: the files [run] writes with np.savetxt are a prefix of the five
  file names in their fixed order: none unless the grid was generated and
  the optimiser returned a scale, the depth scale alone when the
  objective then fails at that scale, and all five when it returns a
  value there.  The image files are those of the loop, one for each
  sample kept. *)
Theorem run_files_in_order (s : state) :
let final := run svd minimize sense s in
let grid := match fst (_generate_grid s) with Ok g => g | Raise _ => [] end in
let c := collected sense (enumerate grid) (self s) in
image_files (trace (snd final))
= image_files (trace s)
  ++ map png_name (seq (S (length (measured_pts (self s))))
                       (length (kept sense (enumerate grid))))
/\ exists written,
    saved_files (trace (snd final)) = saved_files (trace s) ++ written
    /\ (written = [] \/ written = ["saved_data/camera_depth_scale.txt"%string]
        \/ written = all_files)
    /\ (written <> []
        <-> exists g x, fst (_generate_grid s) = Ok g
                        /\ minimize (objective svd c) 1 = Ok x)
    /\ (written = all_files
        <-> exists g x v, fst (_generate_grid s) = Ok g
                          /\ minimize (objective svd c) 1 = Ok x
                          /\ objective svd c x = Ok v).
Proof.
cbv zeta. rewrite generate_grid_pure. cbn [fst].
destruct (run_trace_readings s) as (_ & _ & _ & Hi & H). auto.
Qed.

(** X15: a session that completes has kept at least one sample: with no
  valid observation the line after the optimiser, which evaluates the
  objective once more, raises, so [run] ends in an error and no camera
  pose is written. *)
Theorem run_needs_a_sample (s : state) :
observed_pts (self s) = [] ->
(forall i, valid (sense i) = false) ->
let final := run svd minimize sense s in
(exists e, fst final = Raise e)
/\ self (snd final) = self s
/\ (forall x, minimize (fun _ => Raise IndexError) 1 = Ok x ->
    forall grid, fst (_generate_grid s) = Ok grid ->
    fst final = Raise IndexError)
/\ forall m, ~ In (np_savetxt "saved_data/camera_pose.txt" (Matrix44 m))
                  (skipn (length (trace s)) (trace (snd final))).
Proof.
intros Hempty Hinvalid. cbv zeta.
rewrite generate_grid_pure. cbn [fst]. rewrite run_stages.
destruct (grid_of (self s)) as [grid|e].
- cbv zeta.
  rewrite (@collected_invalid sense (enumerate grid) (self s))
    by (intros it _; apply Hinvalid).
  assert (Hobj : objective svd (self s) = fun _ => Raise IndexError).
  { apply functional_extensionality. intros z. apply objective_empty, Hempty. }
  rewrite Hobj.
  assert (Hno : forall m tail,
             (forall e, In e tail -> forall m', e <> np_savetxt "saved_data/camera_pose.txt" (Matrix44 m')) ->
             ~ In (np_savetxt "saved_data/camera_pose.txt" (Matrix44 m))
                  (skipn (length (trace s))
                     (trace s ++ startup_events
                      ++ loop_events sense (tool_orientation (self s))
                           (length (measured_pts (self s))) (enumerate grid)
                      ++ tail))).
  { intros m tail Htail. rewrite skipn_app, skipn_all, Nat.sub_diag. cbn [skipn app].
    rewrite !in_app_iff. intros [H | [H | H]].
    - cbn in H. repeat (destruct H as [H|H]; [discriminate|]). contradiction.
    - apply loop_events_kind in H.
      destruct H as [H | [[q H] | [f H]]]; discriminate.
    - exact (Htail _ H m eq_refl). }
  destruct (minimize (fun _ => Raise IndexError) 1) as [x|e]; cbn [fst snd self trace].
  + split; [eexists; reflexivity|]. split; [reflexivity|].
    split; [intros; reflexivity|].
    intros m. rewrite <- !app_assoc. apply Hno.
    intros e He m'. cbn in He.
    repeat (destruct He as [<-|He]; [discriminate|]). contradiction.
  + split; [eexists; reflexivity|]. split; [reflexivity|].
    split; [intros x Hx; discriminate|].
    intros m. apply Hno.
    intros e' He m'. cbn in He.
    repeat (destruct He as [<-|He]; [discriminate|]). contradiction.
- cbn [fst snd self trace].
  split; [eexists; reflexivity|]. split; [reflexivity|].
  split; [intros x _ grid Hg; discriminate|].
  intros m. rewrite skipn_app, skipn_all, Nat.sub_diag. cbn [skipn app].
  intros H. cbn in H. repeat (destruct H as [H|H]; [discriminate|]). contradiction.
Qed.

(** X16: neither the optimiser nor the objective touches the session: at
  the end of [run], completed or not, the session is the one the
  collecting loop left, so its configuration is the initial one and its
  samples are those of the valid passes. *)
Theorem run_keeps_collected_session (s : state) :
let final := run svd minimize sense s in
let grid := match fst (_generate_grid s) with Ok g => g | Raise _ => [] end in
self (snd final) = self (snd (collect sense grid s))
/\ calib_grid_step (self (snd final)) = calib_grid_step (self s)
/\ checkerboard_offset_from_tool (self (snd final))
   = checkerboard_offset_from_tool (self s)
/\ tool_orientation (self (snd final)) = tool_orientation (self s)
/\ workspace_limits (self (snd final)) = workspace_limits (self s)
/\ camera_intrinsics (self (snd final)) = camera_intrinsics (self s)
/\ length (measured_pts (self (snd final)))
   = (length (measured_pts (self s)) + length (kept sense (enumerate grid)))%nat.
Proof.
cbv zeta. rewrite generate_grid_pure. cbn [fst].
destruct (run_trace_readings s) as (_ & _ & Hself & _). cbv zeta in Hself.
rewrite Hself.
set (grid := match grid_of (self s) with Ok g => g | Raise _ => [] end).
destruct (collected_fields sense (enumerate grid) (self s))
  as (Hm & _ & _ & Hs & Hf & Ht & Hw & Hk).
split.
- unfold collect. fold (enumerate grid). rewrite for_each_collect_spec. reflexivity.
- rewrite Hm, length_app, length_map. auto 10.
Qed.

End RunMore.

(** * The display: carrying the observed points into the robot frame *)

Ltac disp_simpl :=
  cbv beta iota zeta delta
      [det44 cofactor minor ent skip mk44 concatenate_Rt eye4 eye3 dot44
       block33 column3
       h0 h1 h2 h3 wx wy wz ww Nat.even Nat.add Nat.ltb Nat.leb
       vx vy vz vadd vsub vneg vdot vcross vdiv dotv neg r0 r1 r2 col0 col1 col2
       T dot linalg_det mscale adj apply_rigid].

Lemma det44_concatenate_Rt (Rm : M33) (t : V3) :
  det44 (concatenate_Rt Rm t) = linalg_det Rm.
Proof. mat_destruct. disp_simpl. ring. Qed.

Lemma block33_concatenate_Rt (Rm : M33) (t : V3) : block33 (concatenate_Rt Rm t) = Rm.
Proof. mat_destruct. reflexivity. Qed.

Lemma column3_concatenate_Rt (Rm : M33) (t : V3) : column3 (concatenate_Rt Rm t) = t.
Proof. mat_destruct. reflexivity. Qed.

(** The inverse of a homogeneous matrix with an invertible 3x3 block. *)
Lemma linalg_inv_concatenate_Rt (Rm : M33) (t : V3) :
  linalg_det Rm <> 0 ->
  linalg_inv (concatenate_Rt Rm t)
  = Ok (concatenate_Rt (mscale (/ linalg_det Rm) (adj Rm))
                       (vneg (dotv (mscale (/ linalg_det Rm) (adj Rm)) t))).
Proof.
  intros Hd. unfold linalg_inv. rewrite det44_concatenate_Rt.
  destruct (Req_dec_T (linalg_det Rm) 0) as [E|_]; [contradiction|].
  f_equal. revert Hd. mat_destruct. intros Hd.
  apply M44_ext; apply V4_ext; revert Hd; disp_simpl; intros Hd; field;
    intros Hz; apply Hd; rewrite <- Hz; ring.
Qed.

Lemma adj_orthogonal (m : M33) : orthogonal m -> adj m = mscale (linalg_det m) (T m).
Proof.
  intros Hm.
  rewrite <- (dot_eye_r (adj m)), <- Hm, dot_assoc, adj_dot, mscale_dot_l, dot_eye_l.
  reflexivity.
Qed.

Lemma mscale_mscale (a b : R) (m : M33) : mscale a (mscale b m) = mscale (a * b) m.
Proof. mat_eq. Qed.

Lemma mscale_one (m : M33) : mscale 1 m = m.
Proof. mat_eq. Qed.

(** A rigid motion is undone by the transposed rotation. *)
Lemma linalg_inv_rigid (Rm : M33) (t : V3) :
  orthogonal Rm ->
  linalg_inv (concatenate_Rt Rm t)
  = Ok (concatenate_Rt (T Rm) (vneg (dotv (T Rm) t))).
Proof.
  intros Hm. pose proof (orthogonal_det_nonzero Hm) as Hd.
  rewrite linalg_inv_concatenate_Rt by exact Hd.
  rewrite (adj_orthogonal Hm), mscale_mscale, Rinv_l, mscale_one by exact Hd.
  reflexivity.
Qed.

Lemma apply_rigid_inverse (Rm : M33) (t b : V3) :
  apply_rigid (T Rm) (vneg (dotv (T Rm) t)) b = dotv (T Rm) (vsub b t).
Proof. mat_eq. Qed.

Lemma apply_rigid_undo (Rm : M33) (t a : V3) :
  orthogonal Rm ->
  apply_rigid (T Rm) (vneg (dotv (T Rm) t)) (apply_rigid Rm t a) = a.
Proof.
  intros Hm. rewrite apply_rigid_inverse.
  replace (vsub (apply_rigid Rm t a) t) with (dotv Rm a) by mat_eq.
  rewrite <- dotv_dot, (orthogonal_T_dot Hm). apply dotv_eye3.
Qed.

Lemma apply_rigid_redo (Rm : M33) (t b : V3) :
  orthogonal Rm ->
  apply_rigid Rm t (apply_rigid (T Rm) (vneg (dotv (T Rm) t)) b) = b.
Proof.
  intros Hm. rewrite apply_rigid_inverse. unfold apply_rigid.
  rewrite <- dotv_dot. unfold orthogonal in Hm. rewrite Hm, dotv_eye3. mat_eq.
Qed.

Section DisplayFacts.

Variable svd : M33 -> M33 * V3 * M33.

Lemma get_rigid_transform_orthogonal (A B : list V3) (U : M33) (Sv : V3) (Vt : M33)
    (Rot : M33) (t : V3) :
svd (cross_covariance A B) = (U, Sv, Vt) ->
orthogonal U -> orthogonal Vt ->
_get_rigid_transform svd A B = Ok (Rot, t) ->
orthogonal Rot.
Proof.
intros Hsvd HU HV.
destruct (Nat.eq_dec (length A) (length B)) as [HL|HL];
  [|rewrite (get_rigid_transform_mismatch svd A B HL); discriminate].
unfold _get_rigid_transform. rewrite HL, Nat.eqb_refl.
cbn [negb]. unfold cross_covariance in Hsvd. rewrite HL in Hsvd at 1. rewrite Hsvd.
destruct (Rlt_dec _ 0); intros E; injection E as <- _;
  apply orthogonal_dot; apply orthogonal_T;
  try apply orthogonal_negate_row2; assumption.
Qed.

(** What the display computes from a fit with an orthogonal rotation. *)
Lemma t_observed_pts_of_fit (A B : list V3) (Rot : M33) (t : V3) :
_get_rigid_transform svd A B = Ok (Rot, t) ->
orthogonal Rot ->
t_observed_pts svd A B
= Ok (map (apply_rigid (T Rot) (vneg (dotv (T Rot) t))) B).
Proof.
intros HRt Ho. unfold t_observed_pts. rewrite HRt. cbn [rbind].
rewrite (linalg_inv_rigid t Ho). cbn [rbind].
rewrite block33_concatenate_Rt, column3_concatenate_Rt, registered_points.
reflexivity.
Qed.

(** X17: when the factors returned by the decomposition are orthogonal, the
  display never fails on point sets of one length: the matrix assembled
  from the fit is invertible, the red cloud is R^T (b - t) for every
  observed point b, and the fitted transform carries the red cloud back
  onto the observed points. *)
Theorem display_inverts_fit (A B : list V3) (U : M33) (Sv : V3) (Vt : M33) :
length A = length B ->
svd (cross_covariance A B) = (U, Sv, Vt) ->
orthogonal U -> orthogonal Vt ->
exists Rot t,
  _get_rigid_transform svd A B = Ok (Rot, t)
  /\ linalg_inv (concatenate_Rt Rot t)
     = Ok (concatenate_Rt (T Rot) (vneg (dotv (T Rot) t)))
  /\ t_observed_pts svd A B = Ok (map (fun b => dotv (T Rot) (vsub b t)) B)
  /\ map (apply_rigid Rot t) (map (fun b => dotv (T Rot) (vsub b t)) B) = B.
Proof.
intros HL Hsvd HU HV.
destruct (get_rigid_transform_ok svd A B HL) as [Rot HRt].
pose proof (get_rigid_transform_orthogonal Hsvd HU HV HRt) as Ho.
exists Rot, (vadd (dotv (neg Rot) (mean A)) (mean B)).
split; [exact HRt|]. split; [apply linalg_inv_rigid, Ho|]. split.
- rewrite (@t_observed_pts_of_fit _ _ _ _ HRt Ho). f_equal.
  apply map_ext. intros b. apply apply_rigid_inverse.
- rewrite map_map. rewrite <- (map_id B) at 2. apply map_ext. intros b.
  rewrite <- apply_rigid_inverse. apply apply_rigid_redo, Ho.
Qed.

(** X18: when the observed points are a rigid image of three or more
  measured points that are not on one line, and the decomposition is a
  singular value decomposition, the red cloud falls exactly on the
  measured points. *)
Theorem display_round_trip (A : list V3) (R0 : M33) (t0 : V3) :
(3 <= length A)%nat -> noncollinear A -> proper_rotation R0 ->
is_svd (cross_covariance A (map (apply_rigid R0 t0) A))
       (svd (cross_covariance A (map (apply_rigid R0 t0) A))) ->
t_observed_pts svd A (map (apply_rigid R0 t0) A) = Ok A.
Proof.
intros HN Hnc HR0 Hsvd.
assert (HN1 : (1 <= length A)%nat) by lia.
pose proof (@estimate_recovers svd R0 t0 A HN1 Hnc HR0 Hsvd) as HRt.
destruct HR0 as [Ho _].
rewrite (@t_observed_pts_of_fit _ _ _ _ HRt Ho). f_equal.
rewrite map_map. rewrite <- (map_id A) at 2. apply map_ext. intros a.
apply apply_rigid_undo, Ho.
Qed.

End DisplayFacts.

Lemma map_eq_Forall {A B : Type} (f g : A -> B) (l : list A) :
  map f l = map g l <-> Forall (fun a => f a = g a) l.
Proof.
  induction l as [|a l IH]; cbn [map].
  - split; [constructor | reflexivity].
  - split.
    + intros E. injection E as E1 E2. constructor; [exact E1 | apply IH, E2].
    + intros H. apply Forall_cons_iff in H. destruct H as [E1 E2].
      rewrite E1. f_equal. apply IH, E2.
Qed.

Section DisplayScale.

Variable sense : nat -> observation.

(** X19: the display multiplies only the depth of a recorded point by the
  optimised scale, whereas the objective scales all three coordinates:
  after collecting from no samples, the points the green cloud is fitted
  to are those the objective fitted at that scale exactly when the scale
  is 1 or every recorded point lies on the optical axis. *)
Theorem display_rescales_depth_only (grid : list V3) (s : state) (k : R) :
observed_pts (self s) = [] ->
observed_pix (self s) = [] ->
let c' := self (snd (collect sense grid s)) in
new_observed_pts k (observed_pts c') = new_observed c' k
<-> (k = 1 \/ Forall (fun p => vx p = 0 /\ vy p = 0) (observed_pts c')).
Proof.
intros Ho0 Hp0. cbv zeta. unfold collect. fold (enumerate grid).
rewrite for_each_collect_spec. cbn [snd self].
rewrite new_observed_fresh by assumption.
unfold new_observed_pts. rewrite map_eq_Forall.
set (pts := observed_pts _). clearbody pts.
split.
- intros H. destruct (Req_dec_T k 1) as [E | Hk]; [left; exact E | right].
  revert H. apply Forall_impl. intros p E.
  unfold vscale in E. injection E as Ex Ey _.
  split; nra.
- intros [-> | H].
  + apply Forall_forall. intros p _. unfold vscale.
    apply V3_ext; cbn [vx vy vz]; ring.
  + revert H. apply Forall_impl. intros p [Ex Ey]. unfold vscale.
    apply V3_ext; cbn [vx vy vz]; rewrite ?Ex, ?Ey; ring.
Qed.

End DisplayScale.

(** * The further properties on concrete sessions *)

Module ConcreteMore.

Import Example ExampleFacts ExampleFacts2 Concrete.

Lemma octahedron_fit :
_get_rigid_transform svd_octahedron octahedron octahedron = Ok (eye3, vzero).
Proof.
assert (E : map (apply_rigid eye3 vzero) octahedron = octahedron).
{ rewrite <- (map_id octahedron) at 2. apply map_ext. intros a. mat_eq. }
rewrite <- E at 2. apply estimate_recovers.
- unfold octahedron. cbn [length]. lia.
- exact octahedron_noncollinear.
- exact proper_rotation_eye3.
- rewrite E, octahedron_covariance. apply svd_octahedron_ok.
  apply proper_rotation_eye3.
Qed.

Lemma octahedron_factors :
svd_octahedron (cross_covariance octahedron octahedron)
= (eye3, mkV3 2 2 2, eye3).
Proof.
unfold svd_octahedron. rewrite octahedron_covariance, half_of_double. reflexivity.
Qed.

(** Witness of X2: the octahedron moved by (1, 2, 3) on one side and by
  (0, 0, 1) on the other. *)
Lemma estimator_translation_invariant_witness :
length octahedron = length octahedron
/\ (1 <= length octahedron)%nat
/\ _get_rigid_transform svd_octahedron octahedron octahedron = Ok (eye3, vzero)
/\ _get_rigid_transform svd_octahedron
     (map (fun a => vadd a (mkV3 1 2 3)) octahedron)
     (map (fun b => vadd b (mkV3 0 0 1)) octahedron)
   = Ok (eye3, vadd (vsub vzero (dotv eye3 (mkV3 1 2 3))) (mkV3 0 0 1)).
Proof.
assert (HN : (1 <= length octahedron)%nat) by (unfold octahedron; cbn [length]; lia).
split; [reflexivity|]. split; [exact HN|]. split; [exact octahedron_fit|].
apply (@estimator_translation_invariant svd_octahedron octahedron octahedron
         (mkV3 1 2 3) (mkV3 0 0 1) eye3 vzero eq_refl HN octahedron_fit).
Defined.

Lemma session1_lengths :
length (measured_pts session1) = 1%nat
/\ length (observed_pts session1) = 1%nat
/\ length (observed_pix session1) = 1%nat.
Proof. repeat split. Qed.


(** Witness of X4 on the session of one sample. *)
Lemma objective_zero_iff_exact_witness :
(1 <= length (measured_pts session1))%nat
/\ exists Rot t,
    _get_rigid_transform svd0 (measured_pts session1) (new_observed session1 1)
    = Ok (Rot, t)
    /\ (fst (_get_rigid_transform_error svd0 1 (mkState session1 [])) = Ok 0
        <-> Forall2 (fun m b => apply_rigid Rot t m = b)
                    (measured_pts session1) (new_observed session1 1)).
Proof.
assert (HN : (1 <= length (measured_pts session1))%nat) by (cbn; lia).
split; [exact HN|].
destruct (get_rigid_transform_ok svd0 (measured_pts session1)
            (new_observed session1 1) eq_refl) as [Rot HRt].
exists Rot, (vadd (dotv (neg Rot) (mean (measured_pts session1)))
                  (mean (new_observed session1 1))).
split; [exact HRt|].
apply (@objective_zero_iff_exact svd0 session1 1 [] _ _ HN eq_refl eq_refl HRt).
Defined.

(** Witness of X8: two passes from the fresh default session. *)
Lemma collect_records_unit_scale_witness :
observed_pts session0 = []
/\ observed_pix session0 = []
/\ let c' := self (snd (collect sense0
                          [mkV3 0.3 0.05 (-0.2); mkV3 0.3 0.05 (-0.15)]
                          (mkState session0 []))) in
   new_observed c' 1 = observed_pts c'
   /\ new_observed c' 3 = map (Trace.vscale 3) (observed_pts c').
Proof.
split; [reflexivity|]. split; [reflexivity|].
apply (@collect_records_unit_scale sense0
         [mkV3 0.3 0.05 (-0.2); mkV3 0.3 0.05 (-0.15)]
         (mkState session0 []) 3 eq_refl eq_refl).
Defined.

Lemma session0_ordered :
fst (lim_x (workspace_limits session0)) <= snd (lim_x (workspace_limits session0))
/\ fst (lim_y (workspace_limits session0)) <= snd (lim_y (workspace_limits session0))
/\ fst (lim_z (workspace_limits session0)) <= snd (lim_z (workspace_limits session0)).
Proof.
destruct session0_limits as (_ & Hx & Hy & Hz). repeat split; lra.
Qed.

Lemma session0_grid_value :
fst (_generate_grid (mkState session0 []))
= Ok (product_yxz
        (axis_points (0.3, 0.748) (axis_count (0.3, 0.748) 0.05))
        (axis_points (0.05, 0.4) (axis_count (0.05, 0.4) 0.05))
        (axis_points (-0.2, -0.1) (axis_count (-0.2, -0.1) 0.05))).
Proof.
destruct session0_limits as (Hs & Hx & Hy & Hz).
pose proof (@generate_grid_points (mkState session0 [])) as HG. cbv zeta in HG.
rewrite HG by assumption. reflexivity.
Qed.

(** Witness of X9 on the default workspace. *)
Lemma grid_points_inside_workspace_witness :
fst (lim_x (workspace_limits session0)) <= snd (lim_x (workspace_limits session0))
/\ Forall (Trace.inside (workspace_limits session0))
          (product_yxz
             (axis_points (0.3, 0.748) (axis_count (0.3, 0.748) 0.05))
             (axis_points (0.05, 0.4) (axis_count (0.05, 0.4) 0.05))
             (axis_points (-0.2, -0.1) (axis_count (-0.2, -0.1) 0.05))).
Proof.
destruct session0_ordered as (Hx & Hy & Hz).
split; [exact Hx|].
apply (@grid_points_inside_workspace (mkState session0 []) _ Hx Hy Hz
         session0_grid_value).
Defined.

(** Witness of X10 on the default workspace, without rounding. *)
Lemma grid_size_and_distinct_witness :
Rounded.rounding (fun x => x)
/\ 0 < calib_grid_step session0
/\ exists grid,
    fst (Rounded._generate_grid (fun x => x) (mkState session0 [])) = Ok grid
    /\ (1 <= length grid)%nat
    /\ NoDup grid.
Proof.
destruct session0_limits as (Hs & Hx & Hy & Hz).
split; [exact rounding_exact|]. split; [exact Hs|].
destruct (@grid_size_and_distinct (fun x => x) (mkState session0 [])
            rounding_exact Hs Hx Hy Hz)
  as (grid & Hg & _ & Hpos & Hnd).
exists grid. auto.
Defined.


Lemma session0_first_move :
In (mkV3 0.3 0.05 (-0.2), tool_orientation session0)
   (Trace.moves (trace (snd (run svd0 minimize0 sense0 (mkState session0 []))))).
Proof.
destruct session0_run as [rest E]. rewrite E. cbn [snd trace].
rewrite !moves_app, moves_startup, moves_loop_events. cbn [app].
apply in_or_app. left. unfold enumerate. cbn [length seq combine map snd].
left. reflexivity.
Qed.

(** Witness of X13: the first pose of the default session. *)
Lemma run_stays_inside_workspace_witness :
In (mkV3 0.3 0.05 (-0.2), tool_orientation session0)
   (Trace.moves (trace (snd (run svd0 minimize0 sense0 (mkState session0 [])))))
/\ Trace.inside (workspace_limits session0) (mkV3 0.3 0.05 (-0.2)).
Proof.
destruct session0_ordered as (Hx & Hy & Hz).
split; [exact session0_first_move|].
apply (@run_stays_inside_workspace svd0 minimize0 sense0 session0
         (mkV3 0.3 0.05 (-0.2)) (tool_orientation session0) Hx Hy Hz
         session0_first_move).
Defined.

(** Witness of X15: the default session in front of a camera that never
  finds the checkerboard. *)
Lemma run_needs_a_sample_witness :
observed_pts session0 = []
/\ (forall i : nat, valid ((fun _ => unseen) i) = false)
/\ exists e, fst (run svd0 minimize0 (fun _ => unseen) (mkState session0 []))
             = Raise e.
Proof.
split; [reflexivity|]. split; [intros i; exact valid_unseen|].
apply (@run_needs_a_sample svd0 minimize0 (fun _ => unseen) (mkState session0 [])
         eq_refl (fun _ => valid_unseen)).
Defined.

(** Witness of X17 on the octahedron. *)
Lemma display_inverts_fit_witness :
orthogonal eye3
/\ exists Rot t,
    _get_rigid_transform svd_octahedron octahedron octahedron = Ok (Rot, t)
    /\ t_observed_pts svd_octahedron octahedron octahedron
       = Ok (map (fun b => dotv (T Rot) (vsub b t)) octahedron).
Proof.
pose proof proper_rotation_eye3 as [Ho _].
split; [exact Ho|].
destruct (@display_inverts_fit svd_octahedron octahedron octahedron
            eye3 (mkV3 2 2 2) eye3 eq_refl octahedron_factors Ho Ho)
  as (Rot & t & HRt & _ & Hpts & _).
exists Rot, t. auto.
Defined.

(** Witness of X18: the octahedron moved by a quarter turn and a shift. *)
Lemma display_round_trip_witness :
(3 <= length octahedron)%nat
/\ noncollinear octahedron
/\ proper_rotation quarter_turn
/\ t_observed_pts svd_octahedron octahedron
     (map (apply_rigid quarter_turn (mkV3 1 2 3)) octahedron)
   = Ok octahedron.
Proof.
assert (HN : (3 <= length octahedron)%nat) by (unfold octahedron; cbn [length]; lia).
assert (Hsvd : is_svd (cross_covariance octahedron
                         (map (apply_rigid quarter_turn (mkV3 1 2 3)) octahedron))
                      (svd_octahedron
                         (cross_covariance octahedron
                            (map (apply_rigid quarter_turn (mkV3 1 2 3)) octahedron)))).
{ rewrite octahedron_covariance_turned. apply svd_octahedron_ok.
  apply orthogonal_T. apply proper_quarter_turn. }
split; [exact HN|]. split; [exact octahedron_noncollinear|].
split; [exact proper_quarter_turn|].
apply (@display_round_trip svd_octahedron octahedron quarter_turn (mkV3 1 2 3)
         HN octahedron_noncollinear proper_quarter_turn Hsvd).
Defined.

(** Witness of X19: two passes from the fresh default session, scale 1. *)
Lemma display_rescales_depth_only_witness :
observed_pts session0 = []
/\ observed_pix session0 = []
/\ let c' := self (snd (collect sense0
                          [mkV3 0.3 0.05 (-0.2); mkV3 0.3 0.05 (-0.15)]
                          (mkState session0 []))) in
   new_observed_pts 1 (observed_pts c') = new_observed c' 1.
Proof.
split; [reflexivity|]. split; [reflexivity|].
apply (@display_rescales_depth_only sense0
         [mkV3 0.3 0.05 (-0.2); mkV3 0.3 0.05 (-0.15)]
         (mkState session0 []) 1 eq_refl eq_refl).
left. reflexivity.
Defined.

End ConcreteMore.

(** * Binary64: what rounding does

    Two places where the code, computing in binary64, departs from the
    exact values: the translation of the estimator, and the number of
    points of a grid axis. *)

Lemma axis_count_three_tenths : axis_count (0, 0.3) 0.1 = 4%nat.
Proof.
  unfold axis_count. cbn [fst snd].
  replace (Int_part ((0.3 - 0) / 0.1)) with 3%Z; [reflexivity|].
  apply Int_part_spec. split; lra.
Qed.

Module Binary64Facts.

Import PrimFloat.
Local Open Scope float_scope.

Lemma measured0_value :
  Binary64.measured0
  = Binary64.mkV3 0x1.3333333333333p-2 (-0x1.47ae147ae147bp-4)
                  (-0x1.70a3d70a3d70bp-3).
Proof. vm_compute. reflexivity. Qed.

(** Counterexample to C10 as stated: on the one sample of the concrete
    session the estimator returns the identity rotation and
    t = (-0.3, 0.08, 1.18), each the nearest binary64 number; R cA + t
    then has third coordinate 0.9999999999999999, while the centroid of B
    has 1. *)
Lemma centroid_not_mapped_exactly :
  let A := [Binary64.measured0] in
  let B := [Binary64.observed0] in
  length A = length B
  /\ (1 <= length A)%nat
  /\ exists Rot t,
      Binary64._get_rigid_transform Binary64.svd0 Binary64.det0 A B = Ok (Rot, t)
      /\ Rot = Binary64.eye3
      /\ t = Binary64.vadd (Binary64.dotv (Binary64.neg Rot) (Binary64.mean A))
                           (Binary64.mean B)
      /\ Binary64.vz (Binary64.vadd (Binary64.dotv Rot (Binary64.mean A)) t)
         = 0x1.fffffffffffffp-1
      /\ Binary64.vz (Binary64.mean B) = 1
      /\ Binary64.vadd (Binary64.dotv Rot (Binary64.mean A)) t <> Binary64.mean B.
Proof.
  cbv zeta. split; [reflexivity|]. split; [cbn [length]; lia|].
  exists Binary64.eye3,
         (Binary64.vadd
            (Binary64.dotv (Binary64.neg Binary64.eye3)
               (Binary64.mean [Binary64.measured0]))
            (Binary64.mean [Binary64.observed0])).
  split; [vm_compute; reflexivity|].
  split; [reflexivity|]. split; [reflexivity|].
  split; [vm_compute; reflexivity|].
  split; [vm_compute; reflexivity|].
  intros E.
  apply (f_equal (fun v => PrimFloat.eqb (Binary64.vz v) 1)) in E.
  vm_compute in E. discriminate.
Qed.

(** On the bounds 0 and 0.3 with step 0.1 the code computes
    num = 3.9999999999999996 and takes three points, where the exact
    value of 1 + (max - min) / step is 4. *)
Lemma count_on_three_tenths :
  Binary64.grid_num 0 0x1.3333333333333p-2 0x1.999999999999ap-4
  = 0x1.fffffffffffffp+1
  /\ Binary64.int
       (Binary64.grid_num 0 0x1.3333333333333p-2 0x1.999999999999ap-4)
     = Ok 3%Z.
Proof. split; vm_compute; reflexivity. Qed.

End Binary64Facts.

(** * The whole of [run]: the display after the files *)

Lemma display_few_rows (svd : M33 -> M33 * V3 * M33) (c : Calibration) (k : R) :
  (length (measured_pts c) <= 1)%nat -> display svd c k = Raise IndexError.
Proof.
  intros H. unfold display.
  destruct (measured_pts c) as [|m [|m' rest]]; [reflexivity | reflexivity |].
  cbn [length] in H. lia.
Qed.

Lemma display_rows (svd : M33 -> M33 * V3 * M33) (c : Calibration) (k : R) :
  (2 <= length (measured_pts c))%nat ->
  (2 <= length (observed_pts c))%nat ->
  display svd c k
  = rbind (t_observed_pts svd (measured_pts c) (observed_pts c)) (fun _ =>
    rbind (t_new_observed_pts svd (measured_pts c) (observed_pts c) k) (fun _ =>
    Ok tt)).
Proof.
  intros Hm Ho. unfold display.
  destruct (measured_pts c) as [|m [|m' rest]]; [cbn in Hm; lia | cbn in Hm; lia |].
  destruct (observed_pts c) as [|o [|o' rest']]; [cbn in Ho; lia | cbn in Ho; lia |].
  reflexivity.
Qed.

Lemma length_new_observed_pts (k : R) (pts : list V3) :
  length (new_observed_pts k pts) = length pts.
Proof. unfold new_observed_pts. apply length_map. Qed.

Section WholeRun.

Variable svd : M33 -> M33 * V3 * M33.
Variable minimize : (R -> result R) -> R -> result R.
Variable sense : nat -> observation.

(** With orthogonal factors the computation of a cloud does not fail on
    point sets of one length. *)
Lemma t_observed_pts_ok (A B : list V3) :
  (forall H, orthogonal (fst (fst (svd H))) /\ orthogonal (snd (svd H))) ->
  length A = length B ->
  exists pts, t_observed_pts svd A B = Ok pts.
Proof.
  intros Hsvd HL.
  destruct (get_rigid_transform_ok svd A B HL) as [Rot HRt].
  destruct (svd (cross_covariance A B)) as [[U Sv] Vt] eqn:E.
  pose proof (Hsvd (cross_covariance A B)) as [HU HV]. rewrite E in HU, HV.
  cbn [fst snd] in HU, HV.
  pose proof (@get_rigid_transform_orthogonal svd _ _ _ _ _ _ _ E HU HV HRt) as Ho.
  eexists. apply (@t_observed_pts_of_fit svd A B _ _ HRt Ho).
Qed.

(** The whole of [run], stage by stage: as [run] through the last file,
    then the display. *)
Lemma complete_run_stages (s : state) :
  Complete.run svd minimize sense s
  = match grid_of (self s) with
    | Raise e => (Raise e, mkState (self s) (trace s ++ startup_events))
    | Ok grid =>
        let c := collected sense (enumerate grid) (self s) in
        let tr := trace s ++ startup_events
                  ++ loop_events sense (tool_orientation (self s))
                       (length (measured_pts (self s))) (enumerate grid)
                  ++ [robot_go_home; optimize_minimize (length (measured_pts c))] in
        match minimize (objective svd c) 1 with
        | Raise e => (Raise e, mkState c tr)
        | Ok x =>
            let tr' := tr ++ [np_savetxt "saved_data/camera_depth_scale.txt" (Scalar x)] in
            match objective svd c x with
            | Raise e => (Raise e, mkState c tr')
            | Ok _ => (display svd c x, mkState c (tr' ++ saved_arrays eye4 c))
            end
        end
    end.
Proof.
  unfold Complete.run. unfold bind at 1 2 3 4 5, emit at 1 2 3 4 5. cbn [self trace].
  unfold bind at 1. rewrite generate_grid_pure. cbn [self trace].
  rewrite <- !app_assoc. cbn [app]. fold startup_events.
  destruct (grid_of (self s)) as [grid|e]; [|reflexivity].
  unfold bind at 1. unfold collect. fold (enumerate grid).
  rewrite for_each_collect_spec. cbn [self trace].
  cbv zeta.
  set (c := collected sense (enumerate grid) (self s)).
  unfold bind at 1, emit at 1. cbn [self trace].
  unfold bind at 1, get_self at 1. cbn [self trace].
  unfold bind at 1, emit at 1. cbn [self trace].
  unfold bind at 1.
  replace (fun z => fst (_get_rigid_transform_error svd z _)) with (objective svd c).
  2:{ apply functional_extensionality. intros z. rewrite objective_pure. reflexivity. }
  rewrite <- !app_assoc. cbn [app].
  destruct (minimize (objective svd c) 1) as [x|e]; [|reflexivity].
  unfold bind at 1, emit at 1. cbn [self trace].
  unfold bind at 1. rewrite objective_pure. cbn [self trace].
  destruct (objective svd c x) as [rmse|e]; [|rewrite <- !app_assoc; reflexivity].
  unfold bind at 1, lift at 1. rewrite linalg_inv_eye4.
  unfold bind, emit, get_self, lift. cbn [self trace].
  unfold saved_arrays. rewrite <- !app_assoc. reflexivity.
Qed.

Lemma display_ok (c : Calibration) (k : R) :
  length (observed_pts c) = length (measured_pts c) ->
  (2 <= length (measured_pts c))%nat ->
  (forall H, orthogonal (fst (fst (svd H))) /\ orthogonal (snd (svd H))) ->
  display svd c k = Ok tt.
Proof.
  intros HL HN Hsvd. rewrite display_rows by lia.
  destruct (@t_observed_pts_ok (measured_pts c) (observed_pts c) Hsvd)
    as [red ->]; [congruence|].
  cbn [rbind]. unfold t_new_observed_pts.
  destruct (@t_observed_pts_ok (measured_pts c)
              (new_observed_pts k (observed_pts c)) Hsvd) as [green ->].
  - rewrite length_new_observed_pts. congruence.
  - reflexivity.
Qed.

(** X20: on the arrays of a session holding as many observed as measured
    points, the display raises IndexError when there are fewer than two
    samples, the single row read back being one-dimensional; with two
    samples or more it completes, provided the decomposition returns
    orthogonal factors. *)
Theorem display_needs_two_samples (c : Calibration) (k : R) :
  length (observed_pts c) = length (measured_pts c) ->
  ((length (measured_pts c) <= 1)%nat -> display svd c k = Raise IndexError)
  /\ ((2 <= length (measured_pts c))%nat ->
      (forall H, orthogonal (fst (fst (svd H))) /\ orthogonal (snd (svd H))) ->
      display svd c k = Ok tt).
Proof.
  intros HL. split; [apply display_few_rows|].
  intros HN Hsvd. apply display_ok; assumption.
Qed.

(** X21: the whole of [run] leaves the session and the trace of calls as
    [run] through its last file does, and fails wherever that part
    fails.  When that part has completed from a session whose three
    sequences had one length, at least one sample is held; with exactly
    one, the whole method then raises IndexError in the display, after
    its five files were written; with two or more it completes,
    provided the decomposition returns orthogonal factors. *)
Theorem whole_run_needs_two_samples (s : state) :
  aligned (self s) ->
  let part := run svd minimize sense s in
  let whole := Complete.run svd minimize sense s in
  let N := length (measured_pts (self (snd part))) in
  snd whole = snd part
  /\ (forall e, fst part = Raise e -> fst whole = Raise e)
  /\ (fst part = Ok tt ->
      (1 <= N)%nat
      /\ saved_files (trace (snd whole)) = saved_files (trace s) ++ all_files
      /\ (N = 1%nat -> fst whole = Raise IndexError)
      /\ ((2 <= N)%nat ->
          (forall H, orthogonal (fst (fst (svd H))) /\ orthogonal (snd (svd H))) ->
          fst whole = Ok tt)).
Proof.
  intros Hal. cbv zeta. rewrite complete_run_stages, run_stages.
  destruct (grid_of (self s)) as [grid|e].
  2:{ cbn [fst snd]. split; [reflexivity|]. split; [auto|]. discriminate. }
  cbv zeta.
  pose proof (@aligned_collected sense (enumerate grid) (self s) Hal) as [Ha1 Ha2].
  set (c := collected sense (enumerate grid) (self s)) in *.
  destruct (minimize (objective svd c) 1) as [x|e].
  2:{ cbn [fst snd]. split; [reflexivity|]. split; [auto|]. discriminate. }
  destruct (objective svd c x) as [v|e] eqn:Eobj.
  2:{ cbn [fst snd]. split; [reflexivity|]. split; [auto|]. discriminate. }
  cbn [fst snd self trace].
  split; [reflexivity|]. split; [discriminate|]. intros _.
  assert (HN : (1 <= length (measured_pts c))%nat).
  { destruct (observed_pts c) as [|o rest] eqn:Eo.
    - rewrite objective_empty in Eobj by exact Eo. discriminate.
    - rewrite Ha1. cbn [length]. lia. }
  split; [exact HN|]. split.
  - rewrite !saved_files_app, saved_files_startup, saved_files_loop_events,
      saved_files_saved_arrays. cbn [app saved_files flat_map].
    rewrite <- !app_assoc. reflexivity.
  - split.
    + intros H1. apply display_few_rows. lia.
    + intros H2 Hsvd. apply display_ok; [congruence | exact H2 | exact Hsvd].
Qed.

End WholeRun.

Module ConcreteWhole.

Import Example ExampleFacts.

Lemma svd0_orthogonal (H : M33) :
  orthogonal (fst (fst (svd0 H))) /\ orthogonal (snd (svd0 H)).
Proof. cbn [svd0 fst snd]. split; apply proper_rotation_eye3. Qed.

(** Witness of X20: the session of one sample, and the session of three. *)
Lemma display_needs_two_samples_witness :
  length (observed_pts session1) = length (measured_pts session1)
  /\ display svd0 session1 1 = Raise IndexError
  /\ length (observed_pts session3) = length (measured_pts session3)
  /\ display svd0 session3 1 = Ok tt.
Proof.
  split; [reflexivity|]. split.
  - apply (@display_needs_two_samples svd0 session1 1 eq_refl). cbn. lia.
  - split; [reflexivity|].
    apply (@display_needs_two_samples svd0 session3 1 eq_refl).
    + cbn. lia.
    + exact svd0_orthogonal.
Defined.

Lemma aligned_session0 : aligned session0.
Proof. split; reflexivity. Qed.

(** Witness of X21: the default session with the checkerboard seen once:
    the five files are written and the display raises IndexError. *)
Lemma whole_run_needs_two_samples_witness :
  aligned session0
  /\ fst (run svd0 minimize0 sense0 (mkState session0 [])) = Ok tt
  /\ fst (Complete.run svd0 minimize0 sense0 (mkState session0 []))
     = Raise IndexError
  /\ saved_files (trace (snd (Complete.run svd0 minimize0 sense0
                                (mkState session0 []))))
     = all_files.
Proof.
  assert (Hpart : fst (run svd0 minimize0 sense0 (mkState session0 [])) = Ok tt)
    by (destruct session0_run as [rest ->]; reflexivity).
  assert (HN : length (measured_pts
                         (self (snd (run svd0 minimize0 sense0
                                       (mkState session0 []))))) = 1%nat)
    by (destruct session0_run as [rest ->]; reflexivity).
  destruct (@whole_run_needs_two_samples svd0 minimize0 sense0
              (mkState session0 []) aligned_session0)
    as (_ & _ & H).
  destruct (H Hpart) as (_ & Hfiles & Hone & _).
  split; [exact aligned_session0|]. split; [exact Hpart|].
  split; [exact (Hone HN) | exact Hfiles].
Defined.

End ConcreteWhole.
